(** * Authentication core of the inventory backend

    A shallow embedding of [backend/src/auth/auth.service.ts] (class
    [AuthService]) and the properties of its public operations.

    The service is a NestJS provider: every method is an [async] function
    that talks to the Prisma store, to [bcryptjs], to the JWT codec and to
    two loggers.  Here a method is a function in a state-and-exception
    monad over [World], the part of the outside world the service reads
    or writes: the [user] and [role] tables, the security log, the audit
    trail, the output of the Nest [Logger], the clock and the random
    source.  Rows are records, as Prisma types them; the objects handed
    back to callers, which the code shapes with rest-destructuring and
    spread, are finite maps from field names to values. *)

From Stdlib Require Import ZArith Lia Bool.
From stdpp Require Import base option list strings gmap.

Local Open Scope string_scope.
Local Open Scope Z_scope.
Local Open Scope list_scope.

(** ** Data model *)

(** [UserStatus], the Prisma enum behind [user.status]. *)
Inductive UserStatus := ACTIVE | INACTIVE | SUSPENDED.

Definition UserStatus_eqb (a b : UserStatus) : bool :=
  match a, b with
  | ACTIVE, ACTIVE | INACTIVE, INACTIVE | SUSPENDED, SUSPENDED => true
  | _, _ => false
  end.

Definition UserStatus_to_string (s : UserStatus) : string :=
  match s with
  | ACTIVE => "ACTIVE"
  | INACTIVE => "INACTIVE"
  | SUSPENDED => "SUSPENDED"
  end.

Record Permission := mkPermission {
  p_id : string;
  p_key : string
}.

(** A row of the role-permission join with its [permission] included. *)
Record RolePermission := mkRolePermission {
  rp_permission : Permission
}.

(** A role with [rolePermissions] included, in the order of the join. *)
Record Role := mkRole {
  r_id : string;
  r_name : string;
  r_rolePermissions : list RolePermission
}.

(** A row of the [user] table: the columns the service names. *)
Record User := mkUser {
  u_id : string;
  u_email : string;
  u_name : string;
  u_passwordHash : string;
  u_status : UserStatus;
  u_roleId : string;
  u_lastLoginAt : option Z;
  u_passwordResetToken : option string;
  u_passwordResetExpires : option Z
}.

(** What [prisma.user.findUnique] returns under
    [include: { role: { include: { rolePermissions: ... } } }]. *)
Record UserWithRole := mkUserWithRole {
  row : User;
  role : option Role
}.

(** A row of the [securityLog] table, as [logSecurityEvent] builds it. *)
Record SecurityLog := mkSecurityLog {
  sl_userId : option string;
  sl_event : string;
  sl_email : option string;
  sl_ipAddress : option string;
  sl_userAgent : option string;
  sl_success : bool;
  sl_errorMessage : option string;
  sl_metadata : option string
}.

(** The argument of [auditService.log] in [register]. *)
Record AuditEntry := mkAuditEntry {
  a_entity : string;
  a_entityId : string;
  a_action : string;
  a_actorUserId : string;
  a_actorRole : string;
  a_afterData : string * string * string;
  a_ipAddress : option string;
  a_userAgent : option string
}.

(** Exceptions the service raises or lets through. *)
Inductive Exception :=
| ConflictException (message : string)
| UnauthorizedException (message : string)
| BadRequestException (message : string)
| Error (message : string)
| TypeError (message : string)
| PrismaClientKnownRequestError (code message : string)
| JsonWebTokenError (message : string).

(** [error.message] *)
Definition message_of (e : Exception) : string :=
  match e with
  | ConflictException m | UnauthorizedException m | BadRequestException m
  | Error m | TypeError m | PrismaClientKnownRequestError _ m
  | JsonWebTokenError m => m
  end.

(** [error instanceof UnauthorizedException] *)
Definition instanceof_Unauthorized (e : Exception) : bool :=
  match e with UnauthorizedException _ => true | _ => false end.

Definition instanceof_Conflict (e : Exception) : bool :=
  match e with ConflictException _ => true | _ => false end.

Inductive Result (A : Type) :=
| Ok (a : A)
| Throw (e : Exception).
Arguments Ok {A} a.
Arguments Throw {A} e.

(** ** Tokens

    [jwtService.sign] is the codec's; a token is kept symbolic: the
    payload handed to [sign], the options of the call and the registered
    claims the codec adds to the payload (issuer, audience and the time
    of issue; the expiry follows from the time of issue and
    [expiresIn]). *)

Inductive JwtPayload :=
| AccessPayload (sub email role : string) (permissions : list string)
| RefreshPayload (sub type : string).

Definition payload_sub (p : JwtPayload) : string :=
  match p with AccessPayload s _ _ _ | RefreshPayload s _ => s end.

Record SignOptions := mkSignOptions {
  secret : string;
  expiresIn : string
}.

(** The registered claims of a token. *)
Record Registered := mkRegistered {
  iss : string;
  aud : string;
  iat : Z
}.

Inductive Token :=
| Signed (payload : JwtPayload) (options : SignOptions)
         (registered : Registered)
| Malformed (raw : string).

(** [signOptions] of [JwtModule.registerAsync] in [AuthModule]: the codec
    merges them under the options of every [sign] call.  The module's
    own [secret] and [expiresIn] are overridden by the options of both
    calls in [generateTokenPair]; issuer and audience are not. *)
Definition module_issuer : string := "inventory-system".
Definition module_audience : string := "inventory-users".

(** The registered claims of a token signed at [now]. *)
Definition registered_at (now : Z) : Registered :=
  {| iss := module_issuer; aud := module_audience; iat := now |}.

Record TokenPair := mkTokenPair {
  accessToken : Token;
  refreshToken_of : Token;
  tp_expiresIn : string
}.

(** ** Objects returned to callers *)

Inductive JsValue :=
| JNull
| JString (s : string)
| JDate (ms : Z)
| JStrings (l : list string)
| JRole (r : Role).

Record AuthResponse := mkAuthResponse {
  ar_user : gmap string JsValue;
  ar_tokens : TokenPair;
  ar_message : string
}.

Record Message := mkMessage { message : string }.

(** ** DTOs *)

Record RegisterDto := mkRegisterDto {
  reg_email : string;
  reg_password : string;
  reg_name : string;
  reg_roleId : option string
}.

Record LoginDto := mkLoginDto {
  login_email : string;
  login_password : string
}.

Record ChangePasswordDto := mkChangePasswordDto {
  currentPassword : string;
  cp_newPassword : string
}.

Record ResetPasswordDto := mkResetPasswordDto {
  token : string;
  newPassword : string
}.

(** ** Configuration and the service object *)

(** The keys [ConfigService.get] is asked for; [None] is an unset key. *)
Record ConfigService := mkConfig {
  JWT_SECRET : option string;
  JWT_REFRESH_SECRET : option string;
  JWT_EXPIRES_IN : option string;
  JWT_REFRESH_EXPIRES_IN : option string;
  BCRYPT_ROUNDS : option Z
}.

(** The private fields of [AuthService]. *)
Record AuthService := mkAuthService {
  jwtSecret : string;
  jwtRefreshSecret : string;
  jwtExpiresIn : string;
  jwtRefreshExpiresIn : string;
  configService : ConfigService
}.

(** JavaScript truthiness of an optional string: [undefined], [null] and
    the empty string are falsy. *)
Definition truthy (o : option string) : bool :=
  match o with
  | Some s => negb (String.eqb s "")
  | None => false
  end.

(** The constructor: reads the four settings and refuses to start
    without both secrets. *)
Definition constructor (cfg : ConfigService) : Result AuthService :=
  if negb (truthy (JWT_SECRET cfg)) || negb (truthy (JWT_REFRESH_SECRET cfg))
  then Throw (Error "JWT secrets are not configured properly")
  else Ok {| jwtSecret := default "" (JWT_SECRET cfg);
             jwtRefreshSecret := default "" (JWT_REFRESH_SECRET cfg);
             jwtExpiresIn := default "15m" (JWT_EXPIRES_IN cfg);
             jwtRefreshExpiresIn := default "7d" (JWT_REFRESH_EXPIRES_IN cfg);
             configService := cfg |}.

(** ** The world *)

Record World := mkWorld {
  users : list User;
  roles : list Role;
  securityLogs : list SecurityLog;
  auditLogs : list AuditEntry;
  loggerErrors : list string;
  clock : Z;
  entropy : nat;
  securityLogDown : bool;
  auditDown : bool
}.

Definition set_users (us : list User) (w : World) : World :=
  {| users := us; roles := roles w; securityLogs := securityLogs w;
     auditLogs := auditLogs w; loggerErrors := loggerErrors w;
     clock := clock w; entropy := entropy w;
     securityLogDown := securityLogDown w; auditDown := auditDown w |}.

Definition set_securityLogs (l : list SecurityLog) (w : World) : World :=
  {| users := users w; roles := roles w; securityLogs := l;
     auditLogs := auditLogs w; loggerErrors := loggerErrors w;
     clock := clock w; entropy := entropy w;
     securityLogDown := securityLogDown w; auditDown := auditDown w |}.

Definition set_auditLogs (l : list AuditEntry) (w : World) : World :=
  {| users := users w; roles := roles w; securityLogs := securityLogs w;
     auditLogs := l; loggerErrors := loggerErrors w;
     clock := clock w; entropy := entropy w;
     securityLogDown := securityLogDown w; auditDown := auditDown w |}.

Definition set_loggerErrors (l : list string) (w : World) : World :=
  {| users := users w; roles := roles w; securityLogs := securityLogs w;
     auditLogs := auditLogs w; loggerErrors := l;
     clock := clock w; entropy := entropy w;
     securityLogDown := securityLogDown w; auditDown := auditDown w |}.

Definition set_entropy (n : nat) (w : World) : World :=
  {| users := users w; roles := roles w; securityLogs := securityLogs w;
     auditLogs := auditLogs w; loggerErrors := loggerErrors w;
     clock := clock w; entropy := n;
     securityLogDown := securityLogDown w; auditDown := auditDown w |}.

(** ** The monad of an [async] method *)

Definition M (A : Type) : Type := World -> Result A * World.

Definition ret {A} (a : A) : M A := fun w => (Ok a, w).

Definition throw {A} (e : Exception) : M A := fun w => (Throw e, w).

Definition bind {A B} (m : M A) (k : A -> M B) : M B :=
  fun w =>
    match m w with
    | (Ok a, w') => k a w'
    | (Throw e, w') => (Throw e, w')
    end.

(** [try { m } catch (error) { handler error }] *)
Definition try_catch {A} (m : M A) (handler : Exception -> M A) : M A :=
  fun w =>
    match m w with
    | (Ok a, w') => (Ok a, w')
    | (Throw e, w') => handler e w'
    end.

(** A step that cannot raise. *)
Definition modify (f : World -> World) : M unit := fun w => (Ok tt, f w).

Definition gets {A} (f : World -> A) : M A := fun w => (Ok (f w), w).

Declare Scope auth_scope.
Delimit Scope auth_scope with auth.
Notation "'let*' x ':=' m 'in' k" := (bind m (fun x => k))
  (at level 10, x name, m at level 100, k at level 200) : auth_scope.
Notation "m '>>' k" := (bind m (fun _ => k))
  (at level 100, k at level 200, right associativity) : auth_scope.
Local Open Scope auth_scope.

(** ** Collaborators

    The libraries the service calls.  [bcrypt_hash] abstracts the salt;
    [uuidv4] and [newRowId] are the [n]-th draws of the random source
    ([uuid]'s [v4] and the store's id default); [jwt_timespan expiresIn]
    is the codec's reading of a lifetime setting, [None] when the string
    is no time span; [jwt_expired expiresIn iat now] is the codec's
    expiry test. *)
Class Collaborators := {
  bcrypt_hash : string -> Z -> string;
  bcrypt_compare : string -> string -> bool;
  uuidv4 : nat -> string;
  newRowId : nat -> string;
  jwt_timespan : string -> option Z;
  jwt_expired : string -> Z -> Z -> bool
}.

(** The codec's complaint about an [expiresIn] that is no time span
    (the quotation marks of the original message are left out). *)
Definition invalid_expiresIn : Exception :=
  Error
    "expiresIn should be a number of seconds or string representing a timespan".

Section Service.

Context {C : Collaborators}.
Variable this : AuthService.

(** *** The codec *)

(** [jwtService.sign(payload, options)]: the codec refuses an
    [expiresIn] that is no time span, and otherwise stamps the payload
    with the module's issuer and audience and the time of issue. *)
Definition jwt_sign (payload : JwtPayload) (options : SignOptions) : M Token :=
  fun w =>
    match jwt_timespan (expiresIn options) with
    | Some _ => (Ok (Signed payload options (registered_at (clock w))), w)
    | None => (Throw invalid_expiresIn, w)
    end.

(** [jwtService.verify(token, { secret })]: signature and expiry; the
    module registers no verify options, so issuer and audience are not
    checked. *)
Definition jwt_verify (tok : Token) (sec : string) : M JwtPayload :=
  fun w =>
    match tok with
    | Signed payload options registered =>
        if negb (String.eqb (secret options) sec)
        then (Throw (JsonWebTokenError "invalid signature"), w)
        else if jwt_expired (expiresIn options) (iat registered) (clock w)
        then (Throw (JsonWebTokenError "jwt expired"), w)
        else (Ok payload, w)
    | Malformed _ => (Throw (JsonWebTokenError "jwt malformed"), w)
    end.

(** *** The store *)

Definition by_email (email : string) (u : User) : bool :=
  String.eqb (u_email u) email.

Definition by_id (id : string) (u : User) : bool :=
  String.eqb (u_id u) id.

Definition role_by_id (id : string) (r : Role) : bool :=
  String.eqb (r_id r) id.

(** The [include] of the role and its permissions. *)
Definition include_role (w : World) (u : User) : UserWithRole :=
  {| row := u; role := find (role_by_id (u_roleId u)) (roles w) |}.

(** [prisma.user.findUnique({ where: { email } })] *)
Definition user_findUnique_email (email : string) : M (option User) :=
  gets (fun w => find (by_email email) (users w)).

(** [prisma.user.findUnique({ where: { email }, include })] *)
Definition user_findUnique_email_include (email : string)
  : M (option UserWithRole) :=
  gets (fun w => include_role w <$> find (by_email email) (users w)).

(** [prisma.user.findUnique({ where: { id } })] *)
Definition user_findUnique_id (id : string) : M (option User) :=
  gets (fun w => find (by_id id) (users w)).

(** [prisma.user.findUnique({ where: { id }, include })] *)
Definition user_findUnique_id_include (id : string)
  : M (option UserWithRole) :=
  gets (fun w => include_role w <$> find (by_id id) (users w)).

(** [UPDATE user SET ... WHERE id = ?] *)
Definition update_rows (id : string) (f : User -> User) (us : list User)
  : list User :=
  map (fun u => if by_id id u then f u else u) us.

(** [prisma.user.update({ where: { id }, data })]: the record must
    exist, otherwise the store raises P2025. *)
Definition user_update (id : string) (f : User -> User) : M unit :=
  fun w =>
    if existsb (by_id id) (users w)
    then (Ok tt, set_users (update_rows id f (users w)) w)
    else (Throw (PrismaClientKnownRequestError "P2025"
                   "Record to update not found"), w).

(** The row a [create] with [status: 'ACTIVE'] inserts; the id is the
    store's. *)
Definition new_user (email name passwordHash roleId : string) (w : World)
  : User :=
  {| u_id := newRowId (entropy w); u_email := email; u_name := name;
     u_passwordHash := passwordHash; u_status := ACTIVE; u_roleId := roleId;
     u_lastLoginAt := None; u_passwordResetToken := None;
     u_passwordResetExpires := None |}.

(** Modelled from the spec: the schema of the store is not in the
    sources; the spec gives users a unique id and a unique email and
    every user exactly one role.  [prisma.user.create] with the role
    included: the store assigns the id, enforces both uniqueness
    constraints (P2002) and the role reference (P2003), and appends the
    row. *)
Definition user_create (email name passwordHash roleId : string)
  : M UserWithRole :=
  fun w =>
    let u := new_user email name passwordHash roleId w in
    let w1 := set_entropy (S (entropy w)) w in
    if existsb (by_email email) (users w)
       || existsb (by_id (u_id u)) (users w)
    then (Throw (PrismaClientKnownRequestError "P2002"
                   "Unique constraint failed"), w1)
    else match find (role_by_id roleId) (roles w) with
         | None => (Throw (PrismaClientKnownRequestError "P2003"
                             "Foreign key constraint failed"), w1)
         | Some r =>
             (Ok {| row := u; role := Some r |},
              set_users (users w ++ [u]) w1)
         end.

(** [prisma.user.findFirst] with the filter of [resetPassword]: the
    token equal to the given one and the expiry after [now]; a null
    expiry matches nothing. *)
Definition reset_filter (tok : string) (now : Z) (u : User) : bool :=
  match u_passwordResetToken u, u_passwordResetExpires u with
  | Some t, Some e => String.eqb t tok && (now <? e)
  | _, _ => false
  end.

Definition user_findFirst_reset (tok : string) : M (option User) :=
  gets (fun w => find (reset_filter tok (clock w)) (users w)).

(** [prisma.role.findFirst({ where: { name } })] *)
Definition role_findFirst_name (name : string) : M (option Role) :=
  gets (fun w => find (fun r => String.eqb (r_name r) name) (roles w)).

(** [new Date()] and [Date.now()] *)
Definition Date_now : M Z := gets clock.

(** [uuidv4()] *)
Definition draw_uuid : M string :=
  fun w => (Ok (uuidv4 (entropy w)), set_entropy (S (entropy w)) w).

(** *** Logging *)

(** [logSecurityEvent]: the write to the security log sits in a
    [try]/[catch] whose handler only reports to the Nest logger, so the
    call never raises. *)
Definition logSecurityEvent (event : string) (userId email : option string)
    (ipAddress userAgent errorMessage : option string) (w : World) : World :=
  if securityLogDown w
  then set_loggerErrors
         (loggerErrors w ++ ["Failed to log security event:"]) w
  else set_securityLogs
         (securityLogs w ++
          [{| sl_userId := userId; sl_event := event; sl_email := email;
              sl_ipAddress := ipAddress; sl_userAgent := userAgent;
              sl_success := negb (truthy errorMessage);
              sl_errorMessage := errorMessage;
              sl_metadata := if truthy errorMessage then errorMessage
                             else None |}]) w.

(** Modelled from the spec: [AuditService] is injected into the
    constructor and its source is not in the repository's files; the
    spec has [register] emit an audit-trail entry through it.
    [auditService.log] is a write to the audit trail: it appends the
    entry, or raises when the audit store is down ([auditDown]). *)
Definition auditService_log (entry : AuditEntry) : M unit :=
  fun w =>
    if auditDown w
    then (Throw (Error "Audit log write failed"), w)
    else (Ok tt, set_auditLogs (auditLogs w ++ [entry]) w).

(** *** Objects *)

Definition of_opt_string (o : option string) : JsValue :=
  match o with Some s => JString s | None => JNull end.

Definition of_opt_date (o : option Z) : JsValue :=
  match o with Some d => JDate d | None => JNull end.

Definition of_opt_role (o : option Role) : JsValue :=
  match o with Some r => JRole r | None => JNull end.

(** The object Prisma hands back for a user loaded with its role. *)
Definition toObject (user : UserWithRole) : gmap string JsValue :=
  let u := row user in
  <["id" := JString (u_id u)]>
  (<["email" := JString (u_email u)]>
  (<["name" := JString (u_name u)]>
  (<["passwordHash" := JString (u_passwordHash u)]>
  (<["status" := JString (UserStatus_to_string (u_status u))]>
  (<["roleId" := JString (u_roleId u)]>
  (<["lastLoginAt" := of_opt_date (u_lastLoginAt u)]>
  (<["passwordResetToken" := of_opt_string (u_passwordResetToken u)]>
  (<["passwordResetExpires" := of_opt_date (u_passwordResetExpires u)]>
  (<["role" := of_opt_role (role user)]> ∅))))))))).

(** [role.rolePermissions.map((rp) => rp.permission.key)] *)
Definition permission_keys (r : Role) : list string :=
  map (fun rp => p_key (rp_permission rp)) (r_rolePermissions r).

(** *** Private helpers *)

(** [generateTokenPair]; [user.role.name] on a user without a role is a
    [TypeError]. *)
Definition generateTokenPair (user : UserWithRole) : M TokenPair :=
  match role user with
  | None => throw (TypeError "Cannot read properties of null")
  | Some r =>
      let payload :=
        AccessPayload (u_id (row user)) (u_email (row user)) (r_name r)
                      (permission_keys r) in
      let* accessToken :=
        jwt_sign payload {| secret := jwtSecret this;
                            expiresIn := jwtExpiresIn this |} in
      let* refreshToken :=
        jwt_sign (RefreshPayload (u_id (row user)) "refresh")
                 {| secret := jwtRefreshSecret this;
                    expiresIn := jwtRefreshExpiresIn this |} in
      ret {| accessToken := accessToken;
             refreshToken_of := refreshToken;
             tp_expiresIn := jwtExpiresIn this |}
  end.

(** [formatUserResponse]: the three secret fields are taken out by the
    destructuring, the rest is spread and [permissions] is added. *)
Definition formatUserResponse (user : UserWithRole) : gmap string JsValue :=
  let userResponse :=
    delete "passwordResetExpires"
      (delete "passwordResetToken"
         (delete "passwordHash" (toObject user))) in
  <["permissions" :=
      JStrings (match role user with
                | Some r => permission_keys r
                | None => []
                end)]> userResponse.

(** [getDefaultRoleId] *)
Definition getDefaultRoleId : M string :=
  let* defaultRole := role_findFirst_name "Subordinate" in
  match defaultRole with
  | None => throw (Error "Default role not found")
  | Some r => ret (r_id r)
  end.

(** *** The [data] of the updates *)

(** [data: { lastLoginAt: new Date() }] *)
Definition set_lastLoginAt (now : Z) (u : User) : User :=
  {| u_id := u_id u; u_email := u_email u; u_name := u_name u;
     u_passwordHash := u_passwordHash u; u_status := u_status u;
     u_roleId := u_roleId u; u_lastLoginAt := Some now;
     u_passwordResetToken := u_passwordResetToken u;
     u_passwordResetExpires := u_passwordResetExpires u |}.

(** [data: { passwordHash: newPasswordHash }] *)
Definition set_passwordHash (newPasswordHash : string) (u : User) : User :=
  {| u_id := u_id u; u_email := u_email u; u_name := u_name u;
     u_passwordHash := newPasswordHash; u_status := u_status u;
     u_roleId := u_roleId u; u_lastLoginAt := u_lastLoginAt u;
     u_passwordResetToken := u_passwordResetToken u;
     u_passwordResetExpires := u_passwordResetExpires u |}.

(** [data: { passwordResetToken, passwordResetExpires }] *)
Definition set_reset (tok : option string) (expires : option Z) (u : User)
  : User :=
  {| u_id := u_id u; u_email := u_email u; u_name := u_name u;
     u_passwordHash := u_passwordHash u; u_status := u_status u;
     u_roleId := u_roleId u; u_lastLoginAt := u_lastLoginAt u;
     u_passwordResetToken := tok; u_passwordResetExpires := expires |}.

(** [data: { passwordHash, passwordResetToken: null,
    passwordResetExpires: null }]: one write sets the hash and nulls
    both reset fields. *)
Definition set_password_clear_reset (newPasswordHash : string) (u : User)
  : User :=
  {| u_id := u_id u; u_email := u_email u; u_name := u_name u;
     u_passwordHash := newPasswordHash; u_status := u_status u;
     u_roleId := u_roleId u; u_lastLoginAt := u_lastLoginAt u;
     u_passwordResetToken := None; u_passwordResetExpires := None |}.

(** *** Public operations *)

(** [register].  The method awaits the store several times; [others]
    is what concurrent requests commit between its lookup and its
    insert. *)
Definition register_with (others : World -> World) (registerDto : RegisterDto)
    (ipAddress userAgent : option string) : M AuthResponse :=
  let email := reg_email registerDto in
  let password := reg_password registerDto in
  let name := reg_name registerDto in
  let roleId := reg_roleId registerDto in
  try_catch
    (let* existingUser := user_findUnique_email email in
     match existingUser with
     | Some _ => throw (ConflictException "User with this email already exists")
     | None =>
         let saltRounds := default 12 (BCRYPT_ROUNDS (configService this)) in
         let passwordHash := bcrypt_hash password saltRounds in
         let* rid := (if truthy roleId then ret (default "" roleId)
                      else getDefaultRoleId) in
         modify others >>
         let* user := user_create email name passwordHash rid in
         modify (logSecurityEvent "REGISTER_SUCCESS" (Some (u_id (row user)))
                   (Some email) ipAddress userAgent None) >>
         match role user with
         | None => throw (TypeError "Cannot read properties of null")
         | Some r =>
             auditService_log
               {| a_entity := "User"; a_entityId := u_id (row user);
                  a_action := "CREATE"; a_actorUserId := u_id (row user);
                  a_actorRole := r_name r;
                  a_afterData := (email, name, u_roleId (row user));
                  a_ipAddress := ipAddress; a_userAgent := userAgent |} >>
             let* tokens := generateTokenPair user in
             ret {| ar_user := formatUserResponse user;
                    ar_tokens := tokens;
                    ar_message := "Registration successful" |}
         end
     end)
    (fun error =>
       modify (logSecurityEvent "REGISTER_FAILED" None (Some email)
                 ipAddress userAgent (Some (message_of error))) >>
       throw error).

Definition register : RegisterDto -> option string -> option string
                      -> M AuthResponse :=
  register_with (fun w => w).

(** [login] *)
Definition login (loginDto : LoginDto) (ipAddress userAgent : option string)
  : M AuthResponse :=
  let email := login_email loginDto in
  let password := login_password loginDto in
  try_catch
    (let* found := user_findUnique_email_include email in
     match found with
     | None =>
         modify (logSecurityEvent "LOGIN_FAILED" None (Some email)
                   ipAddress userAgent (Some "User not found")) >>
         throw (UnauthorizedException "Invalid credentials")
     | Some user =>
         if negb (UserStatus_eqb (u_status (row user)) ACTIVE)
         then
           modify (logSecurityEvent "LOGIN_FAILED" (Some (u_id (row user)))
                     (Some email) ipAddress userAgent
                     (Some "Account inactive")) >>
           throw (UnauthorizedException "Account is inactive")
         else if negb (bcrypt_compare password (u_passwordHash (row user)))
         then
           modify (logSecurityEvent "LOGIN_FAILED" (Some (u_id (row user)))
                     (Some email) ipAddress userAgent
                     (Some "Invalid password")) >>
           throw (UnauthorizedException "Invalid credentials")
         else
           let* now := Date_now in
           user_update (u_id (row user)) (set_lastLoginAt now) >>
           modify (logSecurityEvent "LOGIN_SUCCESS" (Some (u_id (row user)))
                     (Some email) ipAddress userAgent None) >>
           let* tokens := generateTokenPair user in
           ret {| ar_user := formatUserResponse user;
                  ar_tokens := tokens;
                  ar_message := "Login successful" |}
     end)
    (fun error =>
       if instanceof_Unauthorized error then throw error
       else
         modify (logSecurityEvent "LOGIN_FAILED" None (Some email)
                   ipAddress userAgent (Some (message_of error))) >>
         throw (UnauthorizedException "Login failed")).

(** [refreshToken] *)
Definition refreshToken (refreshToken : Token) : M TokenPair :=
  try_catch
    (let* payload := jwt_verify refreshToken (jwtRefreshSecret this) in
     let* found := user_findUnique_id_include (payload_sub payload) in
     match found with
     | None => throw (UnauthorizedException "Invalid refresh token")
     | Some user =>
         if negb (UserStatus_eqb (u_status (row user)) ACTIVE)
         then throw (UnauthorizedException "Invalid refresh token")
         else generateTokenPair user
     end)
    (fun _ => throw (UnauthorizedException "Invalid refresh token")).

(** [logout].  [lookup] is the answer of the store to the [findUnique]
    of the method, the one call in its [try] block that can reject. *)
Definition logout_with (lookup : string -> M (option User)) (userId : string)
    (ipAddress userAgent : option string) : M Message :=
  try_catch
    (let* found := lookup userId in
     match found with
     | Some user =>
         modify (logSecurityEvent "LOGOUT" (Some userId)
                   (Some (u_email user)) ipAddress userAgent None) >>
         ret {| message := "Logout successful" |}
     | None => ret {| message := "Logout successful" |}
     end)
    (fun _ =>
       modify (fun w => set_loggerErrors (loggerErrors w ++ ["Logout error:"]) w) >>
       ret {| message := "Logout completed" |}).

(** [logout] against the store of the world. *)
Definition logout : string -> option string -> option string -> M Message :=
  logout_with user_findUnique_id.

(** [changePassword] *)
Definition changePassword (userId : string)
    (changePasswordDto : ChangePasswordDto) : M Message :=
  let* found := user_findUnique_id userId in
  match found with
  | None => throw (UnauthorizedException "User not found")
  | Some user =>
      if negb (bcrypt_compare (currentPassword changePasswordDto)
                              (u_passwordHash user))
      then throw (BadRequestException "Current password is incorrect")
      else
        let saltRounds := default 12 (BCRYPT_ROUNDS (configService this)) in
        let newPasswordHash :=
          bcrypt_hash (cp_newPassword changePasswordDto) saltRounds in
        user_update userId (set_passwordHash newPasswordHash) >>
        modify (logSecurityEvent "PASSWORD_CHANGE" (Some userId)
                  (Some (u_email user)) None None None) >>
        ret {| message := "Password changed successfully" |}
  end.

(** [forgotPassword] *)
Definition forgotPassword (email : string) : M Message :=
  let* found := user_findUnique_email email in
  match found with
  | None => ret {| message := "If the email exists, a reset link has been sent" |}
  | Some user =>
      let* resetToken := draw_uuid in
      let* now := Date_now in
      let resetExpires := now + 15 * 60 * 1000 in
      user_update (u_id user) (set_reset (Some resetToken) (Some resetExpires)) >>
      modify (logSecurityEvent "PASSWORD_RESET_REQUEST" (Some (u_id user))
                (Some email) None None None) >>
      ret {| message := "If the email exists, a reset link has been sent" |}
  end.

(** [resetPassword] *)
Definition resetPassword (resetPasswordDto : ResetPasswordDto) : M Message :=
  let* found := user_findFirst_reset (token resetPasswordDto) in
  match found with
  | None => throw (BadRequestException "Invalid or expired reset token")
  | Some user =>
      let saltRounds := default 12 (BCRYPT_ROUNDS (configService this)) in
      let newPasswordHash :=
        bcrypt_hash (newPassword resetPasswordDto) saltRounds in
      user_update (u_id user) (set_password_clear_reset newPasswordHash) >>
      modify (logSecurityEvent "PASSWORD_RESET_SUCCESS" (Some (u_id user))
                (Some (u_email user)) None None None) >>
      ret {| message := "Password reset successful" |}
  end.

(** [validateUser]: [null] is [None]; the result is the loaded user
    without [passwordHash]. *)
Definition validateUser (email password : string)
  : M (option (gmap string JsValue)) :=
  let* found := user_findUnique_email_include email in
  match found with
  | Some user =>
      if UserStatus_eqb (u_status (row user)) ACTIVE
      then if bcrypt_compare password (u_passwordHash (row user))
           then ret (Some (delete "passwordHash" (toObject user)))
           else ret None
      else ret None
  | None => ret None
  end.

End Service.

(** The codec reads both configured lifetimes as time spans. *)
Definition codec_accepts `{Collaborators} (this : AuthService) : Prop :=
  is_Some (jwt_timespan (jwtExpiresIn this))
  /\ is_Some (jwt_timespan (jwtRefreshExpiresIn this)).

(** ** Predicates on the store *)

(** At most one user holds the reset token [tok]. *)
Definition single_holder (tok : string) (us : list User) : Prop :=
  forall u v, In u us -> In v us ->
    u_passwordResetToken u = Some tok ->
    u_passwordResetToken v = Some tok ->
    u_id u = u_id v.

(** Some user holds [tok] with an expiry after [now]. *)
Definition holds_live_token (tok : string) (now : Z) (us : list User) : Prop :=
  exists u e, In u us /\ u_passwordResetToken u = Some tok
              /\ u_passwordResetExpires u = Some e /\ now < e.

(** ** A concrete deployment

    Collaborators, configuration and store contents used to run the
    operations on explicit inputs. *)

Definition digit (n : nat) : string :=
  String (Ascii.ascii_of_nat (48 + n)) EmptyString.

Definition demo : Collaborators :=
  {| bcrypt_hash := fun password _ => "$2a$" +:+ password;
     bcrypt_compare := fun password hash =>
                         String.eqb hash ("$2a$" +:+ password);
     uuidv4 := fun n => "uuid-" +:+ digit n;
     newRowId := fun n => "user-" +:+ digit n;
     jwt_timespan := fun expiresIn =>
                       if String.eqb expiresIn "15m" then Some 900000
                       else if String.eqb expiresIn "7d" then Some 604800000
                       else None;
     jwt_expired := fun expiresIn iat now =>
                      if String.eqb expiresIn "15m"
                      then iat + 900000 <=? now
                      else iat + 604800000 <=? now |}.

Definition demo_config : ConfigService :=
  {| JWT_SECRET := Some "access-secret";
     JWT_REFRESH_SECRET := Some "refresh-secret";
     JWT_EXPIRES_IN := None;
     JWT_REFRESH_EXPIRES_IN := None;
     BCRYPT_ROUNDS := None |}.

Definition demo_service : AuthService :=
  {| jwtSecret := "access-secret";
     jwtRefreshSecret := "refresh-secret";
     jwtExpiresIn := "15m";
     jwtRefreshExpiresIn := "7d";
     configService := demo_config |}.

(** A deployment with one value for both secrets. *)
Definition shared_secret_config : ConfigService :=
  {| JWT_SECRET := Some "one-secret";
     JWT_REFRESH_SECRET := Some "one-secret";
     JWT_EXPIRES_IN := None;
     JWT_REFRESH_EXPIRES_IN := None;
     BCRYPT_ROUNDS := None |}.

Definition shared_secret_service : AuthService :=
  {| jwtSecret := "one-secret";
     jwtRefreshSecret := "one-secret";
     jwtExpiresIn := "15m";
     jwtRefreshExpiresIn := "7d";
     configService := shared_secret_config |}.

(** A deployment whose access lifetime is no time span. *)
Definition unreadable_lifetime_config : ConfigService :=
  {| JWT_SECRET := Some "access-secret";
     JWT_REFRESH_SECRET := Some "refresh-secret";
     JWT_EXPIRES_IN := Some "fifteen minutes";
     JWT_REFRESH_EXPIRES_IN := None;
     BCRYPT_ROUNDS := None |}.

Definition unreadable_lifetime_service : AuthService :=
  {| jwtSecret := "access-secret";
     jwtRefreshSecret := "refresh-secret";
     jwtExpiresIn := "fifteen minutes";
     jwtRefreshExpiresIn := "7d";
     configService := unreadable_lifetime_config |}.

(** A store that cannot be reached: the lookup rejects. *)
Definition store_unreachable (id : string) : M (option User) :=
  throw (PrismaClientKnownRequestError "P1001" "Cannot reach database server").

Definition perm (k : string) : RolePermission :=
  {| rp_permission := {| p_id := "perm-" +:+ k; p_key := k |} |}.

Definition subordinate : Role :=
  {| r_id := "role-sub"; r_name := "Subordinate";
     r_rolePermissions :=
       [perm "products:read"; perm "orders:read"; perm "products:read"] |}.

Definition manager : Role :=
  {| r_id := "role-mgr"; r_name := "Manager";
     r_rolePermissions := [perm "products:write"; perm "orders:write"] |}.

Definition alice : User :=
  {| u_id := "u-alice"; u_email := "alice@x.com"; u_name := "Alice";
     u_passwordHash := "$2a$Secret#1"; u_status := ACTIVE;
     u_roleId := "role-sub"; u_lastLoginAt := None;
     u_passwordResetToken := Some "tok-alice";
     u_passwordResetExpires := Some 1900000 |}.

Definition bob : User :=
  {| u_id := "u-bob"; u_email := "bob@x.com"; u_name := "Bob";
     u_passwordHash := "$2a$Secret#2"; u_status := INACTIVE;
     u_roleId := "role-mgr"; u_lastLoginAt := None;
     u_passwordResetToken := None;
     u_passwordResetExpires := None |}.

Definition demo_world : World :=
  {| users := [alice; bob]; roles := [subordinate; manager];
     securityLogs := []; auditLogs := []; loggerErrors := [];
     clock := 1000000; entropy := 0;
     securityLogDown := false; auditDown := false |}.

(** The reason recorded by the last row of the security log. *)
Definition last_logged_reason (w : World) : option (option string) :=
  sl_errorMessage <$> last (securityLogs w).

(** Alice after a move from the Subordinate to the Manager role. *)
Definition alice_promoted : User :=
  {| u_id := "u-alice"; u_email := "alice@x.com"; u_name := "Alice";
     u_passwordHash := "$2a$Secret#1"; u_status := ACTIVE;
     u_roleId := "role-mgr"; u_lastLoginAt := Some 400000;
     u_passwordResetToken := None;
     u_passwordResetExpires := None |}.

Definition promoted_world : World :=
  {| users := [alice_promoted; bob]; roles := [subordinate; manager];
     securityLogs := []; auditLogs := []; loggerErrors := [];
     clock := 1000000; entropy := 0;
     securityLogDown := false; auditDown := false |}.

(** The refresh token Alice got when she logged in at time 400000. *)
Definition alice_refresh_token : Token :=
  Signed (RefreshPayload "u-alice" "refresh")
         {| secret := "refresh-secret"; expiresIn := "7d" |}
         (registered_at 400000).

Definition alice_reset : ResetPasswordDto :=
  {| token := "tok-alice"; newPassword := "NewSecret#1" |}.

Definition carol_registration : RegisterDto :=
  {| reg_email := "carol@x.com"; reg_password := "Secret#3";
     reg_name := "Carol"; reg_roleId := None |}.

(** Another request registering the same email, committed while the
    first one is between its lookup and its insert. *)
Definition carol_row : User :=
  {| u_id := "u-carol"; u_email := "carol@x.com"; u_name := "Carol C.";
     u_passwordHash := "$2a$Other"; u_status := ACTIVE;
     u_roleId := "role-sub"; u_lastLoginAt := None;
     u_passwordResetToken := None; u_passwordResetExpires := None |}.

Definition concurrent_carol (w : World) : World :=
  set_users (users w ++ [carol_row]) w.

(** A deployment whose role table has no role named "Subordinate". *)
Definition no_default_role_world : World :=
  {| users := [alice; bob]; roles := [manager];
     securityLogs := []; auditLogs := []; loggerErrors := [];
     clock := 1000000; entropy := 0;
     securityLogDown := false; auditDown := false |}.

(** What [roleId || await this.getDefaultRoleId()] evaluates to. *)
Definition resolved_role (roleId : option string) (w : World)
  : option string :=
  if truthy roleId then roleId
  else r_id <$> find (fun r => String.eqb (r_name r) "Subordinate") (roles w).

(** The audit entry [register] writes for a created user. *)
Definition register_audit_entry (user : User) (r : Role)
    (ipAddress userAgent : option string) : AuditEntry :=
  {| a_entity := "User"; a_entityId := u_id user; a_action := "CREATE";
     a_actorUserId := u_id user; a_actorRole := r_name r;
     a_afterData := (u_email user, u_name user, u_roleId user);
     a_ipAddress := ipAddress; a_userAgent := userAgent |}.

(** The world after the insert and the success event of [register]. *)
Definition registered `{Collaborators} (this : AuthService)
    (dto : RegisterDto) (ip ua : option string)
    (rid : string) (w : World) : World :=
  let u := new_user (reg_email dto) (reg_name dto)
             (bcrypt_hash (reg_password dto)
                (default 12 (BCRYPT_ROUNDS (configService this)))) rid w in
  logSecurityEvent "REGISTER_SUCCESS" (Some (u_id u)) (Some (reg_email dto))
    ip ua None
    (set_users (users w ++ [u]) (set_entropy (S (entropy w)) w)).

(** The three secret fields are absent from an object. *)
Definition has_no_secrets (obj : gmap string JsValue) : Prop :=
  obj !! "passwordHash" = None
  /\ obj !! "passwordResetToken" = None
  /\ obj !! "passwordResetExpires" = None.

Definition alice_login : LoginDto :=
  {| login_email := "alice@x.com"; login_password := "Secret#1" |}.

(** Two worlds that differ at most in the security log, in what the
    Nest logger printed and in whether the security log can be
    written. *)
Definition same_but_security_log (w1 w2 : World) : Prop :=
  users w1 = users w2 /\ roles w1 = roles w2
  /\ auditLogs w1 = auditLogs w2 /\ clock w1 = clock w2
  /\ entropy w1 = entropy w2 /\ auditDown w1 = auditDown w2.

(** A computation whose result and whose effect outside the security
    log do not depend on the security log. *)
Definition contained {A} (m : M A) : Prop :=
  forall w1 w2, same_but_security_log w1 w2 ->
    fst (m w1) = fst (m w2)
    /\ same_but_security_log (snd (m w1)) (snd (m w2)).

(** The demo deployment with the security log out of order. *)
Definition security_log_down_world : World :=
  {| users := [alice; bob]; roles := [subordinate; manager];
     securityLogs := []; auditLogs := []; loggerErrors := [];
     clock := 1000000; entropy := 0;
     securityLogDown := true; auditDown := false |}.

(** The demo deployment with the audit store out of order. *)
Definition audit_down_world : World :=
  {| users := [alice; bob]; roles := [subordinate; manager];
     securityLogs := []; auditLogs := []; loggerErrors := [];
     clock := 1000000; entropy := 0;
     securityLogDown := false; auditDown := true |}.

(** No two users hold the same reset token. *)
Definition reset_tokens_unique (us : list User) : Prop :=
  forall tok, single_holder tok us.

(** [bcrypt.compare] accepts a password against its own [bcrypt.hash]. *)
Definition bcrypt_verifies `{Collaborators} : Prop :=
  forall password rounds,
    bcrypt_compare password (bcrypt_hash password rounds) = true.

(** What one call of the service may do to the world: the role table,
    the clock and the state of the two log stores are not touched; the
    security log and the audit trail grow at the end; the user table
    keeps its rows in place, each with its id and email, and grows at
    the end; ids and emails that were unique stay unique. *)
Definition service_step (w w' : World) : Prop :=
  roles w' = roles w
  /\ clock w' = clock w
  /\ securityLogDown w' = securityLogDown w
  /\ auditDown w' = auditDown w
  /\ (exists l, securityLogs w' = securityLogs w ++ l)
  /\ (exists l, auditLogs w' = auditLogs w ++ l)
  /\ (exists l, map u_id (users w') = map u_id (users w) ++ l)
  /\ (exists l, map u_email (users w') = map u_email (users w) ++ l)
  /\ (NoDup (map u_id (users w)) -> NoDup (map u_id (users w')))
  /\ (NoDup (map u_email (users w)) -> NoDup (map u_email (users w'))).

(** A computation all of whose runs are service steps. *)
Definition steps {A} (m : M A) : Prop :=
  forall w, service_step w (snd (m w)).

Definition alice_change : ChangePasswordDto :=
  {| currentPassword := "Secret#1"; cp_newPassword := "Better#1" |}.

(** The world [w] at clock time [now]. *)
Definition at_time (now : Z) (w : World) : World :=
  {| users := users w; roles := roles w; securityLogs := securityLogs w;
     auditLogs := auditLogs w; loggerErrors := loggerErrors w;
     clock := now; entropy := entropy w;
     securityLogDown := securityLogDown w; auditDown := auditDown w |}.

(** ** The web client

    The parts of the front end that decide something: the retry policy
    of the query client ([providers.tsx]), the two interceptors of the
    axios instance ([services/auth.service.ts]) and the session logic
    of [contexts/auth-context.tsx].  A call that goes over the network
    is a parameter: a computation on the browser state that resolves or
    rejects. *)

Module Client.

(** An outgoing request: the axios config, with the [_retry] mark the
    response interceptor puts on it. *)
Record Request := mkRequest {
  url : string;
  method : string;
  headers : gmap string string;
  data : gmap string string;
  _retry : bool
}.

Record Response := mkResponse {
  resp_status : Z;
  resp_body : string
}.

(** What a rejected call carries: an axios error with
    [error.response?.status], [error.response?.data?.message] and
    [error.config], or a plain [Error]. *)
Inductive ClientError :=
| AxiosError (status : option Z) (serverMessage : option string)
             (config : Request)
| PlainError (msg : string).

Definition error_status (e : ClientError) : option Z :=
  match e with AxiosError s _ _ => s | PlainError _ => None end.

Definition error_serverMessage (e : ClientError) : option string :=
  match e with AxiosError _ m _ => m | PlainError _ => None end.

Record TokenPair := mkTokenPair {
  accessToken : string;
  refreshToken : string
}.

(** The [AuthResponse] as it arrives: [user] and [tokens] may be
    missing. *)
Record AuthResponse := mkAuthResponse {
  user : option (gmap string JsValue);
  tokens : option TokenPair
}.

Inductive Toast :=
| toast_success (msg : string)
| toast_error (msg : string).

(** The browser: [localStorage], [window.location.href], the route the
    Next router was last pushed to, the state of the [AuthProvider],
    the toasts shown and the lines on the console. *)
Record Browser := mkBrowser {
  localStorage : gmap string string;
  href : string;
  route : string;
  authUser : option (gmap string JsValue);
  loading : bool;
  toasts : list Toast;
  console : list string
}.

Definition with_storage (s : gmap string string) (b : Browser) : Browser :=
  {| localStorage := s; href := href b; route := route b;
     authUser := authUser b; loading := loading b; toasts := toasts b;
     console := console b |}.

Definition setItem (k v : string) (b : Browser) : Browser :=
  with_storage (<[k := v]> (localStorage b)) b.

Definition removeItem (k : string) (b : Browser) : Browser :=
  with_storage (delete k (localStorage b)) b.

Definition getItem (k : string) (b : Browser) : option string :=
  localStorage b !! k.

Definition set_href (h : string) (b : Browser) : Browser :=
  {| localStorage := localStorage b; href := h; route := route b;
     authUser := authUser b; loading := loading b; toasts := toasts b;
     console := console b |}.

Definition router_push (p : string) (b : Browser) : Browser :=
  {| localStorage := localStorage b; href := href b; route := p;
     authUser := authUser b; loading := loading b; toasts := toasts b;
     console := console b |}.

Definition setUser (u : option (gmap string JsValue)) (b : Browser)
  : Browser :=
  {| localStorage := localStorage b; href := href b; route := route b;
     authUser := u; loading := loading b; toasts := toasts b;
     console := console b |}.

Definition setLoading (l : bool) (b : Browser) : Browser :=
  {| localStorage := localStorage b; href := href b; route := route b;
     authUser := authUser b; loading := l; toasts := toasts b;
     console := console b |}.

Definition toast (t : Toast) (b : Browser) : Browser :=
  {| localStorage := localStorage b; href := href b; route := route b;
     authUser := authUser b; loading := loading b;
     toasts := toasts b ++ [t]; console := console b |}.

Definition console_error (line : string) (b : Browser) : Browser :=
  {| localStorage := localStorage b; href := href b; route := route b;
     authUser := authUser b; loading := loading b; toasts := toasts b;
     console := console b ++ [line] |}.

Inductive Outcome (A : Type) :=
| Resolved (a : A)
| Rejected (e : ClientError).
Arguments Resolved {A} a.
Arguments Rejected {A} e.

(** An awaited call. *)
Definition Call (A : Type) : Type := Browser -> Outcome A * Browser.

(** *** [providers.tsx]: the retry policy of queries *)

Definition status_ge (s : option Z) (n : Z) : bool :=
  match s with Some v => n <=? v | None => false end.

Definition status_lt (s : option Z) (n : Z) : bool :=
  match s with Some v => v <? n | None => false end.

Definition includes_status (l : list Z) (s : option Z) : bool :=
  match s with Some v => existsb (Z.eqb v) l | None => false end.

(** [retry: (failureCount, error) => ...]; [status] is
    [error?.status]. *)
Definition retry (failureCount : Z) (status : option Z) : bool :=
  if status_ge status 400 && status_lt status 500
     && negb (includes_status [408; 429] status)
  then false
  else failureCount <? 3.

(** *** [services/auth.service.ts]: the interceptors *)

(** The request interceptor. *)
Definition requestInterceptor (config : Request) (b : Browser) : Request :=
  let token := getItem "accessToken" b in
  if truthy token
  then {| url := url config; method := method config;
          headers := <["Authorization" := "Bearer " +:+ default "" token]>
                       (headers config);
          data := data config; _retry := _retry config |}
  else config.

Definition mark_retry (r : Request) : Request :=
  {| url := url r; method := method r; headers := headers r;
     data := data r; _retry := true |}.

Definition set_authorization (v : string) (r : Request) : Request :=
  {| url := url r; method := method r;
     headers := <["Authorization" := v]> (headers r);
     data := data r; _retry := _retry r |}.

Definition is_401 (e : ClientError) : bool :=
  match error_status e with Some s => s =? 401 | None => false end.

(** The error handler of the response interceptor.  [refreshCall] is
    [authService.refreshToken] and [resend] is [apiClient] applied to
    the original request; the promise of the re-sent request is
    returned without [await], so its rejection is not caught by the
    [try].  [originalRequest] is [error.config] itself: once
    [_retry] is set on it, the error carries the marked request. *)
Definition responseErrorHandler
    (refreshCall : string -> Call TokenPair)
    (resend : Request -> Call Response)
    (error : ClientError) : Call Response :=
  fun b =>
    match error with
    | AxiosError status serverMessage originalRequest =>
        if is_401 error && negb (_retry originalRequest)
        then
          let originalRequest := mark_retry originalRequest in
          let error := AxiosError status serverMessage originalRequest in
          let stored := getItem "refreshToken" b in
          if truthy stored
          then
            match refreshCall (default "" stored) b with
            | (Resolved tokens, b1) =>
                let b2 := setItem "refreshToken" (refreshToken tokens)
                            (setItem "accessToken" (accessToken tokens) b1) in
                resend (set_authorization
                          ("Bearer " +:+ accessToken tokens) originalRequest)
                       b2
            | (Rejected refreshError, b1) =>
                (Rejected refreshError,
                 set_href "/auth/login"
                   (removeItem "refreshToken"
                      (removeItem "accessToken" b1)))
            end
          else (Rejected error, b)
        else (Rejected error, b)
    | PlainError _ => (Rejected error, b)
    end.

(** *** [contexts/auth-context.tsx] *)

(** [user?.permissions?.includes(permission) || false]; by its type
    [permissions] is an array of strings. *)
Definition hasPermission (user : option (gmap string JsValue))
    (permission : string) : bool :=
  match user with
  | Some u =>
      match u !! "permissions" with
      | Some (JStrings l) => existsb (String.eqb permission) l
      | _ => false
      end
  | None => false
  end.

(** [user?.role?.name === role] *)
Definition hasRole (user : option (gmap string JsValue)) (role : string)
  : bool :=
  match user with
  | Some u =>
      match u !! "role" with
      | Some (JRole r) => String.eqb (r_name r) role
      | _ => false
      end
  | None => false
  end.

(** [getRedirectPath] *)
Definition getRedirectPath (roleName : string) : string :=
  if String.eqb roleName "Super Admin" then "/dashboard"
  else if String.eqb roleName "Admin" then "/dashboard"
  else if String.eqb roleName "Subordinate" then "/dashboard"
  else "/dashboard".

(** [response.user.role.name], when the response has a user with a
    role. *)
Definition role_name_of (u : gmap string JsValue) : option string :=
  match u !! "role" with
  | Some (JRole r) => Some (r_name r)
  | _ => None
  end.

(** What the [try] block of [login] and [register] does with a
    response; a user without a role makes [response.user.role.name] a
    [TypeError]. *)
Definition accept_response (greeting : string) (response : AuthResponse)
  : Call unit :=
  fun b =>
    match user response, tokens response with
    | Some u, Some t =>
        let b1 := setItem "refreshToken" (refreshToken t)
                    (setItem "accessToken" (accessToken t)
                       (setUser (Some u) b)) in
        let b2 := toast (toast_success greeting) b1 in
        match role_name_of u with
        | Some roleName =>
            (Resolved tt, router_push (getRedirectPath roleName) b2)
        | None =>
            (Rejected (PlainError "Cannot read properties of undefined"), b2)
        end
    | _, _ => (Resolved tt, b)
    end.

(** [error.response?.data?.message || fallback] *)
Definition message_or (fallback : string) (e : ClientError) : string :=
  if truthy (error_serverMessage e)
  then default "" (error_serverMessage e)
  else fallback.

(** The shape shared by [login] and [register] of the context. *)
Definition submit (greeting fallback : string) (api : Call AuthResponse)
  : Call unit :=
  fun b =>
    let b0 := setLoading true b in
    match api b0 with
    | (Resolved response, b1) =>
        match accept_response greeting response b1 with
        | (Resolved tt, b2) => (Resolved tt, setLoading false b2)
        | (Rejected e, b2) =>
            (Rejected e,
             setLoading false (toast (toast_error (message_or fallback e)) b2))
        end
    | (Rejected e, b1) =>
        (Rejected e,
         setLoading false (toast (toast_error (message_or fallback e)) b1))
    end.

Definition login (api_login : Call AuthResponse) : Call unit :=
  submit "Login successful" "Login failed" api_login.

Definition register (api_register : Call AuthResponse) : Call unit :=
  submit "Registration successful" "Registration failed" api_register.

(** [logout] of the context: the [finally] block runs whatever the API
    call did. *)
Definition logout (api_logout : Call unit) : Call unit :=
  fun b =>
    let b1 := match api_logout b with
              | (Resolved _, b1) => b1
              | (Rejected _, b1) => console_error "Logout API call failed:" b1
              end in
    (Resolved tt,
     router_push "/auth/login"
       (toast (toast_success "Logged out successfully")
          (removeItem "refreshToken"
             (removeItem "accessToken" (setUser None b1))))).

(** [refreshToken] of the context. *)
Definition refreshSession (api_refresh : string -> Call TokenPair)
    (api_me : Call (gmap string JsValue)) (api_logout : Call unit)
  : Call unit :=
  fun b =>
    let failed b' := logout api_logout (console_error "Token refresh failed:" b') in
    let stored := getItem "refreshToken" b in
    if negb (truthy stored) then failed b
    else
      match api_refresh (default "" stored) b with
      | (Rejected _, b1) => failed b1
      | (Resolved t, b1) =>
          let b2 := setItem "refreshToken" (refreshToken t)
                      (setItem "accessToken" (accessToken t) b1) in
          match api_me b2 with
          | (Rejected _, b3) => failed b3
          | (Resolved userInfo, b3) => (Resolved tt, setUser (Some userInfo) b3)
          end
      end.

(** [initializeAuth], the effect that runs once when the provider
    mounts.  Inside it [refreshToken] is the constant holding the string
    read from the storage, which shadows the function of the context:
    on a 401 the call [refreshToken()] raises a [TypeError] before
    anything is sent, and the handler around it removes both tokens. *)
Definition initializeAuth (api_me : Call (gmap string JsValue)) : Call unit :=
  fun b =>
    let b' :=
      if truthy (getItem "accessToken" b) && truthy (getItem "refreshToken" b)
      then
        match api_me b with
        | (Resolved userInfo, b1) => setUser (Some userInfo) b1
        | (Rejected error, b1) =>
            if is_401 error
            then removeItem "refreshToken" (removeItem "accessToken" b1)
            else removeItem "refreshToken" (removeItem "accessToken" b1)
        end
      else b in
    (Resolved tt, setLoading false b').

(** What the effect of [withAuth] does. *)
Inductive GuardAction :=
| GoToLogin
| DeniedRole
| DeniedPermissions
| Stay.

(** The effect of the component [withAuth] returns;
    [requiredPermissions] and [requiredRole] are optional
    parameters. *)
Definition guard_effect (requiredPermissions : option (list string))
    (requiredRole : option string) (loading : bool)
    (user : option (gmap string JsValue)) : GuardAction :=
  match user with
  | None => if negb loading then GoToLogin else Stay
  | Some _ =>
      if truthy requiredRole && negb (hasRole user (default "" requiredRole))
      then DeniedRole
      else match requiredPermissions with
           | Some ps =>
               if negb (forallb (hasPermission user) ps)
               then DeniedPermissions
               else Stay
           | None => Stay
           end
  end.

Inductive Rendered :=
| Spinner
| Nothing
| Wrapped.

(** What that component renders. *)
Definition guard_render (loading : bool)
    (user : option (gmap string JsValue)) : Rendered :=
  if loading then Spinner
  else match user with
       | None => Nothing
       | Some _ => Wrapped
       end.

End Client.

(** ** A concrete browser *)

Definition products_request : Client.Request :=
  {| Client.url := "/products"; Client.method := "GET";
     Client.headers := ∅; Client.data := ∅; Client._retry := false |}.

Definition signed_in_browser : Client.Browser :=
  {| Client.localStorage :=
       <["refreshToken" := "old-refresh"]>
         (<["accessToken" := "old-access"]> (<["theme" := "dark"]> ∅));
     Client.href := "/products"; Client.route := "/products";
     Client.authUser := None; Client.loading := false;
     Client.toasts := []; Client.console := [] |}.

Definition expired_401 : Client.ClientError :=
  Client.AxiosError (Some 401) (Some "Unauthorized") products_request.

Definition refresh_granted : string -> Client.Call Client.TokenPair :=
  fun _ b => (Client.Resolved {| Client.accessToken := "new-access";
                                 Client.refreshToken := "new-refresh" |}, b).

Definition refresh_refused : string -> Client.Call Client.TokenPair :=
  fun _ b => (Client.Rejected (Client.PlainError "Network Error"), b).

Definition resend_ok : Client.Request -> Client.Call Client.Response :=
  fun _ b => (Client.Resolved {| Client.resp_status := 200;
                                 Client.resp_body := "[]" |}, b).

Definition api_down {A} : Client.Call A :=
  fun b => (Client.Rejected (Client.PlainError "Network Error"), b).

(** The API answers 401. *)
Definition api_unauthorized {A} : Client.Call A :=
  fun b => (Client.Rejected expired_401, b).

(** A browser that holds an access token and no refresh token. *)
Definition half_signed_in_browser : Client.Browser :=
  {| Client.localStorage :=
       <["accessToken" := "old-access"]> (<["theme" := "dark"]> ∅);
     Client.href := "/products"; Client.route := "/products";
     Client.authUser := None; Client.loading := false;
     Client.toasts := []; Client.console := [] |}.

Definition manager_object : gmap string JsValue :=
  <["permissions" := JStrings ["products:write"; "orders:write"]]>
    (<["role" := JRole manager]> (<["id" := JString "u-mgr"]> ∅)).

Definition api_login_ok : Client.Call Client.AuthResponse :=
  fun b => (Client.Resolved
              {| Client.user := Some manager_object;
                 Client.tokens :=
                   Some {| Client.accessToken := "new-access";
                           Client.refreshToken := "new-refresh" |} |}, b).

(** * Properties *)

(** ** Shared facts *)

Section Basics.

Context {C : Collaborators}.

Lemma UserStatus_eqb_eq a b : UserStatus_eqb a b = true <-> a = b.
Proof. destruct a, b; simpl; split; congruence. Qed.

Lemma UserStatus_eqb_neq a b : UserStatus_eqb a b = false <-> a <> b.
Proof. destruct a, b; simpl; split; congruence. Qed.

Lemma by_id_refl u : by_id (u_id u) u = true.
Proof. unfold by_id. apply String.eqb_refl. Qed.

Lemma find_all_false {A} (f : A -> bool) (l : list A) :
  (forall x, In x l -> f x = false) -> find f l = None.
Proof.
  intros Hall. destruct (find f l) as [x|] eqn:Hfind; [|reflexivity].
  apply find_some in Hfind as [Hin Hfx]. rewrite (Hall x Hin) in Hfx.
  discriminate.
Qed.

Lemma find_exists {A} (f : A -> bool) (l : list A) x :
  In x l -> f x = true -> exists y, find f l = Some y.
Proof.
  intros Hin Hfx. destruct (find f l) as [y|] eqn:Hfind; [eauto|].
  rewrite (find_none f l Hfind x Hin) in Hfx. discriminate.
Qed.

Lemma found_exists_by_id (f : User -> bool) us u :
  find f us = Some u -> existsb (by_id (u_id u)) us = true.
Proof.
  intros Hfind. apply find_some in Hfind as [Hin _].
  apply existsb_exists. exists u. split; [exact Hin | apply by_id_refl].
Qed.

Lemma in_update_rows id f us v :
  In v (update_rows id f us) <->
  exists v0, In v0 us /\ v = (if by_id id v0 then f v0 else v0).
Proof.
  unfold update_rows. rewrite in_map_iff. split.
  - intros (v0 & Hv & Hin). exists v0. split; [exact Hin | symmetry; exact Hv].
  - intros (v0 & Hin & Hv). exists v0. split; [symmetry; exact Hv | exact Hin].
Qed.

Lemma bind_Ok {A B} (m : M A) (k : A -> M B) w b :
  fst (bind m k w) = Ok b ->
  exists a w', m w = (Ok a, w') /\ fst (k a w') = Ok b.
Proof.
  unfold bind. destruct (m w) as [[a|e] w']; [eauto | discriminate].
Qed.

Lemma try_catch_Ok {A} (m : M A) (handler : Exception -> M A) w a :
  (forall e w', fst (handler e w') <> Ok a) ->
  fst (try_catch m handler w) = Ok a ->
  fst (m w) = Ok a.
Proof.
  unfold try_catch. intros Hhandler.
  destruct (m w) as [[a'|e] w']; [auto|]. intros H.
  destruct (Hhandler e w' H).
Qed.

Lemma logSecurityEvent_users ev uid em ip ua err w :
  users (logSecurityEvent ev uid em ip ua err w) = users w.
Proof. unfold logSecurityEvent. destruct (securityLogDown w); reflexivity. Qed.

Lemma logSecurityEvent_roles ev uid em ip ua err w :
  roles (logSecurityEvent ev uid em ip ua err w) = roles w.
Proof. unfold logSecurityEvent. destruct (securityLogDown w); reflexivity. Qed.

Lemma logSecurityEvent_reason ev uid em ip ua err w :
  securityLogDown w = false ->
  last_logged_reason (logSecurityEvent ev uid em ip ua err w) = Some err.
Proof.
  intros Hup. unfold last_logged_reason, logSecurityEvent. rewrite Hup.
  simpl. rewrite last_snoc. reflexivity.
Qed.

End Basics.

(** ** Login failures *)

Section LoginFailure.

Context {C : Collaborators}.
Variable this : AuthService.

(** C1 (as amended): a login with an unknown email, and a login with a
    wrong password for a stored user whose status is ACTIVE, both fail
    with Unauthorized "Invalid credentials"; the reason handed to the
    security log is "User not found" in the first case and "Invalid
    password" in the second, and it is the reason of the last log row
    whenever the log write succeeds. *)
Theorem login_invalid_credentials_uniform w dto ip ua :
  (find (by_email (login_email dto)) (users w) = None ->
   login this dto ip ua w
     = (Throw (UnauthorizedException "Invalid credentials"),
        logSecurityEvent "LOGIN_FAILED" None (Some (login_email dto))
          ip ua (Some "User not found") w)
   /\ (securityLogDown w = false ->
       last_logged_reason (snd (login this dto ip ua w))
         = Some (Some "User not found")))
  /\
  (forall u,
     find (by_email (login_email dto)) (users w) = Some u ->
     u_status u = ACTIVE ->
     bcrypt_compare (login_password dto) (u_passwordHash u) = false ->
     login this dto ip ua w
       = (Throw (UnauthorizedException "Invalid credentials"),
          logSecurityEvent "LOGIN_FAILED" (Some (u_id u))
            (Some (login_email dto)) ip ua (Some "Invalid password") w)
     /\ (securityLogDown w = false ->
         last_logged_reason (snd (login this dto ip ua w))
           = Some (Some "Invalid password"))).
Proof.
  split.
  - intros Hnone.
    assert (Hrun : login this dto ip ua w
      = (Throw (UnauthorizedException "Invalid credentials"),
         logSecurityEvent "LOGIN_FAILED" None (Some (login_email dto))
           ip ua (Some "User not found") w)).
    { unfold login, try_catch, bind, user_findUnique_email_include, gets.
      simpl. rewrite Hnone. reflexivity. }
    split; [exact Hrun|]. intros Hup. rewrite Hrun. simpl.
    apply logSecurityEvent_reason, Hup.
  - intros u Hsome Hactive Hcmp.
    assert (Hrun : login this dto ip ua w
      = (Throw (UnauthorizedException "Invalid credentials"),
         logSecurityEvent "LOGIN_FAILED" (Some (u_id u))
           (Some (login_email dto)) ip ua (Some "Invalid password") w)).
    { unfold login, try_catch, bind, user_findUnique_email_include, gets.
      simpl. rewrite Hsome. simpl. rewrite Hactive, Hcmp. reflexivity. }
    split; [exact Hrun|]. intros Hup. rewrite Hrun. simpl.
    apply logSecurityEvent_reason, Hup.
Qed.

End LoginFailure.

(** Carol is unknown and Alice, who is ACTIVE, gives a wrong password:
    the same error for both. *)
Lemma login_invalid_credentials_uniform_witness :
  fst (login (C:=demo) demo_service
         {| login_email := "carol@x.com"; login_password := "Secret#1" |}
         None None demo_world)
    = Throw (UnauthorizedException "Invalid credentials")
  /\ fst (login (C:=demo) demo_service
            {| login_email := "alice@x.com"; login_password := "Wrong" |}
            None None demo_world)
       = Throw (UnauthorizedException "Invalid credentials").
Proof.
  split.
  - rewrite (proj1 (proj1 (login_invalid_credentials_uniform (C:=demo)
               demo_service demo_world
               {| login_email := "carol@x.com"; login_password := "Secret#1" |}
               None None) eq_refl)).
    reflexivity.
  - rewrite (proj1 (proj2 (login_invalid_credentials_uniform (C:=demo)
               demo_service demo_world
               {| login_email := "alice@x.com"; login_password := "Wrong" |}
               None None) alice eq_refl eq_refl eq_refl)).
    reflexivity.
Defined.

(** C1 as stated fails for a stored user who is not ACTIVE: the status
    is checked before the password, and the message differs. *)
Lemma login_inactive_user_wrong_password :
  find (by_email "bob@x.com") (users demo_world) = Some bob
  /\ bcrypt_compare (Collaborators:=demo) "Wrong" (u_passwordHash bob) = false
  /\ fst (login (C:=demo) demo_service
            {| login_email := "bob@x.com"; login_password := "Wrong" |}
            None None demo_world)
       = Throw (UnauthorizedException "Account is inactive")
  /\ fst (login (C:=demo) demo_service
            {| login_email := "bob@x.com"; login_password := "Wrong" |}
            None None demo_world)
       <> Throw (UnauthorizedException "Invalid credentials").
Proof.
  split; [reflexivity|]. split; [reflexivity|]. split; [reflexivity|].
  vm_compute. discriminate.
Qed.

(** ** Password reset *)

Section ResetPassword.

Context {C : Collaborators}.
Variable this : AuthService.

Lemma reset_filter_true tok now u :
  reset_filter tok now u = true <->
  u_passwordResetToken u = Some tok
  /\ exists e, u_passwordResetExpires u = Some e /\ now < e.
Proof.
  unfold reset_filter.
  destruct (u_passwordResetToken u) as [t|], (u_passwordResetExpires u) as [e|];
    simpl; split.
  - intros H. apply andb_true_iff in H as [Ht He].
    apply String.eqb_eq in Ht. apply Z.ltb_lt in He. subst t. eauto.
  - intros [Ht (e' & He & Hlt)]. injection Ht as ->. injection He as ->.
    rewrite String.eqb_refl. simpl. apply Z.ltb_lt, Hlt.
  - discriminate.
  - intros [_ (e' & He & _)]. discriminate.
  - discriminate.
  - intros [Ht _]. discriminate.
  - discriminate.
  - intros [Ht _]. discriminate.
Qed.

Lemma reset_filter_cleared tok now h u :
  reset_filter tok now (set_password_clear_reset h u) = false.
Proof. reflexivity. Qed.

Lemma find_reset_iff tok now us :
  (exists u, find (reset_filter tok now) us = Some u)
  <-> holds_live_token tok now us.
Proof.
  split.
  - intros [u Hfind]. apply find_some in Hfind as [Hin Hf].
    apply reset_filter_true in Hf as [Ht (e & He & Hlt)].
    exists u, e. auto.
  - intros (u & e & Hin & Ht & He & Hlt).
    apply (find_exists _ _ u Hin). apply reset_filter_true. eauto.
Qed.

(** What a run of [resetPassword] does, by the outcome of the lookup. *)
Lemma resetPassword_run dto w :
  match find (reset_filter (token dto) (clock w)) (users w) with
  | None =>
      resetPassword this dto w
        = (Throw (BadRequestException "Invalid or expired reset token"), w)
  | Some u =>
      resetPassword this dto w
        = (Ok {| message := "Password reset successful" |},
           logSecurityEvent "PASSWORD_RESET_SUCCESS" (Some (u_id u))
             (Some (u_email u)) None None None
             (set_users
                (update_rows (u_id u)
                   (set_password_clear_reset
                      (bcrypt_hash (newPassword dto)
                         (default 12 (BCRYPT_ROUNDS (configService this)))))
                   (users w)) w))
  end.
Proof.
  unfold resetPassword, bind, user_findFirst_reset, gets. simpl.
  destruct (find _ (users w)) as [u|] eqn:Hfind; [|reflexivity].
  unfold user_update. rewrite (found_exists_by_id _ _ _ Hfind). reflexivity.
Qed.

(** C2: [resetPassword] succeeds exactly when some user holds the given
    token with an expiry strictly after now, and fails with BadRequest
    "Invalid or expired reset token", changing nothing, otherwise.  On
    success one update stores the new hash on the holder and nulls both
    its token and its expiry, so no row with the holder's id matches
    the token any more; with the token held by a single user, a second
    call with the same token is rejected, whatever the time and the new
    password. *)
Theorem resetPassword_consumes_token dto w :
  ((exists m, fst (resetPassword this dto w) = Ok m)
   <-> holds_live_token (token dto) (clock w) (users w))
  /\ (~ holds_live_token (token dto) (clock w) (users w) ->
      resetPassword this dto w
        = (Throw (BadRequestException "Invalid or expired reset token"), w))
  /\ (forall m, fst (resetPassword this dto w) = Ok m ->
      exists u,
        find (reset_filter (token dto) (clock w)) (users w) = Some u
        /\ users (snd (resetPassword this dto w))
           = update_rows (u_id u)
               (set_password_clear_reset
                  (bcrypt_hash (newPassword dto)
                     (default 12 (BCRYPT_ROUNDS (configService this)))))
               (users w)
        /\ (forall v, In v (users (snd (resetPassword this dto w))) ->
            u_id v = u_id u ->
            u_passwordHash v
              = bcrypt_hash (newPassword dto)
                  (default 12 (BCRYPT_ROUNDS (configService this)))
            /\ u_passwordResetToken v = None
            /\ u_passwordResetExpires v = None)
        /\ (single_holder (token dto) (users w) ->
            forall dto' w2,
              token dto' = token dto ->
              users w2 = users (snd (resetPassword this dto w)) ->
              resetPassword this dto' w2
                = (Throw (BadRequestException
                            "Invalid or expired reset token"), w2))).
Proof.
  pose proof (resetPassword_run dto w) as Hrun.
  pose proof (find_reset_iff (token dto) (clock w) (users w)) as Hiff.
  destruct (find (reset_filter (token dto) (clock w)) (users w))
    as [u|] eqn:Hfind.
  - (* the lookup finds a holder *)
    split; [|split].
    + rewrite Hrun. simpl. split; [intros _; apply Hiff; eauto | eauto].
    + intros Hno. exfalso. apply Hno, Hiff. eauto.
    + intros m _. exists u. rewrite Hrun. simpl.
      rewrite logSecurityEvent_users. simpl.
      split; [reflexivity|]. split; [reflexivity|]. split.
      * intros v Hin Hid. apply in_update_rows in Hin as (v0 & Hin0 & ->).
        destruct (by_id (u_id u) v0) eqn:Hby.
        -- simpl. auto.
        -- unfold by_id in Hby. apply String.eqb_neq in Hby. congruence.
      * intros Hsingle dto' w2 Htok Husers.
        pose proof (resetPassword_run dto' w2) as Hrun2.
        rewrite find_all_false in Hrun2; [exact Hrun2|].
        intros v Hin. rewrite Husers in Hin.
        apply in_update_rows in Hin as (v0 & Hin0 & ->).
        destruct (by_id (u_id u) v0) eqn:Hby; [apply reset_filter_cleared|].
        destruct (reset_filter (token dto') (clock w2) v0) eqn:Hf;
          [|reflexivity].
        apply reset_filter_true in Hf as [Ht _]. rewrite Htok in Ht.
        apply find_some in Hfind as [Hinu Hfu].
        apply reset_filter_true in Hfu as [Htu _].
        pose proof (Hsingle v0 u Hin0 Hinu Ht Htu) as Hid.
        unfold by_id in Hby. rewrite Hid, String.eqb_refl in Hby.
        discriminate.
  - (* nobody holds a live token *)
    split; [|split].
    + rewrite Hrun. simpl. split.
      * intros [m Hm]. discriminate.
      * intros Hlive. apply Hiff in Hlive as [u Hu]. discriminate.
    + intros _. exact Hrun.
    + intros m Hm. rewrite Hrun in Hm. discriminate.
Qed.

End ResetPassword.

(** Alice's pending token works once and is refused the second time. *)
Lemma resetPassword_consumes_token_witness :
  fst (resetPassword (C:=demo) demo_service alice_reset demo_world)
    = Ok {| message := "Password reset successful" |}
  /\ fst (resetPassword (C:=demo) demo_service alice_reset
            (snd (resetPassword (C:=demo) demo_service alice_reset demo_world)))
     = Throw (BadRequestException "Invalid or expired reset token").
Proof.
  split; [reflexivity|].
  destruct (resetPassword_consumes_token (C:=demo) demo_service
              alice_reset demo_world) as (_ & _ & Hsuccess).
  destruct (Hsuccess {| message := "Password reset successful" |} eq_refl)
    as (u & _ & _ & _ & Hsecond).
  rewrite (Hsecond
             ltac:(intros a b [<-|[<-|[]]] [<-|[<-|[]]]; simpl;
                   intros; (reflexivity || discriminate))
             alice_reset
             (snd (resetPassword (C:=demo) demo_service alice_reset demo_world))
             eq_refl eq_refl).
  reflexivity.
Defined.

(** ** Token refresh *)

Section RefreshToken.

Context {C : Collaborators}.
Variable this : AuthService.

Lemma jwt_verify_world tok sec w : snd (jwt_verify tok sec w) = w.
Proof.
  unfold jwt_verify. destruct tok as [p o iat|raw]; [|reflexivity].
  destruct (negb _); [reflexivity|]. destruct (jwt_expired _ _ _); reflexivity.
Qed.

Lemma jwt_verify_ok tok sec w payload :
  fst (jwt_verify tok sec w) = Ok payload ->
  jwt_verify tok sec w = (Ok payload, w).
Proof.
  intros Hfst. pose proof (jwt_verify_world tok sec w) as Hsnd.
  destruct (jwt_verify tok sec w) as [r w']. simpl in *. congruence.
Qed.

Lemma jwt_sign_run payload options w :
  is_Some (jwt_timespan (expiresIn options)) ->
  jwt_sign payload options w
    = (Ok (Signed payload options (registered_at (clock w))), w).
Proof. intros [ms Hms]. unfold jwt_sign. rewrite Hms. reflexivity. Qed.

Lemma jwt_sign_world payload options w :
  snd (jwt_sign payload options w) = w.
Proof. unfold jwt_sign. destruct (jwt_timespan _); reflexivity. Qed.

Lemma generateTokenPair_world user w :
  snd (generateTokenPair this user w) = w.
Proof.
  unfold generateTokenPair, bind, jwt_sign.
  destruct (role user) as [r|]; [|reflexivity]. simpl.
  destruct (jwt_timespan (jwtExpiresIn this)); simpl; [|reflexivity].
  destruct (jwt_timespan (jwtRefreshExpiresIn this)); reflexivity.
Qed.

(** A pair is issued only to a user with a role and only when the codec
    reads both lifetimes. *)
Lemma generateTokenPair_Ok_inv user w pair :
  fst (generateTokenPair this user w) = Ok pair ->
  codec_accepts this /\ exists r, role user = Some r.
Proof.
  unfold generateTokenPair, bind, jwt_sign, codec_accepts.
  destruct (role user) as [r|]; [|discriminate]. simpl.
  destruct (jwt_timespan (jwtExpiresIn this)); simpl; [|discriminate].
  destruct (jwt_timespan (jwtRefreshExpiresIn this)); simpl; [|discriminate].
  intros _. repeat split; eauto.
Qed.

Lemma generateTokenPair_run user r w :
  codec_accepts this ->
  role user = Some r ->
  generateTokenPair this user w
    = (Ok {| accessToken :=
               Signed (AccessPayload (u_id (row user)) (u_email (row user))
                         (r_name r) (permission_keys r))
                      {| secret := jwtSecret this;
                         expiresIn := jwtExpiresIn this |}
                      (registered_at (clock w));
             refreshToken_of :=
               Signed (RefreshPayload (u_id (row user)) "refresh")
                      {| secret := jwtRefreshSecret this;
                         expiresIn := jwtRefreshExpiresIn this |}
                      (registered_at (clock w));
             tp_expiresIn := jwtExpiresIn this |}, w).
Proof.
  intros [Haccess Hrefresh] Hrole. unfold generateTokenPair, bind.
  rewrite Hrole, jwt_sign_run by exact Haccess.
  rewrite jwt_sign_run by exact Hrefresh. reflexivity.
Qed.

(** A token that does not verify against the refresh secret is refused
    with the same error. *)
Lemma refreshToken_unverified tok e w :
  fst (jwt_verify tok (jwtRefreshSecret this) w) = Throw e ->
  refreshToken this tok w
    = (Throw (UnauthorizedException "Invalid refresh token"), w).
Proof.
  intros Hverify. pose proof (jwt_verify_world tok (jwtRefreshSecret this) w)
    as Hworld.
  unfold refreshToken, try_catch, bind.
  destruct (jwt_verify tok (jwtRefreshSecret this) w) as [[p|e'] w'];
    simpl in *; [discriminate|]. subst w'. reflexivity.
Qed.

(** C3: [refreshToken] takes only the subject id from the verified
    token and loads that user, with role and permissions, from the
    store: two verified tokens with the same subject give the same
    outcome whatever else they claim.  A missing user or a status other
    than ACTIVE gives Unauthorized "Invalid refresh token"; otherwise
    the new access token carries the name and the permission keys of
    the role the user has in the store now (the codec reading both
    configured lifetimes). *)
Theorem refreshToken_reloads_user tok payload w :
  codec_accepts this ->
  fst (jwt_verify tok (jwtRefreshSecret this) w) = Ok payload ->
  (forall tok' payload',
     fst (jwt_verify tok' (jwtRefreshSecret this) w) = Ok payload' ->
     payload_sub payload' = payload_sub payload ->
     refreshToken this tok' w = refreshToken this tok w)
  /\ (find (by_id (payload_sub payload)) (users w) = None ->
      refreshToken this tok w
        = (Throw (UnauthorizedException "Invalid refresh token"), w))
  /\ (forall u,
        find (by_id (payload_sub payload)) (users w) = Some u ->
        (u_status u <> ACTIVE ->
         refreshToken this tok w
           = (Throw (UnauthorizedException "Invalid refresh token"), w))
        /\ (u_status u = ACTIVE ->
            forall r,
              find (role_by_id (u_roleId u)) (roles w) = Some r ->
              exists pair,
                refreshToken this tok w = (Ok pair, w)
                /\ accessToken pair
                   = Signed (AccessPayload (u_id u) (u_email u) (r_name r)
                               (permission_keys r))
                            {| secret := jwtSecret this;
                               expiresIn := jwtExpiresIn this |}
                            (registered_at (clock w)))).
Proof.
  intros Hcodec Hverify.
  pose proof (jwt_verify_ok _ _ _ _ Hverify) as Hv.
  split; [|split].
  - intros tok' payload' Hverify' Hsub.
    pose proof (jwt_verify_ok _ _ _ _ Hverify') as Hv'.
    unfold refreshToken, try_catch, bind. rewrite Hv, Hv', Hsub. reflexivity.
  - intros Hnone.
    unfold refreshToken, try_catch, bind, user_findUnique_id_include, gets.
    rewrite Hv. simpl. rewrite Hnone. reflexivity.
  - intros u Hsome. split.
    + intros Hstatus. apply UserStatus_eqb_neq in Hstatus.
      unfold refreshToken, try_catch, bind, user_findUnique_id_include, gets.
      rewrite Hv. simpl. rewrite Hsome. simpl. rewrite Hstatus. reflexivity.
    + intros Hstatus r Hrole. eexists. split.
      * unfold refreshToken, try_catch, bind, user_findUnique_id_include, gets.
        rewrite Hv. simpl. rewrite Hsome. simpl. rewrite Hstatus. simpl.
        rewrite (generateTokenPair_run _ r);
          [reflexivity | exact Hcodec | exact Hrole].
      * reflexivity.
Qed.

End RefreshToken.

Lemma demo_codec_accepts : codec_accepts (H:=demo) demo_service.
Proof. split; eexists; reflexivity. Qed.

(** Alice logged in as a Subordinate and is a Manager by the time she
    refreshes: the new access token says Manager. *)
Lemma refreshToken_reloads_user_witness :
  exists pair,
    refreshToken (C:=demo) demo_service alice_refresh_token promoted_world
      = (Ok pair, promoted_world)
    /\ accessToken pair
       = Signed (AccessPayload "u-alice" "alice@x.com" "Manager"
                   ["products:write"; "orders:write"])
                {| secret := "access-secret"; expiresIn := "15m" |}
                (registered_at 1000000).
Proof.
  exact (proj2 (proj2 (proj2 (refreshToken_reloads_user (C:=demo) demo_service
           alice_refresh_token (RefreshPayload "u-alice" "refresh")
           promoted_world demo_codec_accepts eq_refl)) alice_promoted eq_refl)
           eq_refl manager eq_refl).
Defined.

(** ** Registration *)

Section Register.

Context {C : Collaborators}.
Variable this : AuthService.

Lemma register_with_conflict others dto ip ua w u :
  find (by_email (reg_email dto)) (users w) = Some u ->
  register_with this others dto ip ua w
    = (Throw (ConflictException "User with this email already exists"),
       logSecurityEvent "REGISTER_FAILED" None (Some (reg_email dto)) ip ua
         (Some "User with this email already exists") w).
Proof.
  intros Hfind.
  unfold register_with, try_catch, bind, user_findUnique_email, gets.
  simpl. rewrite Hfind. reflexivity.
Qed.

(** The role expression of [register]: a truthy [roleId] is used as it
    is, otherwise [getDefaultRoleId] runs. *)
Lemma resolve_role_run (roleId : option string) w rid :
  resolved_role roleId w = Some rid ->
  (if truthy roleId then ret (default "" roleId) else getDefaultRoleId) w
    = (Ok rid, w).
Proof.
  unfold resolved_role. destruct (truthy roleId) eqn:Htruthy.
  - intros ->. reflexivity.
  - unfold getDefaultRoleId, bind, role_findFirst_name, gets. simpl.
    destruct (find _ (roles w)) as [r|]; simpl; [|discriminate].
    intros [= <-]. reflexivity.
Qed.

Lemma resolve_role_missing w (roleId : option string) :
  resolved_role roleId w = None ->
  (if truthy roleId then ret (default "" roleId) else getDefaultRoleId) w
    = (Throw (Error "Default role not found"), w).
Proof.
  unfold resolved_role. destruct (truthy roleId) eqn:Htruthy.
  - destruct roleId; [discriminate | simpl in Htruthy; discriminate].
  - unfold getDefaultRoleId, bind, role_findFirst_name, gets. simpl.
    destruct (find _ (roles w)) as [r|]; simpl; [discriminate|reflexivity].
Qed.

(** The insert loses against a row with the same email. *)
Lemma register_with_unique_violation others dto ip ua w rid :
  find (by_email (reg_email dto)) (users w) = None ->
  resolved_role (reg_roleId dto) w = Some rid ->
  existsb (by_email (reg_email dto)) (users (others w)) = true ->
  register_with this others dto ip ua w
    = (Throw (PrismaClientKnownRequestError "P2002" "Unique constraint failed"),
       logSecurityEvent "REGISTER_FAILED" None (Some (reg_email dto)) ip ua
         (Some "Unique constraint failed")
         (set_entropy (S (entropy (others w))) (others w))).
Proof.
  intros Hfind Hrole Hrace.
  unfold register_with, try_catch, bind, user_findUnique_email, gets.
  simpl. rewrite Hfind. rewrite (resolve_role_run _ _ _ Hrole).
  unfold modify, user_create. rewrite Hrace. reflexivity.
Qed.

(** C4 (as amended): when the email is already in the store at the
    lookup, [register] fails with Conflict and the user table is left
    as it was.  When the email appears between the lookup and the
    insert, the store's uniqueness violation is logged as
    REGISTER_FAILED and re-raised as it is, not as a Conflict; this
    call persists no row either. *)
Theorem register_duplicate_email others dto ip ua w :
  (forall u,
     find (by_email (reg_email dto)) (users w) = Some u ->
     fst (register_with this others dto ip ua w)
       = Throw (ConflictException "User with this email already exists")
     /\ users (snd (register_with this others dto ip ua w)) = users w)
  /\ (forall rid,
        find (by_email (reg_email dto)) (users w) = None ->
        resolved_role (reg_roleId dto) w = Some rid ->
        existsb (by_email (reg_email dto)) (users (others w)) = true ->
        fst (register_with this others dto ip ua w)
          = Throw (PrismaClientKnownRequestError "P2002"
                     "Unique constraint failed")
        /\ users (snd (register_with this others dto ip ua w))
           = users (others w)).
Proof.
  split.
  - intros u Hfind. rewrite (register_with_conflict _ _ _ _ _ _ Hfind).
    simpl. rewrite logSecurityEvent_users. auto.
  - intros rid Hfind Hrole Hrace.
    rewrite (register_with_unique_violation _ _ _ _ _ _ Hfind Hrole Hrace).
    simpl. rewrite logSecurityEvent_users. auto.
Qed.

End Register.

(** Registering Alice's email again, and losing the race for Carol's. *)
Lemma register_duplicate_email_witness :
  fst (register (C:=demo) demo_service
         {| reg_email := "alice@x.com"; reg_password := "pw";
            reg_name := "Alice again"; reg_roleId := None |}
         None None demo_world)
    = Throw (ConflictException "User with this email already exists")
  /\ fst (register_with (C:=demo) demo_service concurrent_carol
            carol_registration None None demo_world)
     = Throw (PrismaClientKnownRequestError "P2002" "Unique constraint failed").
Proof.
  split.
  - exact (proj1 (proj1 (register_duplicate_email (C:=demo) demo_service
             (fun w => w)
             {| reg_email := "alice@x.com"; reg_password := "pw";
                reg_name := "Alice again"; reg_roleId := None |}
             None None demo_world) alice eq_refl)).
  - exact (proj1 (proj2 (register_duplicate_email (C:=demo) demo_service
             concurrent_carol carol_registration None None demo_world)
             "role-sub" eq_refl eq_refl eq_refl)).
Defined.

(** C4 as stated fails in the race: the email is free at the lookup, the
    row of the other request is there at the insert, and the caller
    gets the store's error, which is not a Conflict. *)
Lemma register_race_raises_store_error :
  find (by_email "carol@x.com") (users demo_world) = None
  /\ find (by_email "carol@x.com") (users (concurrent_carol demo_world))
     = Some carol_row
  /\ fst (register_with (C:=demo) demo_service concurrent_carol
            carol_registration None None demo_world)
     = Throw (PrismaClientKnownRequestError "P2002" "Unique constraint failed")
  /\ instanceof_Conflict
       (PrismaClientKnownRequestError "P2002" "Unique constraint failed")
     = false.
Proof. repeat split. Qed.

Section RegisterRun.

Context {C : Collaborators}.
Variable this : AuthService.

Lemma find_none_existsb {A} (f : A -> bool) (l : list A) :
  find f l = None -> existsb f l = false.
Proof.
  intros Hfind. destruct (existsb f l) eqn:Hex; [|reflexivity].
  apply existsb_exists in Hex as (x & Hin & Hfx).
  rewrite (find_none f l Hfind x Hin) in Hfx. discriminate.
Qed.

Lemma logSecurityEvent_auditDown ev uid em ip ua err w :
  auditDown (logSecurityEvent ev uid em ip ua err w) = auditDown w.
Proof. unfold logSecurityEvent. destruct (securityLogDown w); reflexivity. Qed.

Lemma logSecurityEvent_clock ev uid em ip ua err w :
  clock (logSecurityEvent ev uid em ip ua err w) = clock w.
Proof. unfold logSecurityEvent. destruct (securityLogDown w); reflexivity. Qed.

(** A registration that goes through. *)
Lemma register_success dto ip ua w rid r :
  codec_accepts this ->
  find (by_email (reg_email dto)) (users w) = None ->
  resolved_role (reg_roleId dto) w = Some rid ->
  existsb (by_id (newRowId (entropy w))) (users w) = false ->
  find (role_by_id rid) (roles w) = Some r ->
  auditDown w = false ->
  let u := new_user (reg_email dto) (reg_name dto)
             (bcrypt_hash (reg_password dto)
                (default 12 (BCRYPT_ROUNDS (configService this)))) rid w in
  let w2 := registered this dto ip ua rid w in
  register this dto ip ua w
    = (Ok {| ar_user := formatUserResponse {| row := u; role := Some r |};
             ar_tokens :=
               {| accessToken :=
                    Signed (AccessPayload (u_id u) (u_email u) (r_name r)
                              (permission_keys r))
                           {| secret := jwtSecret this;
                              expiresIn := jwtExpiresIn this |}
                           (registered_at (clock w));
                  refreshToken_of :=
                    Signed (RefreshPayload (u_id u) "refresh")
                           {| secret := jwtRefreshSecret this;
                              expiresIn := jwtRefreshExpiresIn this |}
                           (registered_at (clock w));
                  tp_expiresIn := jwtExpiresIn this |};
             ar_message := "Registration successful" |},
       set_auditLogs (auditLogs w2 ++ [register_audit_entry u r ip ua]) w2).
Proof.
  intros [Haccess Hrefresh] Hfind Hrole Hid Hr Haudit u w2.
  unfold register, register_with, try_catch, bind, user_findUnique_email, gets.
  simpl. rewrite Hfind. rewrite (resolve_role_run _ _ _ Hrole).
  unfold modify, user_create.
  rewrite (find_none_existsb _ _ Hfind). fold u. simpl. rewrite Hid, Hr.
  simpl. unfold auditService_log.
  rewrite logSecurityEvent_auditDown. simpl. rewrite Haudit.
  unfold generateTokenPair, bind, ret. simpl.
  rewrite jwt_sign_run by exact Haccess.
  rewrite jwt_sign_run by exact Hrefresh. simpl.
  rewrite logSecurityEvent_clock. reflexivity.
Qed.

(** The audit store is down: the same registration raises after the
    row is in. *)
Lemma register_audit_down dto ip ua w rid r :
  find (by_email (reg_email dto)) (users w) = None ->
  resolved_role (reg_roleId dto) w = Some rid ->
  existsb (by_id (newRowId (entropy w))) (users w) = false ->
  find (role_by_id rid) (roles w) = Some r ->
  auditDown w = true ->
  register this dto ip ua w
    = (Throw (Error "Audit log write failed"),
       logSecurityEvent "REGISTER_FAILED" None (Some (reg_email dto)) ip ua
         (Some "Audit log write failed") (registered this dto ip ua rid w)).
Proof.
  intros Hfind Hrole Hid Hr Haudit.
  unfold register, register_with, try_catch, bind, user_findUnique_email, gets.
  simpl. rewrite Hfind. rewrite (resolve_role_run _ _ _ Hrole).
  unfold modify, user_create.
  rewrite (find_none_existsb _ _ Hfind). simpl. rewrite Hid, Hr.
  simpl. unfold auditService_log.
  rewrite logSecurityEvent_auditDown. simpl. rewrite Haudit. reflexivity.
Qed.

(** No default role: the call raises before anything is written. *)
Lemma register_no_default_role dto ip ua w :
  find (by_email (reg_email dto)) (users w) = None ->
  resolved_role (reg_roleId dto) w = None ->
  register this dto ip ua w
    = (Throw (Error "Default role not found"),
       logSecurityEvent "REGISTER_FAILED" None (Some (reg_email dto)) ip ua
         (Some "Default role not found") w).
Proof.
  intros Hfind Hrole.
  unfold register, register_with, try_catch, bind, user_findUnique_email, gets.
  simpl. rewrite Hfind. rewrite (resolve_role_missing _ _ Hrole). reflexivity.
Qed.

End RegisterRun.

(** ** The default role *)

Section DefaultRole.

Context {C : Collaborators}.
Variable this : AuthService.

(** C8 (as amended): the default role is looked up by each [register]
    call that comes without a usable [roleId]: the first role named
    "Subordinate" becomes the role of the new user, and when there is no
    such role that call fails with Error "Default role not found",
    logged as REGISTER_FAILED, with the user table untouched.  Starting
    the service does not look at the roles: the constructor succeeds
    exactly when both JWT secrets are set. *)
Theorem default_role_resolved_per_call dto ip ua w :
  truthy (reg_roleId dto) = false ->
  find (by_email (reg_email dto)) (users w) = None ->
  (find (fun r => String.eqb (r_name r) "Subordinate") (roles w) = None ->
   register this dto ip ua w
     = (Throw (Error "Default role not found"),
        logSecurityEvent "REGISTER_FAILED" None (Some (reg_email dto)) ip ua
          (Some "Default role not found") w)
   /\ users (snd (register this dto ip ua w)) = users w)
  /\ (forall r resp,
        find (fun r => String.eqb (r_name r) "Subordinate") (roles w) = Some r ->
        fst (register this dto ip ua w) = Ok resp ->
        exists u,
          last (users (snd (register this dto ip ua w))) = Some u
          /\ u_email u = reg_email dto
          /\ u_roleId u = r_id r)
  /\ (forall cfg,
        (exists svc, constructor cfg = Ok svc)
        <-> truthy (JWT_SECRET cfg) = true
            /\ truthy (JWT_REFRESH_SECRET cfg) = true).
Proof.
  intros Hfalsy Hfind. split; [|split].
  - intros Hnone.
    assert (Hrole : resolved_role (reg_roleId dto) w = None).
    { unfold resolved_role. rewrite Hfalsy, Hnone. reflexivity. }
    rewrite (register_no_default_role this _ ip ua _ Hfind Hrole). simpl.
    rewrite logSecurityEvent_users. auto.
  - intros r resp Hsome Hok.
    assert (Hrole : resolved_role (reg_roleId dto) w = Some (r_id r)).
    { unfold resolved_role. rewrite Hfalsy, Hsome. reflexivity. }
    revert Hok.
    unfold register, register_with, try_catch, bind, user_findUnique_email,
      gets.
    simpl. rewrite Hfind. rewrite (resolve_role_run _ _ _ Hrole).
    unfold modify, user_create. simpl.
    destruct (existsb _ _ || existsb _ _); [discriminate|].
    destruct (find (role_by_id (r_id r)) (roles w)) as [r'|];
      [|discriminate].
    simpl. unfold auditService_log.
    destruct (auditDown _); [discriminate|].
    unfold generateTokenPair, bind, jwt_sign, ret. simpl.
    destruct (jwt_timespan (jwtExpiresIn this)); simpl; [|discriminate].
    destruct (jwt_timespan (jwtRefreshExpiresIn this)); simpl; [|discriminate].
    intros _.
    eexists. rewrite logSecurityEvent_users. simpl. rewrite last_snoc.
    split; [reflexivity|]. split; reflexivity.
  - intros cfg. unfold constructor.
    destruct (truthy (JWT_SECRET cfg)), (truthy (JWT_REFRESH_SECRET cfg));
      simpl; split;
      try (intros [svc Hsvc]; discriminate);
      try (intros [? ?]; discriminate);
      eauto.
Qed.

End DefaultRole.

(** Carol registers without a role, in a deployment without and in one
    with the default role. *)
Lemma default_role_resolved_per_call_witness :
  fst (register (C:=demo) demo_service carol_registration None None
         no_default_role_world)
    = Throw (Error "Default role not found")
  /\ (exists u,
        last (users (snd (register (C:=demo) demo_service carol_registration
                            None None demo_world))) = Some u
        /\ u_email u = "carol@x.com" /\ u_roleId u = "role-sub").
Proof.
  split.
  - rewrite (proj1 (proj1 (default_role_resolved_per_call (C:=demo)
               demo_service carol_registration None None
               no_default_role_world eq_refl eq_refl) eq_refl)).
    reflexivity.
  - destruct (default_role_resolved_per_call (C:=demo) demo_service
                carol_registration None None demo_world eq_refl eq_refl)
      as (_ & Hfound & _).
    destruct (Hfound subordinate _ eq_refl eq_refl) as (u & Hlast & Hemail & Hrole).
    exists u. auto.
Defined.

(** C8 as stated fails: the service starts with the role table lacking
    the default role, and the error is raised by the registration
    call. *)
Lemma missing_default_role_is_per_call :
  constructor demo_config = Ok demo_service
  /\ find (fun r => String.eqb (r_name r) "Subordinate")
          (roles no_default_role_world) = None
  /\ fst (register (C:=demo) demo_service carol_registration None None
            no_default_role_world)
     = Throw (Error "Default role not found").
Proof. repeat split. Qed.

(** ** Token issuance *)

Section TokenIssuance.

Context {C : Collaborators}.

Lemma permission_keys_lookup r i rp :
  r_rolePermissions r !! i = Some rp ->
  permission_keys r !! i = Some (p_key (rp_permission rp)).
Proof.
  unfold permission_keys. generalize (r_rolePermissions r) as l.
  induction i as [|i IH]; intros [|x l] Hl; simpl in *; try discriminate.
  - injection Hl as ->. reflexivity.
  - apply IH, Hl.
Qed.

Lemma truthy_Some o : truthy o = true -> exists s, o = Some s /\ s <> "".
Proof.
  destruct o as [s|]; simpl; [|discriminate]. intros Hs. exists s.
  split; [reflexivity|]. intros ->. discriminate.
Qed.

(** C5 (as amended): [generateTokenPair] hands the codec exactly the
    user's id, email, role name and the permission keys of the role's
    join, one per join row in the join's order (so repeated keys are
    repeated), for the access token, and exactly the user's id and the
    type "refresh" for the refresh token; the codec adds the module's
    issuer "inventory-system" and audience "inventory-users" and the time
    of issue to the claims of both.  The access token is signed with
    JWT_SECRET and the access lifetime, "15m" unless configured; the
    refresh token with JWT_REFRESH_SECRET and the refresh lifetime, "7d"
    unless configured.  The pair is issued when the codec reads both
    lifetimes as time spans; otherwise the call raises the codec's error
    and issues nothing. *)
Theorem token_pair_claims cfg svc user r w :
  constructor cfg = Ok svc ->
  role user = Some r ->
  exists accessSecret refreshSecret,
    JWT_SECRET cfg = Some accessSecret
    /\ JWT_REFRESH_SECRET cfg = Some refreshSecret
    /\ (codec_accepts svc ->
        generateTokenPair svc user w
          = (Ok {| accessToken :=
                     Signed (AccessPayload (u_id (row user))
                               (u_email (row user)) (r_name r)
                               (permission_keys r))
                            {| secret := accessSecret;
                               expiresIn :=
                                 default "15m" (JWT_EXPIRES_IN cfg) |}
                            {| iss := "inventory-system";
                               aud := "inventory-users";
                               iat := clock w |};
                   refreshToken_of :=
                     Signed (RefreshPayload (u_id (row user)) "refresh")
                            {| secret := refreshSecret;
                               expiresIn :=
                                 default "7d" (JWT_REFRESH_EXPIRES_IN cfg) |}
                            {| iss := "inventory-system";
                               aud := "inventory-users";
                               iat := clock w |};
                   tp_expiresIn := default "15m" (JWT_EXPIRES_IN cfg) |},
             w))
    /\ (~ codec_accepts svc ->
        generateTokenPair svc user w
          = (Throw invalid_expiresIn, w))
    /\ length (permission_keys r) = length (r_rolePermissions r)
    /\ (forall i rp, r_rolePermissions r !! i = Some rp ->
                     permission_keys r !! i = Some (p_key (rp_permission rp))).
Proof.
  intros Hctor Hrole. unfold constructor in Hctor.
  destruct (truthy (JWT_SECRET cfg)) eqn:Ha; [|discriminate].
  destruct (truthy (JWT_REFRESH_SECRET cfg)) eqn:Hr; [|discriminate].
  simpl in Hctor. injection Hctor as <-.
  apply truthy_Some in Ha as (sa & Hsa & _).
  apply truthy_Some in Hr as (sr & Hsr & _).
  exists sa, sr.
  split; [exact Hsa|]. split; [exact Hsr|]. split; [|split; [|split]].
  - intros Hcodec. rewrite (generateTokenPair_run _ _ r w Hcodec Hrole).
    rewrite Hsa, Hsr. reflexivity.
  - intros Hcodec. unfold generateTokenPair, bind, jwt_sign. rewrite Hrole.
    simpl.
    destruct (jwt_timespan (default "15m" (JWT_EXPIRES_IN cfg)))
      as [a|] eqn:Haccess; [|reflexivity].
    destruct (jwt_timespan (default "7d" (JWT_REFRESH_EXPIRES_IN cfg)))
      as [b|] eqn:Hrefresh; [|reflexivity].
    exfalso. apply Hcodec. split; simpl; eauto.
  - unfold permission_keys. apply length_map.
  - apply permission_keys_lookup.
Qed.

End TokenIssuance.

(** The pair issued for Alice: her role's join lists products:read
    twice, and so does the token.  With an access lifetime the codec
    cannot read, the service starts and issues nothing. *)
Lemma token_pair_claims_witness :
  (exists pair,
     generateTokenPair (C:=demo) demo_service
         {| row := alice; role := Some subordinate |} demo_world
       = (Ok pair, demo_world)
     /\ accessToken pair
        = Signed (AccessPayload "u-alice" "alice@x.com" "Subordinate"
                    ["products:read"; "orders:read"; "products:read"])
                 {| secret := "access-secret"; expiresIn := "15m" |}
                 {| iss := "inventory-system"; aud := "inventory-users";
                    iat := 1000000 |}
     /\ refreshToken_of pair
        = Signed (RefreshPayload "u-alice" "refresh")
                 {| secret := "refresh-secret"; expiresIn := "7d" |}
                 {| iss := "inventory-system"; aud := "inventory-users";
                    iat := 1000000 |})
  /\ generateTokenPair (C:=demo) unreadable_lifetime_service
         {| row := alice; role := Some subordinate |} demo_world
     = (Throw invalid_expiresIn, demo_world).
Proof.
  split.
  - destruct (token_pair_claims (C:=demo) demo_config demo_service
                {| row := alice; role := Some subordinate |} subordinate
                demo_world eq_refl eq_refl)
      as (sa & sr & Hsa & Hsr & Hrun & _).
    injection Hsa as <-. injection Hsr as <-.
    eexists. split; [exact (Hrun demo_codec_accepts)|]. split; reflexivity.
  - destruct (token_pair_claims (C:=demo) unreadable_lifetime_config
                unreadable_lifetime_service
                {| row := alice; role := Some subordinate |} subordinate
                demo_world eq_refl eq_refl)
      as (sa & sr & _ & _ & _ & Hfail & _).
    apply Hfail. intros [[ms Hms] _]. discriminate Hms.
Defined.

(** C5 as stated fails: the service starts with one value for both
    secrets, both tokens of a pair are then signed with the same secret,
    and [refreshToken] takes the access token for a refresh token.  The
    claims of an issued token are not the payload alone either: issuer
    and audience are on it. *)
Lemma one_secret_signs_both_tokens :
  constructor shared_secret_config = Ok shared_secret_service
  /\ exists pair,
       generateTokenPair (C:=demo) shared_secret_service
           {| row := alice; role := Some subordinate |} demo_world
         = (Ok pair, demo_world)
       /\ (exists payload options registered,
             accessToken pair = Signed payload options registered
             /\ secret options = "one-secret"
             /\ iss registered = "inventory-system"
             /\ aud registered = "inventory-users")
       /\ (exists payload options registered,
             refreshToken_of pair = Signed payload options registered
             /\ secret options = "one-secret")
       /\ exists again,
            fst (refreshToken (C:=demo) shared_secret_service
                   (accessToken pair) demo_world) = Ok again.
Proof.
  split; [reflexivity|]. eexists. split; [cbv; reflexivity|]. simpl.
  split; [do 3 eexists; repeat split|].
  split; [do 3 eexists; repeat split|].
  eexists. cbv. reflexivity.
Qed.

(** ** Forgotten passwords *)

Section ForgotPassword.

Context {C : Collaborators}.

Lemma forgotPassword_run email w :
  match find (by_email email) (users w) with
  | None =>
      forgotPassword email w
        = (Ok {| message := "If the email exists, a reset link has been sent" |},
           w)
  | Some u =>
      forgotPassword email w
        = (Ok {| message := "If the email exists, a reset link has been sent" |},
           logSecurityEvent "PASSWORD_RESET_REQUEST" (Some (u_id u))
             (Some email) None None None
             (set_users
                (update_rows (u_id u)
                   (set_reset (Some (uuidv4 (entropy w)))
                              (Some (clock w + 15 * 60 * 1000)))
                   (users w))
                (set_entropy (S (entropy w)) w)))
  end.
Proof.
  unfold forgotPassword, bind, user_findUnique_email, gets. simpl.
  destruct (find _ (users w)) as [u|] eqn:Hfind; [|reflexivity].
  unfold user_update. simpl. rewrite (found_exists_by_id _ _ _ Hfind).
  reflexivity.
Qed.

(** C6: [forgotPassword] returns the same message for every email.  For
    an email nobody has, the world is left as it was.  For the email of
    a stored user it draws a token from the random source, writes the
    token and the expiry now + 15 minutes on that user's record in one
    update, leaves every other record alone, and hands a
    PASSWORD_RESET_REQUEST event to the security log. *)
Theorem forgotPassword_uniform email w :
  fst (forgotPassword email w)
    = Ok {| message := "If the email exists, a reset link has been sent" |}
  /\ (find (by_email email) (users w) = None ->
      snd (forgotPassword email w) = w)
  /\ (forall u,
        find (by_email email) (users w) = Some u ->
        let tok := uuidv4 (entropy w) in
        let w1 := set_users
                    (update_rows (u_id u)
                       (set_reset (Some tok) (Some (clock w + 900000)))
                       (users w))
                    (set_entropy (S (entropy w)) w) in
        snd (forgotPassword email w)
          = logSecurityEvent "PASSWORD_RESET_REQUEST" (Some (u_id u))
              (Some email) None None None w1
        /\ (forall v, In v (users (snd (forgotPassword email w))) ->
            u_id v = u_id u ->
            u_passwordResetToken v = Some tok
            /\ u_passwordResetExpires v = Some (clock w + 900000))
        /\ (forall v, In v (users (snd (forgotPassword email w))) ->
            u_id v <> u_id u -> In v (users w))
        /\ (securityLogDown w = false ->
            sl_event <$> last (securityLogs (snd (forgotPassword email w)))
              = Some "PASSWORD_RESET_REQUEST")).
Proof.
  pose proof (forgotPassword_run email w) as Hrun.
  destruct (find (by_email email) (users w)) as [u|] eqn:Hfind.
  - rewrite Hrun. cbn [fst snd]. split; [reflexivity|]. split; [discriminate|].
    intros u' [= <-]. split; [reflexivity|].
    rewrite logSecurityEvent_users. cbn [users set_users]. split; [|split].
    + intros v Hin Hid. apply in_update_rows in Hin as (v0 & Hin0 & ->).
      destruct (by_id (u_id u) v0) eqn:Hby; [simpl; auto|].
      unfold by_id in Hby. apply String.eqb_neq in Hby. congruence.
    + intros v Hin Hid. apply in_update_rows in Hin as (v0 & Hin0 & ->).
      destruct (by_id (u_id u) v0) eqn:Hby; [|exact Hin0].
      unfold by_id in Hby. apply String.eqb_eq in Hby. simpl in Hid.
      congruence.
    + intros Hup. unfold logSecurityEvent. simpl. rewrite Hup. simpl.
      rewrite last_snoc. reflexivity.
  - rewrite Hrun. simpl. split; [reflexivity|]. split; [reflexivity|].
    intros u' Hu'. discriminate.
Qed.

End ForgotPassword.

(** An unknown email changes nothing; Bob gets the first uuid and an
    expiry 15 minutes after the clock. *)
Lemma forgotPassword_uniform_witness :
  snd (forgotPassword (C:=demo) "carol@x.com" demo_world) = demo_world
  /\ (forall v, In v (users (snd (forgotPassword (C:=demo) "bob@x.com"
                                    demo_world))) ->
      u_id v = "u-bob" ->
      u_passwordResetToken v = Some "uuid-0"
      /\ u_passwordResetExpires v = Some 1900000).
Proof.
  split.
  - exact (proj1 (proj2 (forgotPassword_uniform (C:=demo) "carol@x.com"
                           demo_world)) eq_refl).
  - exact (proj1 (proj2 (proj2 (proj2 (forgotPassword_uniform (C:=demo)
             "bob@x.com" demo_world)) bob eq_refl))).
Defined.

(** ** What a login writes to the user table *)

Section LoginFrame.

Context {C : Collaborators}.
Variable this : AuthService.

(** Once the password has verified, the user table after [login] is the
    old one with [lastLoginAt] set on the user's record, whether or not
    the rest of the method goes through. *)
Lemma login_verified_users dto ip ua w u :
  find (by_email (login_email dto)) (users w) = Some u ->
  u_status u = ACTIVE ->
  bcrypt_compare (login_password dto) (u_passwordHash u) = true ->
  users (snd (login this dto ip ua w))
    = update_rows (u_id u) (set_lastLoginAt (clock w)) (users w).
Proof.
  intros Hfind Hactive Hcmp.
  unfold login, try_catch, bind, user_findUnique_email_include, gets.
  simpl. rewrite Hfind. simpl. rewrite Hactive, Hcmp. simpl.
  unfold user_update. rewrite (found_exists_by_id _ _ _ Hfind).
  unfold modify, generateTokenPair. simpl.
  destruct (find (role_by_id (u_roleId u)) (roles w)) as [r|]; simpl;
    [unfold bind, jwt_sign, ret; simpl;
     destruct (jwt_timespan (jwtExpiresIn this)); simpl;
     [destruct (jwt_timespan (jwtRefreshExpiresIn this)); simpl|]|];
    rewrite ?logSecurityEvent_users; reflexivity.
Qed.

(** A login denied before or at the password check writes to no user
    and to no role. *)
Lemma login_denied_frame dto ip ua w :
  find (by_email (login_email dto)) (users w) = None
  \/ (exists u,
        find (by_email (login_email dto)) (users w) = Some u
        /\ (u_status u <> ACTIVE
            \/ bcrypt_compare (login_password dto) (u_passwordHash u)
               = false)) ->
  users (snd (login this dto ip ua w)) = users w
  /\ roles (snd (login this dto ip ua w)) = roles w.
Proof.
  unfold login, try_catch, bind, user_findUnique_email_include, gets.
  simpl. intros [Hnone | (u & Hsome & Hdenied)].
  - rewrite Hnone. simpl.
    rewrite logSecurityEvent_users, logSecurityEvent_roles. auto.
  - rewrite Hsome. simpl.
    destruct (UserStatus_eqb (u_status u) ACTIVE) eqn:Hstatus; simpl.
    + destruct Hdenied as [Hne | Hcmp].
      * apply UserStatus_eqb_eq in Hstatus. contradiction.
      * rewrite Hcmp. simpl.
        rewrite logSecurityEvent_users, logSecurityEvent_roles. auto.
    + rewrite logSecurityEvent_users, logSecurityEvent_roles. auto.
Qed.

(** C10: a login that stops because the user is not found, because the
    account is not ACTIVE or because the password does not match
    leaves the user table and the role table exactly as they were; the
    only write of [login] to a user record sets [lastLoginAt], on the
    record of the user whose password has just verified, and changes no
    other field. *)
Theorem login_failure_writes_no_user dto ip ua w :
  (find (by_email (login_email dto)) (users w) = None
   \/ (exists u,
         find (by_email (login_email dto)) (users w) = Some u
         /\ (u_status u <> ACTIVE
             \/ bcrypt_compare (login_password dto) (u_passwordHash u)
                = false)) ->
   users (snd (login this dto ip ua w)) = users w
   /\ roles (snd (login this dto ip ua w)) = roles w)
  /\ (users (snd (login this dto ip ua w)) <> users w ->
      exists u,
        find (by_email (login_email dto)) (users w) = Some u
        /\ u_status u = ACTIVE
        /\ bcrypt_compare (login_password dto) (u_passwordHash u) = true
        /\ users (snd (login this dto ip ua w))
           = update_rows (u_id u) (set_lastLoginAt (clock w)) (users w)
        /\ (forall v, In v (users (snd (login this dto ip ua w))) ->
            In v (users w)
            \/ exists v0, In v0 (users w)
                          /\ v = set_lastLoginAt (clock w) v0)).
Proof.
  pose proof (login_denied_frame dto ip ua w) as Hfail.
  split; [exact Hfail|].
  intros Hchanged.
  destruct (find (by_email (login_email dto)) (users w)) as [u|] eqn:Hfind.
  - destruct (UserStatus_eqb (u_status u) ACTIVE) eqn:Hstatus.
    + destruct (bcrypt_compare (login_password dto) (u_passwordHash u))
        eqn:Hcmp.
      * apply UserStatus_eqb_eq in Hstatus. exists u.
        pose proof (login_verified_users dto ip ua w u Hfind Hstatus Hcmp)
          as Husers.
        repeat (split; [solve [auto]|]).
        intros v Hin. rewrite Husers in Hin.
        apply in_update_rows in Hin as (v0 & Hin0 & ->).
        destruct (by_id (u_id u) v0); eauto.
      * exfalso. apply Hchanged, Hfail. right. exists u. auto.
    + exfalso. apply Hchanged, Hfail. right. exists u.
      apply UserStatus_eqb_neq in Hstatus. auto.
  - exfalso. apply Hchanged, Hfail. left. reflexivity.
Qed.

End LoginFrame.

(** Two denied logins leave the table alone; the successful one stamps
    Alice. *)
Lemma login_failure_writes_no_user_witness :
  users (snd (login (C:=demo) demo_service
                {| login_email := "alice@x.com"; login_password := "Wrong" |}
                None None demo_world)) = [alice; bob]
  /\ users (snd (login (C:=demo) demo_service
                   {| login_email := "bob@x.com"; login_password := "Secret#2" |}
                   None None demo_world)) = [alice; bob]
  /\ exists u,
       find (by_email "alice@x.com") (users demo_world) = Some u
       /\ users (snd (login (C:=demo) demo_service alice_login None None
                        demo_world))
          = update_rows (u_id u) (set_lastLoginAt 1000000) [alice; bob].
Proof.
  assert (Hbob : u_status bob <> ACTIVE) by discriminate.
  split; [|split].
  - exact (proj1 (proj1 (login_failure_writes_no_user (C:=demo) demo_service
             {| login_email := "alice@x.com"; login_password := "Wrong" |}
             None None demo_world)
             (or_intror (ex_intro _ alice
                           (conj eq_refl (or_intror eq_refl)))))).
  - exact (proj1 (proj1 (login_failure_writes_no_user (C:=demo) demo_service
             {| login_email := "bob@x.com"; login_password := "Secret#2" |}
             None None demo_world)
             (or_intror (ex_intro _ bob (conj eq_refl (or_introl Hbob)))))).
  - destruct (proj2 (login_failure_writes_no_user (C:=demo) demo_service
                       alice_login None None demo_world)
                ltac:(vm_compute; discriminate))
      as (u & Hfind & _ & _ & Husers & _).
    exists u. split; [exact Hfind | exact Husers].
Defined.

(** ** Response shaping *)

Section ResponseShaping.

Context {C : Collaborators}.
Variable this : AuthService.

Lemma formatUserResponse_no_secrets user :
  has_no_secrets (formatUserResponse user).
Proof.
  unfold has_no_secrets, formatUserResponse.
  split; [|split]; rewrite lookup_insert_ne by discriminate.
  - rewrite !lookup_delete_ne by discriminate. apply lookup_delete_eq.
  - rewrite lookup_delete_ne by discriminate. apply lookup_delete_eq.
  - apply lookup_delete_eq.
Qed.

Lemma toObject_passwordResetToken user :
  toObject user !! "passwordResetToken"
    = Some (of_opt_string (u_passwordResetToken (row user))).
Proof.
  unfold toObject. rewrite !lookup_insert_ne by discriminate.
  apply lookup_insert_eq.
Qed.

Lemma toObject_passwordResetExpires user :
  toObject user !! "passwordResetExpires"
    = Some (of_opt_date (u_passwordResetExpires (row user))).
Proof.
  unfold toObject. rewrite !lookup_insert_ne by discriminate.
  apply lookup_insert_eq.
Qed.

Lemma register_with_user_formatted others dto ip ua w resp :
  fst (register_with this others dto ip ua w) = Ok resp ->
  exists user, ar_user resp = formatUserResponse user.
Proof.
  unfold register_with. intros H.
  apply try_catch_Ok in H; [|intros e w'; discriminate].
  apply bind_Ok in H as (existing & w1 & _ & H).
  destruct existing as [u|]; [discriminate|].
  apply bind_Ok in H as (rid & w2 & _ & H).
  apply bind_Ok in H as ([] & w3 & _ & H).
  apply bind_Ok in H as (user & w4 & _ & H).
  apply bind_Ok in H as ([] & w5 & _ & H).
  destruct (role user) as [r|]; [|discriminate].
  apply bind_Ok in H as ([] & w6 & _ & H).
  apply bind_Ok in H as (tokens & w7 & _ & H).
  injection H as <-. exists user. reflexivity.
Qed.

Lemma login_user_formatted dto ip ua w resp :
  fst (login this dto ip ua w) = Ok resp ->
  exists user, ar_user resp = formatUserResponse user.
Proof.
  unfold login. intros H.
  apply try_catch_Ok in H;
    [|intros e w'; destruct (instanceof_Unauthorized e); discriminate].
  apply bind_Ok in H as (found & w1 & _ & H).
  destruct found as [user|]; [|discriminate].
  destruct (negb (UserStatus_eqb _ _)); [discriminate|].
  destruct (negb (bcrypt_compare _ _)); [discriminate|].
  apply bind_Ok in H as (now & w2 & _ & H).
  apply bind_Ok in H as ([] & w3 & _ & H).
  apply bind_Ok in H as ([] & w4 & _ & H).
  apply bind_Ok in H as (tokens & w5 & _ & H).
  injection H as <-. exists user. reflexivity.
Qed.

(** C7 (as amended): the user object in every response of [register]
    and of [login] has no password hash, no reset token and no reset
    expiry.  [validateUser] returns null or the loaded user without the
    password hash; the reset token and the reset expiry of the stored
    record are still on that object. *)
Theorem user_responses_without_secrets :
  (forall others dto ip ua w resp,
     fst (register_with this others dto ip ua w) = Ok resp ->
     has_no_secrets (ar_user resp))
  /\ (forall dto ip ua w resp,
        fst (login this dto ip ua w) = Ok resp ->
        has_no_secrets (ar_user resp))
  /\ (forall email password w,
        fst (validateUser email password w) = Ok None
        \/ exists u obj,
             find (by_email email) (users w) = Some u
             /\ fst (validateUser email password w) = Ok (Some obj)
             /\ obj !! "passwordHash" = None
             /\ obj !! "passwordResetToken"
                = Some (of_opt_string (u_passwordResetToken u))
             /\ obj !! "passwordResetExpires"
                = Some (of_opt_date (u_passwordResetExpires u))).
Proof.
  split; [|split].
  - intros others dto ip ua w resp Hok.
    apply register_with_user_formatted in Hok as [user ->].
    apply formatUserResponse_no_secrets.
  - intros dto ip ua w resp Hok.
    apply login_user_formatted in Hok as [user ->].
    apply formatUserResponse_no_secrets.
  - intros email password w.
    unfold validateUser, bind, user_findUnique_email_include, gets.
    cbn [fst snd].
    destruct (find (by_email email) (users w)) as [u|];
      cbn [fmap option_fmap option_map]; [|left; reflexivity].
    cbn [row include_role].
    destruct (UserStatus_eqb (u_status u) ACTIVE); [|left; reflexivity].
    destruct (bcrypt_compare password (u_passwordHash u));
      [|left; reflexivity].
    right. exists u. eexists. split; [reflexivity|].
    split; [reflexivity|]. split; [apply lookup_delete_eq|].
    rewrite !lookup_delete_ne by discriminate.
    rewrite toObject_passwordResetToken, toObject_passwordResetExpires.
    auto.
Qed.

End ResponseShaping.

(** Alice's login response, with a reset pending on her record. *)
Lemma user_responses_without_secrets_witness :
  exists resp,
    fst (login (C:=demo) demo_service alice_login None None demo_world)
      = Ok resp
    /\ has_no_secrets (ar_user resp).
Proof.
  eexists. split; [reflexivity|].
  exact (proj1 (proj2 (user_responses_without_secrets (C:=demo) demo_service))
           alice_login None None demo_world _ eq_refl).
Defined.

(** C7 as stated fails for [validateUser]: the object it returns for
    Alice, who has a reset pending, carries her reset token and its
    expiry. *)
Lemma validateUser_keeps_reset_fields :
  exists obj,
    fst (validateUser (C:=demo) "alice@x.com" "Secret#1" demo_world)
      = Ok (Some obj)
    /\ obj !! "passwordHash" = None
    /\ obj !! "passwordResetToken" = Some (JString "tok-alice")
    /\ obj !! "passwordResetExpires" = Some (JDate 1900000)
    /\ ~ has_no_secrets obj.
Proof.
  eexists. split; [reflexivity|].
  split; [vm_compute; reflexivity|].
  split; [vm_compute; reflexivity|].
  split; [vm_compute; reflexivity|].
  intros (_ & Htoken & _). vm_compute in Htoken. discriminate.
Qed.

(** ** Containment of security-log failures *)

Section Containment.

Context {C : Collaborators}.
Variable this : AuthService.

(** Closes the goals [same_but_security_log w1' w2'] and the equalities
    of results left after a primitive has been unfolded. *)
Ltac same_worlds :=
  repeat split; simpl; try assumption; try congruence.

Lemma contained_ret {A} (a : A) : contained (ret a).
Proof. intros w1 w2 HR. split; [reflexivity | exact HR]. Qed.

Lemma contained_throw {A} (e : Exception) : contained (@throw A e).
Proof. intros w1 w2 HR. split; [reflexivity | exact HR]. Qed.

Lemma contained_bind {A B} (m : M A) (k : A -> M B) :
  contained m -> (forall a, contained (k a)) -> contained (bind m k).
Proof.
  intros Hm Hk w1 w2 HR. unfold bind.
  destruct (Hm w1 w2 HR) as [Hres Hworld].
  destruct (m w1) as [[a1|e1] w1'], (m w2) as [[a2|e2] w2'];
    simpl in Hres, Hworld; try discriminate.
  - injection Hres as ->. apply Hk, Hworld.
  - injection Hres as ->. split; [reflexivity | exact Hworld].
Qed.

Lemma contained_try_catch {A} (m : M A) (handler : Exception -> M A) :
  contained m -> (forall e, contained (handler e)) ->
  contained (try_catch m handler).
Proof.
  intros Hm Hh w1 w2 HR. unfold try_catch.
  destruct (Hm w1 w2 HR) as [Hres Hworld].
  destruct (m w1) as [[a1|e1] w1'], (m w2) as [[a2|e2] w2'];
    simpl in Hres, Hworld; try discriminate.
  - injection Hres as ->. split; [reflexivity | exact Hworld].
  - injection Hres as ->. apply Hh, Hworld.
Qed.

Lemma contained_gets {A} (f : World -> A) :
  (forall w1 w2, same_but_security_log w1 w2 -> f w1 = f w2) ->
  contained (gets f).
Proof. intros Hf w1 w2 HR. split; [simpl; f_equal; auto | exact HR]. Qed.

(** The heart of the matter: whether or not the write succeeds,
    [logSecurityEvent] returns normally and touches nothing outside the
    security log and the logger. *)
Lemma contained_logSecurityEvent ev uid em ip ua err :
  contained (modify (logSecurityEvent ev uid em ip ua err)).
Proof.
  intros w1 w2 (Hu & Hr & Ha & Hc & He & Hd).
  split; [reflexivity|]. unfold modify, logSecurityEvent. simpl.
  destruct (securityLogDown w1), (securityLogDown w2);
    same_worlds.
Qed.

Lemma contained_logger_error line :
  contained (modify (fun w => set_loggerErrors (loggerErrors w ++ [line]) w)).
Proof.
  intros w1 w2 (Hu & Hr & Ha & Hc & He & Hd).
  split; [reflexivity|]. same_worlds.
Qed.

Lemma contained_findUnique_email email :
  contained (user_findUnique_email email).
Proof. apply contained_gets. intros w1 w2 (Hu & _). rewrite Hu. reflexivity. Qed.

Lemma contained_findUnique_id id : contained (user_findUnique_id id).
Proof. apply contained_gets. intros w1 w2 (Hu & _). rewrite Hu. reflexivity. Qed.

Lemma contained_findUnique_email_include email :
  contained (user_findUnique_email_include email).
Proof.
  apply contained_gets. intros w1 w2 (Hu & Hr & _). rewrite Hu.
  destruct (find _ (users w2)); simpl; [|reflexivity].
  unfold include_role. rewrite Hr. reflexivity.
Qed.

Lemma contained_findUnique_id_include id :
  contained (user_findUnique_id_include id).
Proof.
  apply contained_gets. intros w1 w2 (Hu & Hr & _). rewrite Hu.
  destruct (find _ (users w2)); simpl; [|reflexivity].
  unfold include_role. rewrite Hr. reflexivity.
Qed.

Lemma contained_findFirst_reset tok : contained (user_findFirst_reset tok).
Proof.
  apply contained_gets. intros w1 w2 (Hu & _ & _ & Hc & _).
  rewrite Hu, Hc. reflexivity.
Qed.

Lemma contained_role_findFirst_name name :
  contained (role_findFirst_name name).
Proof.
  apply contained_gets. intros w1 w2 (_ & Hr & _). rewrite Hr. reflexivity.
Qed.

Lemma contained_Date_now : contained Date_now.
Proof. apply contained_gets. intros w1 w2 (_ & _ & _ & Hc & _). exact Hc. Qed.

Lemma contained_draw_uuid : contained draw_uuid.
Proof.
  intros w1 w2 (Hu & Hr & Ha & Hc & He & Hd). unfold draw_uuid. simpl.
  rewrite He. same_worlds.
Qed.

Lemma contained_user_update id f : contained (user_update id f).
Proof.
  intros w1 w2 (Hu & Hr & Ha & Hc & He & Hd). unfold user_update.
  rewrite Hu. destruct (existsb _ (users w2)); same_worlds.
Qed.

Lemma contained_user_create email name hash rid :
  contained (user_create email name hash rid).
Proof.
  intros w1 w2 (Hu & Hr & Ha & Hc & He & Hd).
  unfold user_create, new_user. rewrite Hu, Hr, He.
  destruct (existsb _ _ || existsb _ _); [same_worlds|].
  destruct (find _ (roles w2)); same_worlds.
Qed.

Lemma contained_auditService_log entry : contained (auditService_log entry).
Proof.
  intros w1 w2 (Hu & Hr & Ha & Hc & He & Hd). unfold auditService_log.
  rewrite Hd. destruct (auditDown w2) eqn:Hdown; same_worlds.
Qed.

Lemma contained_jwt_sign payload options : contained (jwt_sign payload options).
Proof.
  intros w1 w2 HR. unfold jwt_sign.
  destruct HR as (Hu & Hr & Ha & Hc & He & Hd). rewrite Hc.
  destruct (jwt_timespan _); simpl; same_worlds.
Qed.

Lemma contained_jwt_verify tok sec : contained (jwt_verify tok sec).
Proof.
  intros w1 w2 HR. unfold jwt_verify.
  destruct tok as [p o iat|raw]; [|split; [reflexivity | exact HR]].
  destruct (negb _); [split; [reflexivity | exact HR]|].
  destruct HR as (Hu & Hr & Ha & Hc & He & Hd). rewrite Hc.
  destruct (jwt_expired _ _ _); simpl; same_worlds.
Qed.

Lemma contained_generateTokenPair user : contained (generateTokenPair this user).
Proof.
  unfold generateTokenPair. destruct (role user); [|apply contained_throw].
  apply contained_bind; [apply contained_jwt_sign|]. intros access.
  apply contained_bind; [apply contained_jwt_sign|]. intros refresh.
  apply contained_ret.
Qed.

Lemma contained_getDefaultRoleId : contained getDefaultRoleId.
Proof.
  unfold getDefaultRoleId.
  apply contained_bind; [apply contained_role_findFirst_name|].
  intros [r|]; [apply contained_ret | apply contained_throw].
Qed.

Lemma contained_no_interference : contained (modify (fun w => w)).
Proof. intros w1 w2 HR. split; [reflexivity | exact HR]. Qed.

(** One step of a containment proof: split a sequence, a handler or a
    branch, or close the goal with the lemma of a primitive. *)
Ltac contain_step :=
  first
    [ apply contained_ret
    | apply contained_throw
    | apply contained_logSecurityEvent
    | apply contained_logger_error
    | apply contained_no_interference
    | apply contained_findUnique_email
    | apply contained_findUnique_id
    | apply contained_findUnique_email_include
    | apply contained_findUnique_id_include
    | apply contained_findFirst_reset
    | apply contained_Date_now
    | apply contained_draw_uuid
    | apply contained_user_update
    | apply contained_user_create
    | apply contained_auditService_log
    | apply contained_jwt_verify
    | apply contained_generateTokenPair
    | apply contained_getDefaultRoleId
    | apply contained_try_catch; [|intros ?]
    | apply contained_bind; [|intros ?]
    | match goal with
      | |- contained (match ?x with _ => _ end) => destruct x
      end ].

Ltac contain := repeat contain_step.

Lemma contained_register dto ip ua : contained (register this dto ip ua).
Proof. unfold register, register_with. contain. Qed.

Lemma contained_login dto ip ua : contained (login this dto ip ua).
Proof. unfold login. contain. Qed.

Lemma contained_refreshToken tok : contained (refreshToken this tok).
Proof. unfold refreshToken. contain. Qed.

Lemma contained_logout userId ip ua : contained (logout userId ip ua).
Proof. unfold logout, logout_with. contain. Qed.

Lemma contained_changePassword userId dto :
  contained (changePassword this userId dto).
Proof. unfold changePassword. contain. Qed.

Lemma contained_forgotPassword email : contained (forgotPassword email).
Proof. unfold forgotPassword. contain. Qed.

Lemma contained_resetPassword dto : contained (resetPassword this dto).
Proof. unfold resetPassword. contain. Qed.

Lemma contained_validateUser email password :
  contained (validateUser email password).
Proof. unfold validateUser. contain. Qed.

(** C9 (as amended): whether or not the writes to the security log
    succeed makes no difference to any public operation.  Run from two
    worlds that differ only in the security log, in the logger's output
    and in whether the security log is writable, each operation returns
    the same result (the same value or the same exception) and leaves
    the same users, roles, audit trail, clock and random source: a
    failed security-log write is never rethrown and an authentication
    that succeeds with the log up succeeds with the log down. *)
Theorem security_log_failures_contained w1 w2 :
  same_but_security_log w1 w2 ->
  let agree {A} (m : M A) :=
    fst (m w1) = fst (m w2)
    /\ same_but_security_log (snd (m w1)) (snd (m w2)) in
  (forall dto ip ua, agree (register this dto ip ua))
  /\ (forall dto ip ua, agree (login this dto ip ua))
  /\ (forall tok, agree (refreshToken this tok))
  /\ (forall userId ip ua, agree (logout userId ip ua))
  /\ (forall userId dto, agree (changePassword this userId dto))
  /\ (forall email, agree (forgotPassword email))
  /\ (forall dto, agree (resetPassword this dto))
  /\ (forall email password, agree (validateUser email password)).
Proof.
  intros HR agree. unfold agree.
  repeat apply conj; intros.
  - apply contained_register, HR.
  - apply contained_login, HR.
  - apply contained_refreshToken, HR.
  - apply contained_logout, HR.
  - apply contained_changePassword, HR.
  - apply contained_forgotPassword, HR.
  - apply contained_resetPassword, HR.
  - apply contained_validateUser, HR.
Qed.

End Containment.

(** With the security log out of order, login and registration end as
    they do with the log in order. *)
Lemma security_log_failures_contained_witness :
  fst (login (C:=demo) demo_service alice_login None None
         security_log_down_world)
    = fst (login (C:=demo) demo_service alice_login None None demo_world)
  /\ fst (register (C:=demo) demo_service carol_registration None None
            security_log_down_world)
     = fst (register (C:=demo) demo_service carol_registration None None
              demo_world).
Proof.
  assert (HR : same_but_security_log security_log_down_world demo_world).
  { repeat split. }
  destruct (security_log_failures_contained (C:=demo) demo_service
              security_log_down_world demo_world HR)
    as (Hregister & Hlogin & _).
  split.
  - exact (proj1 (Hlogin alice_login None None)).
  - exact (proj1 (Hregister carol_registration None None)).
Defined.

(** C9 as stated fails for the audit trail: with the audit store down,
    the registration that succeeds otherwise raises the audit error,
    after the user row has been inserted. *)
Lemma register_fails_when_audit_down :
  (exists resp,
     fst (register (C:=demo) demo_service carol_registration None None
            demo_world) = Ok resp)
  /\ fst (register (C:=demo) demo_service carol_registration None None
            audit_down_world)
     = Throw (Error "Audit log write failed")
  /\ u_email <$> last (users (snd (register (C:=demo) demo_service
                                    carol_registration None None
                                    audit_down_world)))
     = Some "carol@x.com".
Proof.
  split; [eexists; reflexivity|]. split; reflexivity.
Qed.

(** ** Reset tokens stay with one user

    [single_holder] is an invariant of the user table: every write of
    the service keeps reset tokens unique, given that a freshly drawn
    uuid is not a token some user already holds. *)

Section ResetTokenInvariant.

Context {C : Collaborators}.
Variable this : AuthService.

Lemma by_id_true id u : by_id id u = true -> u_id u = id.
Proof. unfold by_id. apply String.eqb_eq. Qed.

(** An update that keeps ids and introduces no token. *)
Lemma update_rows_keeps_unique id f us :
  (forall u, u_id (f u) = u_id u) ->
  (forall u tok, u_passwordResetToken (f u) = Some tok ->
                 u_passwordResetToken u = Some tok) ->
  reset_tokens_unique us ->
  reset_tokens_unique (update_rows id f us).
Proof.
  intros Hid Htok Huniq tok v1 v2 Hin1 Hin2 Ht1 Ht2.
  apply in_update_rows in Hin1 as (a & Ha & ->).
  apply in_update_rows in Hin2 as (b & Hb & ->).
  assert (Hida : u_id (if by_id id a then f a else a) = u_id a)
    by (destruct (by_id id a); auto).
  assert (Hidb : u_id (if by_id id b then f b else b) = u_id b)
    by (destruct (by_id id b); auto).
  rewrite Hida, Hidb. apply (Huniq tok a b Ha Hb).
  - destruct (by_id id a); auto.
  - destruct (by_id id b); auto.
Qed.

(** An update that hands out a token nobody holds. *)
Lemma update_rows_fresh_token id t e us :
  (forall v, In v us -> u_passwordResetToken v <> Some t) ->
  reset_tokens_unique us ->
  reset_tokens_unique (update_rows id (set_reset (Some t) e) us).
Proof.
  intros Hfresh Huniq tok v1 v2 Hin1 Hin2 Ht1 Ht2.
  apply in_update_rows in Hin1 as (a & Ha & ->).
  apply in_update_rows in Hin2 as (b & Hb & ->).
  destruct (by_id id a) eqn:Hbya, (by_id id b) eqn:Hbyb; simpl in *.
  - apply by_id_true in Hbya, Hbyb. congruence.
  - injection Ht1 as <-. destruct (Hfresh b Hb Ht2).
  - injection Ht2 as <-. destruct (Hfresh a Ha Ht1).
  - apply (Huniq tok a b Ha Hb Ht1 Ht2).
Qed.

(** A new row without a token. *)
Lemma append_keeps_unique us u :
  u_passwordResetToken u = None ->
  reset_tokens_unique us ->
  reset_tokens_unique (us ++ [u]).
Proof.
  intros Hnone Huniq tok v1 v2 Hin1 Hin2 Ht1 Ht2.
  apply in_app_or in Hin1 as [Hin1 | [<- | []]];
    apply in_app_or in Hin2 as [Hin2 | [<- | []]];
    try congruence.
  apply (Huniq tok v1 v2 Hin1 Hin2 Ht1 Ht2).
Qed.

Lemma resetPassword_keeps_unique dto w :
  reset_tokens_unique (users w) ->
  reset_tokens_unique (users (snd (resetPassword this dto w))).
Proof.
  intros Huniq. pose proof (resetPassword_run this dto w) as Hrun.
  destruct (find _ (users w)) as [u|]; rewrite Hrun; cbn [snd];
    [|exact Huniq].
  rewrite logSecurityEvent_users. cbn [users set_users].
  apply update_rows_keeps_unique; [reflexivity | discriminate | exact Huniq].
Qed.

Lemma forgotPassword_keeps_unique email w :
  (forall v, In v (users w) ->
             u_passwordResetToken v <> Some (uuidv4 (entropy w))) ->
  reset_tokens_unique (users w) ->
  reset_tokens_unique (users (snd (forgotPassword email w))).
Proof.
  intros Hfresh Huniq. pose proof (forgotPassword_run email w) as Hrun.
  destruct (find _ (users w)) as [u|]; rewrite Hrun; cbn [snd];
    [|exact Huniq].
  rewrite logSecurityEvent_users. cbn [users set_users].
  apply update_rows_fresh_token; assumption.
Qed.

Lemma login_keeps_unique dto ip ua w :
  reset_tokens_unique (users w) ->
  reset_tokens_unique (users (snd (login this dto ip ua w))).
Proof.
  intros Huniq.
  destruct (find (by_email (login_email dto)) (users w)) as [u|] eqn:Hfind.
  - destruct (UserStatus_eqb (u_status u) ACTIVE) eqn:Hstatus.
    + destruct (bcrypt_compare (login_password dto) (u_passwordHash u))
        eqn:Hcmp.
      * apply UserStatus_eqb_eq in Hstatus.
        rewrite (login_verified_users this dto ip ua w u Hfind Hstatus Hcmp).
        apply update_rows_keeps_unique; auto.
      * rewrite (proj1 (login_denied_frame this dto ip ua w
                   (or_intror (ex_intro _ u
                      (conj Hfind (or_intror Hcmp)))))).
        exact Huniq.
    + apply UserStatus_eqb_neq in Hstatus.
      rewrite (proj1 (login_denied_frame this dto ip ua w
                 (or_intror (ex_intro _ u
                    (conj Hfind (or_introl Hstatus)))))).
      exact Huniq.
  - rewrite (proj1 (login_denied_frame this dto ip ua w
               (or_introl Hfind))).
    exact Huniq.
Qed.

Lemma changePassword_keeps_unique userId dto w :
  reset_tokens_unique (users w) ->
  reset_tokens_unique (users (snd (changePassword this userId dto w))).
Proof.
  intros Huniq. unfold changePassword, bind, user_findUnique_id, gets.
  cbn [fst snd].
  destruct (find (by_id userId) (users w)) as [u|]; [|exact Huniq].
  destruct (negb (bcrypt_compare _ _)); [exact Huniq|].
  unfold user_update. destruct (existsb _ (users w)); [|exact Huniq].
  unfold modify. cbn [fst snd ret]. rewrite logSecurityEvent_users.
  cbn [users set_users].
  apply update_rows_keeps_unique; auto.
Qed.

(** [register] leaves the user table as it was or appends the new row. *)
Lemma register_users dto ip ua w :
  users (snd (register this dto ip ua w)) = users w
  \/ exists rid,
       users (snd (register this dto ip ua w))
         = users w ++ [new_user (reg_email dto) (reg_name dto)
                         (bcrypt_hash (reg_password dto)
                            (default 12 (BCRYPT_ROUNDS (configService this))))
                         rid w].
Proof.
  destruct (find (by_email (reg_email dto)) (users w)) as [u|] eqn:Hfind.
  { left. unfold register.
    rewrite (register_with_conflict this _ dto ip ua w u Hfind).
    apply logSecurityEvent_users. }
  destruct (resolved_role (reg_roleId dto) w) as [rid|] eqn:Hrole.
  - unfold register, register_with, try_catch, bind, user_findUnique_email,
      gets.
    simpl. rewrite Hfind. rewrite (resolve_role_run _ _ _ Hrole).
    unfold modify, user_create. simpl.
    destruct (existsb _ _ || existsb _ _).
    { left. simpl. rewrite logSecurityEvent_users. reflexivity. }
    destruct (find (role_by_id rid) (roles w)) as [r|].
    2:{ left. simpl. rewrite logSecurityEvent_users. reflexivity. }
    right. exists rid. simpl. unfold auditService_log.
    destruct (auditDown _); simpl; rewrite ?logSecurityEvent_users;
      [reflexivity|].
    match goal with
    | |- context [generateTokenPair this ?x ?w0] =>
        pose proof (generateTokenPair_world this x w0) as Hw;
        destruct (generateTokenPair this x w0) as [[pair|e] w']
    end; simpl in Hw; subst w'; simpl; rewrite ?logSecurityEvent_users;
      simpl; rewrite ?logSecurityEvent_users; reflexivity.
  - left. rewrite (register_no_default_role this dto ip ua w Hfind Hrole).
    apply logSecurityEvent_users.
Qed.

Lemma register_keeps_unique dto ip ua w :
  reset_tokens_unique (users w) ->
  reset_tokens_unique (users (snd (register this dto ip ua w))).
Proof.
  intros Huniq.
  destruct (register_users dto ip ua w) as [-> | [rid ->]]; [exact Huniq|].
  apply append_keeps_unique; [reflexivity | exact Huniq].
Qed.

End ResetTokenInvariant.

(** * Further properties of the service

    ** The outcomes of [login] *)

Section LoginOutcomes.

Context {C : Collaborators}.
Variable this : AuthService.

(** The run of a login that goes through. *)
Lemma login_success_run dto ip ua w u r :
  codec_accepts this ->
  find (by_email (login_email dto)) (users w) = Some u ->
  u_status u = ACTIVE ->
  bcrypt_compare (login_password dto) (u_passwordHash u) = true ->
  find (role_by_id (u_roleId u)) (roles w) = Some r ->
  login this dto ip ua w
    = (Ok {| ar_user := formatUserResponse {| row := u; role := Some r |};
             ar_tokens :=
               {| accessToken :=
                    Signed (AccessPayload (u_id u) (u_email u) (r_name r)
                              (permission_keys r))
                           {| secret := jwtSecret this;
                              expiresIn := jwtExpiresIn this |}
                           (registered_at (clock w));
                  refreshToken_of :=
                    Signed (RefreshPayload (u_id u) "refresh")
                           {| secret := jwtRefreshSecret this;
                              expiresIn := jwtRefreshExpiresIn this |}
                           (registered_at (clock w));
                  tp_expiresIn := jwtExpiresIn this |};
             ar_message := "Login successful" |},
       logSecurityEvent "LOGIN_SUCCESS" (Some (u_id u))
         (Some (login_email dto)) ip ua None
         (set_users (update_rows (u_id u) (set_lastLoginAt (clock w))
                       (users w)) w)).
Proof.
  intros [Haccess Hrefresh] Hfind Hactive Hcmp Hrole.
  unfold login, try_catch, bind, user_findUnique_email_include, gets.
  simpl. rewrite Hfind. simpl. rewrite Hactive, Hcmp. simpl.
  unfold user_update. rewrite (found_exists_by_id _ _ _ Hfind).
  unfold modify, generateTokenPair, include_role. simpl. rewrite Hrole.
  unfold bind, ret. simpl.
  rewrite jwt_sign_run by exact Haccess.
  rewrite jwt_sign_run by exact Hrefresh. simpl.
  rewrite logSecurityEvent_clock. reflexivity.
Qed.

Lemma login_not_found_run dto ip ua w :
  find (by_email (login_email dto)) (users w) = None ->
  login this dto ip ua w
    = (Throw (UnauthorizedException "Invalid credentials"),
       logSecurityEvent "LOGIN_FAILED" None (Some (login_email dto))
         ip ua (Some "User not found") w).
Proof.
  intros Hnone.
  unfold login, try_catch, bind, user_findUnique_email_include, gets.
  simpl. rewrite Hnone. reflexivity.
Qed.

Lemma login_wrong_password_run dto ip ua w u :
  find (by_email (login_email dto)) (users w) = Some u ->
  u_status u = ACTIVE ->
  bcrypt_compare (login_password dto) (u_passwordHash u) = false ->
  login this dto ip ua w
    = (Throw (UnauthorizedException "Invalid credentials"),
       logSecurityEvent "LOGIN_FAILED" (Some (u_id u))
         (Some (login_email dto)) ip ua (Some "Invalid password") w).
Proof.
  intros Hsome Hactive Hcmp.
  unfold login, try_catch, bind, user_findUnique_email_include, gets.
  simpl. rewrite Hsome. simpl. rewrite Hactive, Hcmp. reflexivity.
Qed.

Lemma login_inactive_run dto ip ua w u :
  find (by_email (login_email dto)) (users w) = Some u ->
  u_status u <> ACTIVE ->
  login this dto ip ua w
    = (Throw (UnauthorizedException "Account is inactive"),
       logSecurityEvent "LOGIN_FAILED" (Some (u_id u))
         (Some (login_email dto)) ip ua (Some "Account inactive") w).
Proof.
  intros Hfind Hstatus. apply UserStatus_eqb_neq in Hstatus.
  unfold login, try_catch, bind, user_findUnique_email_include, gets.
  simpl. rewrite Hfind. simpl. rewrite Hstatus. reflexivity.
Qed.

(** X1: a stored ACTIVE user who gives the password that verifies, and
    whose role is in the role table, is logged in: the response says
    "Login successful", its access token carries the role's name and
    its permission keys, the [permissions] of the returned user are the
    same keys, the stored record gets [lastLoginAt] = now, and the last
    row of the security log, when the write succeeds, is a successful
    LOGIN_SUCCESS for that user (the codec reading both configured
    lifetimes). *)
Theorem login_success dto ip ua w u r :
  codec_accepts this ->
  find (by_email (login_email dto)) (users w) = Some u ->
  u_status u = ACTIVE ->
  bcrypt_compare (login_password dto) (u_passwordHash u) = true ->
  find (role_by_id (u_roleId u)) (roles w) = Some r ->
  exists resp,
    fst (login this dto ip ua w) = Ok resp
    /\ ar_message resp = "Login successful"
    /\ accessToken (ar_tokens resp)
       = Signed (AccessPayload (u_id u) (u_email u) (r_name r)
                   (permission_keys r))
                {| secret := jwtSecret this;
                   expiresIn := jwtExpiresIn this |}
                (registered_at (clock w))
    /\ ar_user resp !! "permissions" = Some (JStrings (permission_keys r))
    /\ (forall v, In v (users (snd (login this dto ip ua w))) ->
        u_id v = u_id u -> u_lastLoginAt v = Some (clock w))
    /\ (securityLogDown w = false ->
        exists row,
          last (securityLogs (snd (login this dto ip ua w))) = Some row
          /\ sl_event row = "LOGIN_SUCCESS"
          /\ sl_userId row = Some (u_id u)
          /\ sl_success row = true).
Proof.
  intros Hcodec Hfind Hactive Hcmp Hrole.
  rewrite (login_success_run dto ip ua w u r Hcodec Hfind Hactive Hcmp Hrole).
  eexists. split; [reflexivity|]. split; [reflexivity|].
  split; [reflexivity|]. split.
  { unfold formatUserResponse. apply lookup_insert_eq. }
  split.
  - cbn [snd]. rewrite logSecurityEvent_users. cbn [users set_users].
    intros v Hin Hid. apply in_update_rows in Hin as (v0 & Hin0 & ->).
    destruct (by_id (u_id u) v0) eqn:Hby; [reflexivity|].
    unfold by_id in Hby. apply String.eqb_neq in Hby. congruence.
  - intros Hup. cbn [snd]. unfold logSecurityEvent. cbn [securityLogDown set_users].
    rewrite Hup. cbn [securityLogs set_securityLogs]. rewrite last_snoc.
    eexists. split; [reflexivity|]. auto.
Qed.

(** X2: for a stored user whose status is not ACTIVE the password is
    never looked at: whatever password comes with the email, login
    fails with Unauthorized "Account is inactive", hands the reason
    "Account inactive" to the security log and writes nothing else. *)
Theorem login_inactive_account dto ip ua w u :
  find (by_email (login_email dto)) (users w) = Some u ->
  u_status u <> ACTIVE ->
  login this dto ip ua w
    = (Throw (UnauthorizedException "Account is inactive"),
       logSecurityEvent "LOGIN_FAILED" (Some (u_id u))
         (Some (login_email dto)) ip ua (Some "Account inactive") w)
  /\ (forall password,
        login this {| login_email := login_email dto;
                      login_password := password |} ip ua w
          = login this dto ip ua w).
Proof.
  intros Hfind Hstatus.
  split; [apply (login_inactive_run dto ip ua w u Hfind Hstatus)|].
  intros password.
  rewrite (login_inactive_run dto ip ua w u Hfind Hstatus).
  apply (login_inactive_run
           {| login_email := login_email dto; login_password := password |}
           ip ua w u Hfind Hstatus).
Qed.

(** X3: whatever goes wrong, the only exception [login] lets out is an
    Unauthorized with one of three messages; store errors and type
    errors never reach the caller. *)
Theorem login_raises_only_unauthorized dto ip ua w :
  (exists resp, fst (login this dto ip ua w) = Ok resp)
  \/ fst (login this dto ip ua w)
     = Throw (UnauthorizedException "Invalid credentials")
  \/ fst (login this dto ip ua w)
     = Throw (UnauthorizedException "Account is inactive")
  \/ fst (login this dto ip ua w)
     = Throw (UnauthorizedException "Login failed").
Proof.
  unfold login, try_catch, bind, user_findUnique_email_include, gets, modify.
  cbn [fst snd].
  destruct (find _ (users w)) as [u|]; cbn [fmap option_fmap option_map];
    [|right; left; reflexivity].
  destruct (negb (UserStatus_eqb _ _)); [right; right; left; reflexivity|].
  destruct (negb (bcrypt_compare _ _)); [right; left; reflexivity|].
  cbn [Date_now gets]. unfold user_update.
  destruct (existsb _ (users w)); [|right; right; right; reflexivity].
  unfold generateTokenPair.
  destruct (role (include_role w u)).
  - unfold jwt_sign. cbn [expiresIn].
    destruct (jwt_timespan (jwtExpiresIn this));
      [|right; right; right; reflexivity].
    destruct (jwt_timespan (jwtRefreshExpiresIn this));
      [left; eexists; reflexivity | right; right; right; reflexivity].
  - right; right; right. reflexivity.
Qed.

End LoginOutcomes.

(** Alice logs in with her password. *)
Lemma login_success_witness :
  exists resp,
    fst (login (C:=demo) demo_service alice_login None None demo_world)
      = Ok resp
    /\ ar_message resp = "Login successful"
    /\ ar_user resp !! "permissions"
       = Some (JStrings ["products:read"; "orders:read"; "products:read"]).
Proof.
  destruct (login_success (C:=demo) demo_service alice_login None None
              demo_world alice subordinate demo_codec_accepts
              eq_refl eq_refl eq_refl eq_refl)
    as (resp & Hok & Hmsg & _ & Hperms & _).
  exists resp. auto.
Defined.

(** Bob is INACTIVE: his own password gets him the same refusal as a
    wrong one. *)
Lemma login_inactive_account_witness :
  fst (login (C:=demo) demo_service
         {| login_email := "bob@x.com"; login_password := "Secret#2" |}
         None None demo_world)
    = Throw (UnauthorizedException "Account is inactive")
  /\ login (C:=demo) demo_service
       {| login_email := "bob@x.com"; login_password := "Wrong" |}
       None None demo_world
     = login (C:=demo) demo_service
         {| login_email := "bob@x.com"; login_password := "Secret#2" |}
         None None demo_world.
Proof.
  assert (Hbob : u_status bob <> ACTIVE) by discriminate.
  destruct (login_inactive_account (C:=demo) demo_service
              {| login_email := "bob@x.com"; login_password := "Secret#2" |}
              None None demo_world bob eq_refl Hbob) as [Hrun Hany].
  split.
  - rewrite Hrun. reflexivity.
  - exact (Hany "Wrong").
Defined.

(** ** [validateUser] *)

Section ValidateUser.

Context {C : Collaborators}.
Variable this : AuthService.

(** When [validateUser] returns a user. *)
Lemma validateUser_returns_user email password w :
  (exists obj, fst (validateUser email password w) = Ok (Some obj))
  <-> exists u,
        find (by_email email) (users w) = Some u
        /\ u_status u = ACTIVE
        /\ bcrypt_compare password (u_passwordHash u) = true.
Proof.
  unfold validateUser, bind, user_findUnique_email_include, gets.
  cbn [fst snd].
  destruct (find (by_email email) (users w)) as [u|];
    cbn [fmap option_fmap option_map row include_role].
  - destruct (UserStatus_eqb (u_status u) ACTIVE) eqn:Hstatus.
    + destruct (bcrypt_compare password (u_passwordHash u)) eqn:Hcmp;
        cbn [ret fst snd].
      * apply UserStatus_eqb_eq in Hstatus. split; eauto.
      * split.
        -- intros [obj Hobj]. discriminate.
        -- intros (u' & [= <-] & _ & Hcmp'). congruence.
    + cbn [ret fst snd]. apply UserStatus_eqb_neq in Hstatus. split.
      * intros [obj Hobj]. discriminate.
      * intros (u' & [= <-] & Hactive & _). contradiction.
  - cbn [ret fst snd]. split.
    + intros [obj Hobj]. discriminate.
    + intros (u' & Hu' & _). discriminate.
Qed.

(** X4: [validateUser] writes nothing: the world after the call is
    the world before it (no log row, no [lastLoginAt]), which is what
    sets it apart from [login].  With the store and the hasher
    answering, it returns a user object exactly when the email is
    stored, the status is ACTIVE and the password verifies. *)
Theorem validateUser_decides_silently email password w :
  snd (validateUser email password w) = w
  /\ ((exists obj, fst (validateUser email password w) = Ok (Some obj))
      <-> exists u,
            find (by_email email) (users w) = Some u
            /\ u_status u = ACTIVE
            /\ bcrypt_compare password (u_passwordHash u) = true).
Proof.
  split; [|apply validateUser_returns_user].
  unfold validateUser, bind, user_findUnique_email_include, gets.
  cbn [fst snd].
  destruct (find (by_email email) (users w)) as [u|];
    cbn [fmap option_fmap option_map row include_role]; [|reflexivity].
  destruct (UserStatus_eqb (u_status u) ACTIVE); [|reflexivity].
  destruct (bcrypt_compare password (u_passwordHash u)); reflexivity.
Qed.

(** X5: in a store where the user found by the email has its role,
    and with the codec reading both configured lifetimes,
    [validateUser] returns a user exactly when [login] with the same
    email and password succeeds. *)
Theorem validateUser_agrees_with_login dto ip ua w :
  codec_accepts this ->
  (forall u, find (by_email (login_email dto)) (users w) = Some u ->
             exists r, find (role_by_id (u_roleId u)) (roles w) = Some r) ->
  (exists obj,
     fst (validateUser (login_email dto) (login_password dto) w)
       = Ok (Some obj))
  <-> (exists resp, fst (login this dto ip ua w) = Ok resp).
Proof.
  intros Hcodec Hroles.
  rewrite (validateUser_returns_user (login_email dto) (login_password dto) w).
  split.
  - intros (u & Hfind & Hactive & Hcmp).
    destruct (Hroles u Hfind) as [r Hrole].
    rewrite (login_success_run this dto ip ua w u r Hcodec Hfind Hactive Hcmp
               Hrole).
    eauto.
  - intros [resp Hok].
    destruct (find (by_email (login_email dto)) (users w)) as [u|] eqn:Hfind.
    + destruct (UserStatus_eqb (u_status u) ACTIVE) eqn:Hstatus.
      * destruct (bcrypt_compare (login_password dto) (u_passwordHash u))
          eqn:Hcmp.
        -- apply UserStatus_eqb_eq in Hstatus. eauto.
        -- apply UserStatus_eqb_eq in Hstatus.
           rewrite (login_wrong_password_run this dto ip ua w u
                      Hfind Hstatus Hcmp) in Hok.
           discriminate.
      * apply UserStatus_eqb_neq in Hstatus.
        rewrite (login_inactive_run this dto ip ua w u Hfind Hstatus) in Hok.
        discriminate.
    + rewrite (login_not_found_run this dto ip ua w Hfind) in Hok.
      discriminate.
Qed.

End ValidateUser.

(** In the demo store the roles of all users exist, and the two paths
    agree on Alice with a wrong password. *)
Lemma validateUser_agrees_with_login_witness :
  (exists obj,
     fst (validateUser (C:=demo) "alice@x.com" "Secret#1" demo_world)
       = Ok (Some obj))
  <-> (exists resp,
         fst (login (C:=demo) demo_service alice_login None None demo_world)
           = Ok resp).
Proof.
  apply (validateUser_agrees_with_login (C:=demo) demo_service alice_login
           None None demo_world demo_codec_accepts).
  intros u Hfind. injection Hfind as <-. exists subordinate. reflexivity.
Defined.

(** ** [logout], [changePassword] and [refreshToken] *)

Section SessionOperations.

Context {C : Collaborators}.
Variable this : AuthService.

Lemma logSecurityEvent_same ev uid em ip ua err w :
  same_but_security_log (logSecurityEvent ev uid em ip ua err w) w.
Proof.
  unfold same_but_security_log, logSecurityEvent.
  destruct (securityLogDown w); repeat split.
Qed.

Lemma logout_run userId ip ua w :
  logout userId ip ua w
    = (Ok {| message := "Logout successful" |},
       match find (by_id userId) (users w) with
       | Some u => logSecurityEvent "LOGOUT" (Some userId) (Some (u_email u))
                     ip ua None w
       | None => w
       end).
Proof.
  unfold logout, logout_with, try_catch, bind, user_findUnique_id, gets.
  cbn [fst snd].
  destruct (find (by_id userId) (users w)); reflexivity.
Qed.

(** X6: [logout] never raises and invalidates nothing.  When the
    lookup of the user returns, the answer is "Logout successful", with
    a LOGOUT event for a known user and no write for an unknown one;
    when the lookup rejects, the handler reports to the logger and the
    answer is "Logout completed".  Against the store no user and no role
    is touched, an unknown user id leaves the world as it was, and no
    token is invalidated: whatever [refreshToken] answered to a token
    before the logout, it answers after it. *)
Theorem logout_invalidates_nothing lookup userId ip ua w :
  (forall found w1,
     lookup userId w = (Ok found, w1) ->
     logout_with lookup userId ip ua w
       = (Ok {| message := "Logout successful" |},
          match found with
          | Some u => logSecurityEvent "LOGOUT" (Some userId)
                        (Some (u_email u)) ip ua None w1
          | None => w1
          end))
  /\ (forall e w1,
        lookup userId w = (Throw e, w1) ->
        logout_with lookup userId ip ua w
          = (Ok {| message := "Logout completed" |},
             set_loggerErrors (loggerErrors w1 ++ ["Logout error:"]) w1))
  /\ (exists answer, fst (logout_with lookup userId ip ua w) = Ok answer)
  /\ users (snd (logout userId ip ua w)) = users w
  /\ roles (snd (logout userId ip ua w)) = roles w
  /\ (find (by_id userId) (users w) = None ->
      snd (logout userId ip ua w) = w)
  /\ (forall tok,
        fst (refreshToken this tok (snd (logout userId ip ua w)))
          = fst (refreshToken this tok w)).
Proof.
  split; [|split; [|split]].
  - intros found w1 Hlookup. unfold logout_with, try_catch, bind.
    rewrite Hlookup. destruct found; reflexivity.
  - intros e w1 Hlookup. unfold logout_with, try_catch, bind.
    rewrite Hlookup. reflexivity.
  - unfold logout_with, try_catch, bind.
    destruct (lookup userId w) as [[[u|]|e] w1]; eexists; reflexivity.
  - rewrite logout_run. cbn [fst snd].
    destruct (find (by_id userId) (users w)) as [u|].
    + rewrite logSecurityEvent_users, logSecurityEvent_roles.
      repeat (split; [reflexivity|]). split; [discriminate|].
      intros tok. apply (contained_refreshToken this tok).
      apply logSecurityEvent_same.
    + repeat (split; [reflexivity|]). split; reflexivity.
Qed.

(** X7: [changePassword] refuses an unknown user id with Unauthorized
    "User not found" and a wrong current password with BadRequest
    "Current password is incorrect", changing nothing in either case.
    With the right current password it stores the hash of the new
    password on the records with that id and hands PASSWORD_CHANGE to
    the security log; ids, emails, statuses, roles and pending reset
    tokens with their expiries stay as they were, for every user. *)
Theorem changePassword_outcomes userId dto w :
  (find (by_id userId) (users w) = None ->
   changePassword this userId dto w
     = (Throw (UnauthorizedException "User not found"), w))
  /\ (forall u,
        find (by_id userId) (users w) = Some u ->
        (bcrypt_compare (currentPassword dto) (u_passwordHash u) = false ->
         changePassword this userId dto w
           = (Throw (BadRequestException "Current password is incorrect"), w))
        /\ (bcrypt_compare (currentPassword dto) (u_passwordHash u) = true ->
            let h := bcrypt_hash (cp_newPassword dto)
                       (default 12 (BCRYPT_ROUNDS (configService this))) in
            let w' := snd (changePassword this userId dto w) in
            changePassword this userId dto w
              = (Ok {| message := "Password changed successfully" |},
                 logSecurityEvent "PASSWORD_CHANGE" (Some userId)
                   (Some (u_email u)) None None None
                   (set_users (update_rows userId (set_passwordHash h)
                                 (users w)) w))
            /\ (forall v, In v (users w') -> u_id v = userId ->
                          u_passwordHash v = h)
            /\ (forall v, In v (users w') -> u_id v <> userId ->
                          In v (users w))
            /\ map u_id (users w') = map u_id (users w)
            /\ map u_email (users w') = map u_email (users w)
            /\ map u_status (users w') = map u_status (users w)
            /\ map u_roleId (users w') = map u_roleId (users w)
            /\ map u_passwordResetToken (users w')
               = map u_passwordResetToken (users w)
            /\ map u_passwordResetExpires (users w')
               = map u_passwordResetExpires (users w))).
Proof.
  split.
  - intros Hnone. unfold changePassword, bind, user_findUnique_id, gets.
    cbn [fst snd]. rewrite Hnone. reflexivity.
  - intros u Hfind. split.
    + intros Hcmp. unfold changePassword, bind, user_findUnique_id, gets.
      cbn [fst snd]. rewrite Hfind, Hcmp. reflexivity.
    + intros Hcmp.
      assert (Hrun : changePassword this userId dto w
        = (Ok {| message := "Password changed successfully" |},
           logSecurityEvent "PASSWORD_CHANGE" (Some userId)
             (Some (u_email u)) None None None
             (set_users
                (update_rows userId
                   (set_passwordHash
                      (bcrypt_hash (cp_newPassword dto)
                         (default 12 (BCRYPT_ROUNDS (configService this)))))
                   (users w)) w))).
      { unfold changePassword, bind, user_findUnique_id, gets.
        cbn [fst snd]. rewrite Hfind, Hcmp. cbn [negb].
        unfold user_update.
        assert (Hex : existsb (by_id userId) (users w) = true).
        { apply find_some in Hfind as [Hin Hby]. apply existsb_exists.
          eauto. }
        rewrite Hex. reflexivity. }
      cbv zeta. rewrite Hrun. cbn [snd].
      rewrite logSecurityEvent_users. cbn [users set_users].
      split; [reflexivity|].
      split.
      { intros v Hin Hid. apply in_update_rows in Hin as (v0 & Hin0 & ->).
        destruct (by_id userId v0) eqn:Hby; [reflexivity|].
        unfold by_id in Hby. apply String.eqb_neq in Hby. contradiction. }
      split.
      { intros v Hin Hid. apply in_update_rows in Hin as (v0 & Hin0 & ->).
        destruct (by_id userId v0) eqn:Hby; [|exact Hin0].
        unfold by_id in Hby. apply String.eqb_eq in Hby. simpl in Hid.
        contradiction. }
      unfold update_rows. rewrite !map_map.
      repeat split; apply map_ext; intros v;
        destruct (by_id userId v); reflexivity.
Qed.

(** X8: [refreshToken] is a pure read: it leaves the world exactly as
    it found it (no log row, no revocation, nothing stored about the
    token), and every failure, whatever its cause, reaches the caller
    as Unauthorized "Invalid refresh token". *)
Theorem refreshToken_reads_only tok w :
  snd (refreshToken this tok w) = w
  /\ ((exists pair, fst (refreshToken this tok w) = Ok pair)
      \/ fst (refreshToken this tok w)
         = Throw (UnauthorizedException "Invalid refresh token")).
Proof.
  pose proof (jwt_verify_world tok (jwtRefreshSecret this) w) as Hworld.
  unfold refreshToken, try_catch, bind, user_findUnique_id_include, gets.
  destruct (jwt_verify tok (jwtRefreshSecret this) w) as [[p|e] w1];
    cbn [snd] in Hworld; subst w1; cbn [fst snd];
    [|split; [reflexivity | right; reflexivity]].
  destruct (find (by_id (payload_sub p)) (users w)) as [u|];
    cbn [fmap option_fmap option_map];
    [|split; [reflexivity | right; reflexivity]].
  destruct (negb (UserStatus_eqb _ _));
    [split; [reflexivity | right; reflexivity]|].
  pose proof (generateTokenPair_world this (include_role w u) w) as Hgen.
  destruct (generateTokenPair this (include_role w u) w) as [[pair|e] w1];
    cbn [snd] in Hgen; subst w1;
    [split; [reflexivity | left; eexists; reflexivity]
    |split; [reflexivity | right; reflexivity]].
Qed.

End SessionOperations.

(** Logging out Alice leaves her refresh token as good as before; with
    the store out of reach the call still answers. *)
Lemma logout_invalidates_nothing_witness :
  snd (logout "u-nobody" None None demo_world) = demo_world
  /\ fst (refreshToken (C:=demo) demo_service alice_refresh_token
            (snd (logout "u-alice" None None demo_world)))
     = fst (refreshToken (C:=demo) demo_service alice_refresh_token
              demo_world)
  /\ fst (logout_with store_unreachable "u-alice" None None demo_world)
     = Ok {| message := "Logout completed" |}.
Proof.
  destruct (logout_invalidates_nothing (C:=demo) demo_service
              user_findUnique_id "u-nobody" None None demo_world)
    as (_ & _ & _ & _ & _ & Hunknown & _).
  destruct (logout_invalidates_nothing (C:=demo) demo_service
              user_findUnique_id "u-alice" None None demo_world)
    as (_ & _ & _ & _ & _ & _ & Htokens).
  destruct (logout_invalidates_nothing (C:=demo) demo_service
              store_unreachable "u-alice" None None demo_world)
    as (_ & Hrejects & _).
  split; [exact (Hunknown eq_refl)|].
  split; [exact (Htokens alice_refresh_token)|].
  rewrite (Hrejects _ _ eq_refl). reflexivity.
Defined.

(** Alice changes her password; the reset she has pending stays. *)
Lemma changePassword_outcomes_witness :
  fst (changePassword (C:=demo) demo_service "u-alice" alice_change
         demo_world)
    = Ok {| message := "Password changed successfully" |}
  /\ map u_passwordResetToken
       (users (snd (changePassword (C:=demo) demo_service "u-alice"
                      alice_change demo_world)))
     = [Some "tok-alice"; None]
  /\ fst (changePassword (C:=demo) demo_service "u-nobody" alice_change
            demo_world)
     = Throw (UnauthorizedException "User not found").
Proof.
  destruct (changePassword_outcomes (C:=demo) demo_service "u-alice"
              alice_change demo_world) as [_ Hknown].
  destruct (proj2 (Hknown alice eq_refl) eq_refl)
    as (Hrun & _ & _ & _ & _ & _ & _ & Htokens & _).
  split; [rewrite Hrun; reflexivity|]. split; [exact Htokens|].
  rewrite (proj1 (changePassword_outcomes (C:=demo) demo_service "u-nobody"
                    alice_change demo_world) eq_refl).
  reflexivity.
Defined.

(** ** Issued tokens presented again *)

Section TokenRoundTrip.

Context {C : Collaborators}.
Variable this : AuthService.

(** X9: with two different secrets configured, an access token issued
    by the service is refused as a refresh token, at any time and in
    any state of the store. *)
Theorem access_token_is_no_refresh_token user w pair w' :
  jwtSecret this <> jwtRefreshSecret this ->
  fst (generateTokenPair this user w) = Ok pair ->
  refreshToken this (accessToken pair) w'
    = (Throw (UnauthorizedException "Invalid refresh token"), w').
Proof.
  intros Hsecrets Hpair.
  destruct (generateTokenPair_Ok_inv this user w pair Hpair)
    as [Hcodec [r Hrole]].
  rewrite (generateTokenPair_run this user r w Hcodec Hrole) in Hpair.
  injection Hpair as <-. cbn [accessToken].
  unfold refreshToken, try_catch, bind, jwt_verify. cbn [secret].
  apply String.eqb_neq in Hsecrets. rewrite Hsecrets. reflexivity.
Qed.

(** X10: the refresh token of an issued pair is accepted back for as
    long as the codec does not find it expired: for a subject that is
    still stored, ACTIVE and has its role, [refreshToken] answers with
    a new pair for the same subject, built from the record and the
    role as they are at that time. *)
Theorem issued_refresh_token_is_accepted user w pair w' u r :
  fst (generateTokenPair this user w) = Ok pair ->
  jwt_expired (jwtRefreshExpiresIn this) (clock w) (clock w') = false ->
  find (by_id (u_id (row user))) (users w') = Some u ->
  u_status u = ACTIVE ->
  find (role_by_id (u_roleId u)) (roles w') = Some r ->
  exists pair',
    refreshToken this (refreshToken_of pair) w' = (Ok pair', w')
    /\ accessToken pair'
       = Signed (AccessPayload (u_id u) (u_email u) (r_name r)
                   (permission_keys r))
                {| secret := jwtSecret this;
                   expiresIn := jwtExpiresIn this |}
                (registered_at (clock w'))
    /\ refreshToken_of pair'
       = Signed (RefreshPayload (u_id u) "refresh")
                {| secret := jwtRefreshSecret this;
                   expiresIn := jwtRefreshExpiresIn this |}
                (registered_at (clock w')).
Proof.
  intros Hpair Hfresh Hfind Hactive Hrole.
  destruct (generateTokenPair_Ok_inv this user w pair Hpair)
    as [Hcodec [r0 Hrole0]].
  rewrite (generateTokenPair_run this user r0 w Hcodec Hrole0) in Hpair.
  injection Hpair as <-. cbn [refreshToken_of].
  unfold refreshToken, try_catch, bind, jwt_verify,
    user_findUnique_id_include, gets.
  cbn [secret expiresIn iat registered_at].
  rewrite String.eqb_refl, Hfresh. cbn [negb fst snd].
  cbn [payload_sub]. rewrite Hfind. cbn [fmap option_fmap option_map].
  cbn [row include_role]. rewrite Hactive. cbn [UserStatus_eqb negb].
  rewrite (generateTokenPair_run this _ r w' Hcodec)
    by (unfold include_role; cbn [role row]; exact Hrole).
  eexists. split; [reflexivity|]. split; reflexivity.
Qed.

End TokenRoundTrip.

(** Alice's access token is refused at the refresh endpoint. *)
Lemma access_token_is_no_refresh_token_witness :
  exists pair,
    fst (generateTokenPair (C:=demo) demo_service
           {| row := alice; role := Some subordinate |} demo_world) = Ok pair
    /\ fst (refreshToken (C:=demo) demo_service (accessToken pair) demo_world)
       = Throw (UnauthorizedException "Invalid refresh token").
Proof.
  eexists. split; [reflexivity|].
  assert (Hsecrets : jwtSecret demo_service <> jwtRefreshSecret demo_service)
    by discriminate.
  rewrite (access_token_is_no_refresh_token (C:=demo) demo_service
             {| row := alice; role := Some subordinate |} demo_world _
             demo_world Hsecrets eq_refl).
  reflexivity.
Defined.

(** The refresh token issued to Alice as a Subordinate, presented
    after her promotion, yields a Manager's access token. *)
Lemma issued_refresh_token_is_accepted_witness :
  exists pair pair',
    fst (generateTokenPair (C:=demo) demo_service
           {| row := alice; role := Some subordinate |} demo_world) = Ok pair
    /\ refreshToken (C:=demo) demo_service (refreshToken_of pair)
         promoted_world = (Ok pair', promoted_world)
    /\ accessToken pair'
       = Signed (AccessPayload "u-alice" "alice@x.com" "Manager"
                   ["products:write"; "orders:write"])
                {| secret := "access-secret"; expiresIn := "15m" |}
                (registered_at 1000000).
Proof.
  destruct (issued_refresh_token_is_accepted (C:=demo) demo_service
              {| row := alice; role := Some subordinate |} demo_world _
              promoted_world alice_promoted manager
              eq_refl eq_refl eq_refl eq_refl eq_refl)
    as (pair' & Hrun & Haccess & _).
  eexists _, pair'. split; [reflexivity|]. split; [exact Hrun|exact Haccess].
Defined.

(** ** What no operation does to the world *)

Section ServiceSteps.

Context {C : Collaborators}.
Variable this : AuthService.

Lemma service_step_refl w : service_step w w.
Proof.
  unfold service_step. repeat (split; [reflexivity|]).
  repeat (split; [exists []; symmetry; apply app_nil_r|]).
  split; auto.
Qed.

Lemma service_step_trans w1 w2 w3 :
  service_step w1 w2 -> service_step w2 w3 -> service_step w1 w3.
Proof.
  intros (Hr & Hc & Hs & Ha & [ls Hls] & [la Hla] & [li Hli] & [le Hle]
          & Hni & Hne)
         (Hr' & Hc' & Hs' & Ha' & [ls' Hls'] & [la' Hla'] & [li' Hli']
          & [le' Hle'] & Hni' & Hne').
  unfold service_step.
  split; [congruence|]. split; [congruence|]. split; [congruence|].
  split; [congruence|].
  split; [exists (ls ++ ls'); rewrite Hls', Hls, app_assoc; reflexivity|].
  split; [exists (la ++ la'); rewrite Hla', Hla, app_assoc; reflexivity|].
  split; [exists (li ++ li'); rewrite Hli', Hli, app_assoc; reflexivity|].
  split; [exists (le ++ le'); rewrite Hle', Hle, app_assoc; reflexivity|].
  split; auto.
Qed.

Lemma steps_ret {A} (a : A) : steps (ret a).
Proof. intros w. apply service_step_refl. Qed.

Lemma steps_throw {A} (e : Exception) : steps (@throw A e).
Proof. intros w. apply service_step_refl. Qed.

Lemma steps_gets {A} (f : World -> A) : steps (gets f).
Proof. intros w. apply service_step_refl. Qed.

Lemma steps_bind {A B} (m : M A) (k : A -> M B) :
  steps m -> (forall a, steps (k a)) -> steps (bind m k).
Proof.
  intros Hm Hk w. unfold bind. specialize (Hm w).
  destruct (m w) as [[a|e] w1]; cbn [snd] in *; [|exact Hm].
  apply (service_step_trans _ _ _ Hm), Hk.
Qed.

Lemma steps_try_catch {A} (m : M A) (handler : Exception -> M A) :
  steps m -> (forall e, steps (handler e)) -> steps (try_catch m handler).
Proof.
  intros Hm Hh w. unfold try_catch. specialize (Hm w).
  destruct (m w) as [[a|e] w1]; cbn [snd] in *; [exact Hm|].
  apply (service_step_trans _ _ _ Hm), Hh.
Qed.

(** A write to the security log, or the report of its failure, is a
    step. *)
Lemma steps_logSecurityEvent ev uid em ip ua err :
  steps (modify (logSecurityEvent ev uid em ip ua err)).
Proof.
  intros w. unfold modify, logSecurityEvent. cbn [snd].
  destruct (securityLogDown w) eqn:Hdown; unfold service_step;
    cbn [roles clock securityLogDown auditDown securityLogs auditLogs users
         set_loggerErrors set_securityLogs];
    repeat (split; [first [reflexivity | assumption
                          | eexists; reflexivity
                          | exists []; symmetry; apply app_nil_r]|]);
    split; auto.
Qed.

Lemma steps_logger_error line :
  steps (modify (fun w => set_loggerErrors (loggerErrors w ++ [line]) w)).
Proof.
  intros w. unfold modify, service_step.
  cbn [snd roles clock securityLogDown auditDown securityLogs auditLogs users
       set_loggerErrors].
  repeat (split; [first [reflexivity
                        | exists []; symmetry; apply app_nil_r]|]).
  split; auto.
Qed.

Lemma steps_no_interference : steps (modify (fun w => w)).
Proof. intros w. apply service_step_refl. Qed.

(** An update whose [data] names neither the id nor the email. *)
Lemma steps_user_update id f :
  (forall u, u_id (f u) = u_id u) ->
  (forall u, u_email (f u) = u_email u) ->
  steps (user_update id f).
Proof.
  intros Hid Hemail w. unfold user_update.
  destruct (existsb (by_id id) (users w)); cbn [snd];
    [|apply service_step_refl].
  assert (Hids : map u_id (update_rows id f (users w)) = map u_id (users w)).
  { unfold update_rows. rewrite map_map. apply map_ext. intros u.
    destruct (by_id id u); auto. }
  assert (Hemails :
    map u_email (update_rows id f (users w)) = map u_email (users w)).
  { unfold update_rows. rewrite map_map. apply map_ext. intros u.
    destruct (by_id id u); auto. }
  unfold service_step.
  cbn [roles clock securityLogDown auditDown securityLogs auditLogs users
       set_users].
  rewrite Hids, Hemails.
  repeat (split; [first [reflexivity
                        | exists []; symmetry; apply app_nil_r]|]).
  split; auto.
Qed.

Lemma existsb_false_not_in {A} (key : User -> A) (test : User -> bool) k us :
  (forall u, test u = false -> key u <> k) ->
  existsb test us = false -> ~ In k (map key us).
Proof.
  intros Htest Hex Hin. apply in_map_iff in Hin as (u & Hk & Hin).
  assert (Hu : test u = false).
  { destruct (test u) eqn:Htu; [|reflexivity].
    assert (existsb test us = true) by (apply existsb_exists; eauto).
    congruence. }
  exact (Htest u Hu Hk).
Qed.

Lemma service_step_entropy n w : service_step w (set_entropy n w).
Proof.
  unfold service_step.
  cbn [roles clock securityLogDown auditDown securityLogs auditLogs users
       set_entropy].
  repeat (split; [first [reflexivity
                        | exists []; symmetry; apply app_nil_r]|]).
  split; auto.
Qed.

(** The insert: refused, or one row at the end whose id and email are
    new. *)
Lemma steps_user_create email name hash rid :
  steps (user_create email name hash rid).
Proof.
  intros w. unfold user_create.
  destruct (existsb (by_email email) (users w)) eqn:Hemail;
    [cbn [orb snd]; apply service_step_entropy|].
  destruct (existsb (by_id _) (users w)) eqn:Hid;
    [cbn [orb snd]; apply service_step_entropy|].
  cbn [orb].
  destruct (find (role_by_id rid) (roles w)); cbn [snd];
    [|apply service_step_entropy].
  unfold service_step.
  cbn [roles clock securityLogDown auditDown securityLogs auditLogs users
       set_users set_entropy].
  rewrite !map_app.
  repeat (split; [first [reflexivity | eexists; reflexivity
                        | exists []; symmetry; apply app_nil_r]|]).
  split.
  - intros Hnodup. apply NoDup_app. split; [exact Hnodup|]. split.
    + intros x Hx Hx'. apply list_elem_of_In in Hx.
      apply list_elem_of_singleton in Hx'. subst x. revert Hx.
      apply (existsb_false_not_in u_id (by_id _) _ _) with (2 := Hid).
      intros u Hu. unfold by_id in Hu. apply String.eqb_neq in Hu. exact Hu.
    + apply NoDup_singleton.
  - intros Hnodup. apply NoDup_app. split; [exact Hnodup|]. split.
    + intros x Hx Hx'. apply list_elem_of_In in Hx.
      apply list_elem_of_singleton in Hx'. subst x. revert Hx.
      apply (existsb_false_not_in u_email (by_email email) _ _)
        with (2 := Hemail).
      intros u Hu. unfold by_email in Hu. apply String.eqb_neq in Hu.
      exact Hu.
    + apply NoDup_singleton.
Qed.

Lemma steps_auditService_log entry : steps (auditService_log entry).
Proof.
  intros w. unfold auditService_log.
  destruct (auditDown w) eqn:Hdown; cbn [snd]; [apply service_step_refl|].
  unfold service_step.
  cbn [roles clock securityLogDown auditDown securityLogs auditLogs users
       set_auditLogs].
  repeat (split; [first [reflexivity | eexists; reflexivity
                        | exists []; symmetry; apply app_nil_r]|]).
  split; auto.
Qed.

Lemma steps_draw_uuid : steps draw_uuid.
Proof. intros w. apply service_step_entropy. Qed.

Lemma steps_jwt_verify tok sec : steps (jwt_verify tok sec).
Proof.
  intros w. rewrite jwt_verify_world. apply service_step_refl.
Qed.

Lemma steps_generateTokenPair user : steps (generateTokenPair this user).
Proof.
  intros w. rewrite generateTokenPair_world. apply service_step_refl.
Qed.

Lemma steps_getDefaultRoleId : steps getDefaultRoleId.
Proof.
  unfold getDefaultRoleId. apply steps_bind; [apply steps_gets|].
  intros [r|]; [apply steps_ret | apply steps_throw].
Qed.

(** One step of a proof that an operation only makes service steps. *)
Ltac step_through :=
  first
    [ apply steps_ret
    | apply steps_throw
    | apply steps_gets
    | apply steps_logSecurityEvent
    | apply steps_logger_error
    | apply steps_no_interference
    | apply steps_user_update; intros; reflexivity
    | apply steps_user_create
    | apply steps_auditService_log
    | apply steps_draw_uuid
    | apply steps_jwt_verify
    | apply steps_generateTokenPair
    | apply steps_getDefaultRoleId
    | apply steps_try_catch; [|intros ?]
    | apply steps_bind; [|intros ?]
    | match goal with
      | |- steps (match ?x with _ => _ end) => destruct x
      end ].

Lemma steps_register dto ip ua : steps (register this dto ip ua).
Proof. unfold register, register_with. repeat step_through. Qed.

Lemma steps_login dto ip ua : steps (login this dto ip ua).
Proof.
  unfold login, user_findUnique_email_include, Date_now.
  repeat step_through.
Qed.

Lemma steps_refreshToken tok : steps (refreshToken this tok).
Proof.
  unfold refreshToken, user_findUnique_id_include. repeat step_through.
Qed.

Lemma steps_logout userId ip ua : steps (logout userId ip ua).
Proof.
  unfold logout, logout_with, user_findUnique_id. repeat step_through.
Qed.

Lemma steps_changePassword userId dto : steps (changePassword this userId dto).
Proof. unfold changePassword, user_findUnique_id. repeat step_through. Qed.

Lemma steps_forgotPassword email : steps (forgotPassword email).
Proof.
  unfold forgotPassword, user_findUnique_email, Date_now.
  repeat step_through.
Qed.

Lemma steps_resetPassword dto : steps (resetPassword this dto).
Proof. unfold resetPassword, user_findFirst_reset. repeat step_through. Qed.

Lemma steps_validateUser email password : steps (validateUser email password).
Proof.
  unfold validateUser, user_findUnique_email_include. repeat step_through.
Qed.

(** A failed registration ends in the handler of [register]. *)
Lemma register_failure_world dto ip ua w e :
  fst (register this dto ip ua w) = Throw e ->
  exists w0,
    service_step w w0
    /\ snd (register this dto ip ua w)
       = logSecurityEvent "REGISTER_FAILED" None (Some (reg_email dto)) ip ua
           (Some (message_of e)) w0.
Proof.
  unfold register, register_with, try_catch.
  match goal with
  | |- context [let (_, _) := ?body w in _] =>
      assert (Hbody : steps body) by (repeat step_through);
      specialize (Hbody w); destruct (body w) as [[resp|e'] w0]
  end; cbn [fst snd] in *; [discriminate|].
  unfold bind, modify, throw. cbn [fst snd].
  intros [= <-]. exists w0. split; [exact Hbody | reflexivity].
Qed.

(** X11: the security log and the audit trail are append-only for the
    service: after any of the eight public operations both are what
    they were before with zero or more rows added at the end; no row is
    ever changed, removed or reordered. *)
Theorem logs_are_append_only w :
  let appended {A} (m : M A) :=
    (exists rows, securityLogs (snd (m w)) = securityLogs w ++ rows)
    /\ (exists rows, auditLogs (snd (m w)) = auditLogs w ++ rows) in
  (forall dto ip ua, appended (register this dto ip ua))
  /\ (forall dto ip ua, appended (login this dto ip ua))
  /\ (forall tok, appended (refreshToken this tok))
  /\ (forall userId ip ua, appended (logout userId ip ua))
  /\ (forall userId dto, appended (changePassword this userId dto))
  /\ (forall email, appended (forgotPassword email))
  /\ (forall dto, appended (resetPassword this dto))
  /\ (forall email password, appended (validateUser email password)).
Proof.
  intros appended. unfold appended.
  repeat apply conj; intros;
    match goal with
    | |- context [snd (?m w)] =>
        assert (Hstep : service_step w (snd (m w)))
    end;
    first [ apply steps_register | apply steps_login | apply steps_refreshToken
          | apply steps_logout | apply steps_changePassword
          | apply steps_forgotPassword | apply steps_resetPassword
          | apply steps_validateUser
          | destruct Hstep as (_ & _ & _ & _ & Hs & Ha & _);
            split; assumption ].
Qed.

(** X12: no operation deletes, reorders or re-identifies a user, and
    none writes to the roles: after any of the eight public operations
    the role table is unchanged, the ids and the emails of the user
    table are the old sequences with zero or more entries added at the
    end, and ids and emails that were unique before are unique
    after. *)
Theorem user_identities_are_stable w :
  let stable {A} (m : M A) :=
    roles (snd (m w)) = roles w
    /\ (exists ids, map u_id (users (snd (m w))) = map u_id (users w) ++ ids)
    /\ (exists emails,
          map u_email (users (snd (m w))) = map u_email (users w) ++ emails)
    /\ (NoDup (map u_id (users w)) -> NoDup (map u_id (users (snd (m w)))))
    /\ (NoDup (map u_email (users w)) ->
        NoDup (map u_email (users (snd (m w))))) in
  (forall dto ip ua, stable (register this dto ip ua))
  /\ (forall dto ip ua, stable (login this dto ip ua))
  /\ (forall tok, stable (refreshToken this tok))
  /\ (forall userId ip ua, stable (logout userId ip ua))
  /\ (forall userId dto, stable (changePassword this userId dto))
  /\ (forall email, stable (forgotPassword email))
  /\ (forall dto, stable (resetPassword this dto))
  /\ (forall email password, stable (validateUser email password)).
Proof.
  intros stable. unfold stable.
  repeat apply conj; intros;
    match goal with
    | |- context [snd (?m w)] =>
        assert (Hstep : service_step w (snd (m w)))
    end;
    first [ apply steps_register | apply steps_login | apply steps_refreshToken
          | apply steps_logout | apply steps_changePassword
          | apply steps_forgotPassword | apply steps_resetPassword
          | apply steps_validateUser
          | destruct Hstep as (Hr & _ & _ & _ & _ & _ & Hi & He & Hni & Hne);
            repeat apply conj; assumption ].
Qed.

End ServiceSteps.

(** ** Operations in sequence *)

Section Sequences.

Context {C : Collaborators}.
Variable this : AuthService.

Lemma find_map_stable {A} (p : A -> bool) (g : A -> A) (l : list A) :
  (forall x, p (g x) = p x) ->
  find p (map g l) = g <$> find p l.
Proof.
  intros Hp. induction l as [|x l IH]; [reflexivity|].
  cbn [map find]. rewrite Hp. destruct (p x); [reflexivity | exact IH].
Qed.

Lemma find_append {A} (p : A -> bool) (l k : list A) :
  find p (l ++ k)
    = match find p l with Some x => Some x | None => find p k end.
Proof.
  induction l as [|x l IH]; [reflexivity|].
  cbn [app find]. destruct (p x); [reflexivity | exact IH].
Qed.

(** The user an email finds after an update that keeps emails. *)
Lemma find_by_email_updated email id f us u :
  (forall v, u_email (f v) = u_email v) ->
  find (by_email email) us = Some u ->
  u_id u = id ->
  find (by_email email) (update_rows id f us) = Some (f u).
Proof.
  intros Hemail Hfind Hid. unfold update_rows.
  rewrite find_map_stable.
  - rewrite Hfind. cbn. unfold by_id. rewrite Hid, String.eqb_refl.
    reflexivity.
  - intros v. unfold by_email. destruct (by_id id v); [|reflexivity].
    rewrite Hemail. reflexivity.
Qed.

(** How [login] decides for a stored ACTIVE user with a role. *)
Lemma login_decided_by_hash dto ip ua w u r :
  codec_accepts this ->
  find (by_email (login_email dto)) (users w) = Some u ->
  u_status u = ACTIVE ->
  find (role_by_id (u_roleId u)) (roles w) = Some r ->
  (bcrypt_compare (login_password dto) (u_passwordHash u) = true ->
   exists resp, fst (login this dto ip ua w) = Ok resp)
  /\ (bcrypt_compare (login_password dto) (u_passwordHash u) = false ->
      fst (login this dto ip ua w)
        = Throw (UnauthorizedException "Invalid credentials")).
Proof.
  intros Hcodec Hfind Hactive Hrole. split; intros Hcmp.
  - rewrite (login_success_run this dto ip ua w u r Hcodec Hfind Hactive Hcmp
               Hrole).
    eauto.
  - rewrite (login_wrong_password_run this dto ip ua w u Hfind Hactive Hcmp).
    reflexivity.
Qed.

(** What a successful [register] tells about the world it ran in. *)
Lemma register_Ok_inv dto ip ua w resp :
  fst (register this dto ip ua w) = Ok resp ->
  exists rid r,
    find (by_email (reg_email dto)) (users w) = None
    /\ resolved_role (reg_roleId dto) w = Some rid
    /\ existsb (by_id (newRowId (entropy w))) (users w) = false
    /\ find (role_by_id rid) (roles w) = Some r
    /\ auditDown w = false
    /\ codec_accepts this.
Proof.
  intros Hok.
  destruct (find (by_email (reg_email dto)) (users w)) as [u|] eqn:Hfind.
  { unfold register in Hok.
    rewrite (register_with_conflict this _ dto ip ua w u Hfind) in Hok.
    discriminate. }
  destruct (resolved_role (reg_roleId dto) w) as [rid|] eqn:Hrole.
  2:{ rewrite (register_no_default_role this dto ip ua w Hfind Hrole) in Hok.
      discriminate. }
  exists rid. revert Hok.
  unfold register, register_with, try_catch, bind, user_findUnique_email, gets.
  simpl. rewrite Hfind. rewrite (resolve_role_run _ _ _ Hrole).
  unfold modify, user_create. simpl.
  rewrite (find_none_existsb _ _ Hfind). simpl.
  destruct (existsb (by_id (newRowId (entropy w))) (users w)) eqn:Hid;
    [discriminate|].
  destruct (find (role_by_id rid) (roles w)) as [r|]; [|discriminate].
  simpl. unfold auditService_log. rewrite logSecurityEvent_auditDown. simpl.
  destruct (auditDown w) eqn:Haudit; [discriminate|].
  match goal with
  | |- context [generateTokenPair this ?x ?w0] =>
      destruct (generateTokenPair this x w0) as [[pair|e] w'] eqn:Hgen
  end; simpl; [|discriminate].
  intros _. apply (f_equal fst) in Hgen.
  apply generateTokenPair_Ok_inv in Hgen as [Hcodec _]. exists r.
  repeat (split; [first [assumption | reflexivity]|]). exact Hcodec.
Qed.

(** X13: registration and login fit together: with a hasher whose
    [compare] accepts what its [hash] produced, a registration that
    succeeded is followed by a successful login with the same email and
    password, and the user object of the login response is the one the
    registration returned. *)
Theorem register_then_login dto ip ua w resp ip' ua' :
  bcrypt_verifies ->
  fst (register this dto ip ua w) = Ok resp ->
  exists resp',
    fst (login this {| login_email := reg_email dto;
                       login_password := reg_password dto |} ip' ua'
           (snd (register this dto ip ua w))) = Ok resp'
    /\ ar_message resp' = "Login successful"
    /\ ar_user resp' = ar_user resp.
Proof.
  intros Hbcrypt Hok.
  destruct (register_Ok_inv dto ip ua w resp Hok)
    as (rid & r & Hfind & Hrole & Hid & Hr & Haudit & Hcodec).
  pose proof (register_success this dto ip ua w rid r Hcodec Hfind Hrole Hid Hr
                Haudit)
    as Hrun. cbv zeta in Hrun. rewrite Hrun in Hok |- *.
  cbn [fst snd] in Hok |- *. injection Hok as <-.
  set (u := new_user (reg_email dto) (reg_name dto)
              (bcrypt_hash (reg_password dto)
                 (default 12 (BCRYPT_ROUNDS (configService this)))) rid w).
  erewrite (login_success_run this _ ip' ua' _ u r).
  - eexists. split; [reflexivity|]. split; reflexivity.
  - exact Hcodec.
  - cbn [login_email users set_auditLogs]. unfold registered.
    rewrite logSecurityEvent_users. cbn [users set_users].
    rewrite find_append, Hfind. cbn [find]. unfold by_email at 1.
    cbn [u_email u new_user]. rewrite String.eqb_refl. reflexivity.
  - reflexivity.
  - cbn [login_password u_passwordHash u new_user]. apply Hbcrypt.
  - cbn [roles set_auditLogs]. unfold registered.
    rewrite logSecurityEvent_roles. cbn [roles set_users set_entropy].
    exact Hr.
Qed.

(** X14: after a successful [resetPassword] the old password is gone:
    for a holder who is ACTIVE, has a role and is the user the email
    finds, a login is decided by the hash of the new password alone.
    With a hasher that accepts what it hashed and the codec reading
    both configured lifetimes, the new password logs in; a password
    that the hasher rejects against the new hash gets "Invalid
    credentials". *)
Theorem resetPassword_then_login dto w u r password ip ua :
  bcrypt_verifies ->
  codec_accepts this ->
  find (reset_filter (token dto) (clock w)) (users w) = Some u ->
  find (by_email (u_email u)) (users w) = Some u ->
  u_status u = ACTIVE ->
  find (role_by_id (u_roleId u)) (roles w) = Some r ->
  let w' := snd (resetPassword this dto w) in
  let h := bcrypt_hash (newPassword dto)
             (default 12 (BCRYPT_ROUNDS (configService this))) in
  (exists resp,
     fst (login this {| login_email := u_email u;
                        login_password := newPassword dto |} ip ua w')
       = Ok resp)
  /\ (bcrypt_compare password h = false ->
      fst (login this {| login_email := u_email u;
                         login_password := password |} ip ua w')
        = Throw (UnauthorizedException "Invalid credentials")).
Proof.
  intros Hbcrypt Hcodec Hholder Hemail Hactive Hrole w' h.
  pose proof (resetPassword_run this dto w) as Hrun.
  rewrite Hholder in Hrun.
  assert (Hfind' : find (by_email (u_email u)) (users w')
                   = Some (set_password_clear_reset h u)).
  { unfold w'. rewrite Hrun. cbn [snd]. rewrite logSecurityEvent_users.
    cbn [users set_users].
    apply find_by_email_updated; [reflexivity | exact Hemail | reflexivity]. }
  assert (Hroles' : find (role_by_id (u_roleId u)) (roles w') = Some r).
  { unfold w'. rewrite Hrun. cbn [snd]. rewrite logSecurityEvent_roles.
    exact Hrole. }
  split.
  - apply (proj1 (login_decided_by_hash
                    {| login_email := u_email u;
                       login_password := newPassword dto |} ip ua w'
                    (set_password_clear_reset h u) r Hcodec Hfind' Hactive
                    Hroles')).
    apply Hbcrypt.
  - intros Hreject.
    apply (proj2 (login_decided_by_hash
                    {| login_email := u_email u;
                       login_password := password |} ip ua w'
                    (set_password_clear_reset h u) r Hcodec Hfind' Hactive
                    Hroles')).
    exact Hreject.
Qed.

(** X15: the same after [changePassword]: once the current password
    has verified for a user who is ACTIVE, has a role and is the user
    the email finds, the new password logs in (with a hasher that
    accepts what it hashed and the codec reading both configured
    lifetimes), and a password the hasher rejects against the new hash
    gets "Invalid credentials". *)
Theorem changePassword_then_login userId dto w u r password ip ua :
  bcrypt_verifies ->
  codec_accepts this ->
  find (by_id userId) (users w) = Some u ->
  bcrypt_compare (currentPassword dto) (u_passwordHash u) = true ->
  find (by_email (u_email u)) (users w) = Some u ->
  u_status u = ACTIVE ->
  find (role_by_id (u_roleId u)) (roles w) = Some r ->
  let w' := snd (changePassword this userId dto w) in
  let h := bcrypt_hash (cp_newPassword dto)
             (default 12 (BCRYPT_ROUNDS (configService this))) in
  (exists resp,
     fst (login this {| login_email := u_email u;
                        login_password := cp_newPassword dto |} ip ua w')
       = Ok resp)
  /\ (bcrypt_compare password h = false ->
      fst (login this {| login_email := u_email u;
                         login_password := password |} ip ua w')
        = Throw (UnauthorizedException "Invalid credentials")).
Proof.
  intros Hbcrypt Hcodec Hfind Hcurrent Hemail Hactive Hrole w' h.
  assert (Hid : u_id u = userId).
  { apply find_some in Hfind as [_ Hby]. apply by_id_true, Hby. }
  assert (Hrun : w' = logSecurityEvent "PASSWORD_CHANGE" (Some userId)
                        (Some (u_email u)) None None None
                        (set_users (update_rows userId (set_passwordHash h)
                                      (users w)) w)).
  { unfold w', changePassword, bind, user_findUnique_id, gets.
    cbn [fst snd]. rewrite Hfind, Hcurrent. cbn [negb]. unfold user_update.
    rewrite <- Hid at 1. rewrite (found_exists_by_id _ _ _ Hfind).
    reflexivity. }
  assert (Hfind' : find (by_email (u_email u)) (users w')
                   = Some (set_passwordHash h u)).
  { rewrite Hrun, logSecurityEvent_users. cbn [users set_users].
    apply find_by_email_updated; [reflexivity | exact Hemail | exact Hid]. }
  assert (Hroles' : find (role_by_id (u_roleId u)) (roles w') = Some r).
  { rewrite Hrun, logSecurityEvent_roles. exact Hrole. }
  split.
  - apply (proj1 (login_decided_by_hash
                    {| login_email := u_email u;
                       login_password := cp_newPassword dto |} ip ua w'
                    (set_passwordHash h u) r Hcodec Hfind' Hactive Hroles')).
    apply Hbcrypt.
  - intros Hreject.
    apply (proj2 (login_decided_by_hash
                    {| login_email := u_email u;
                       login_password := password |} ip ua w'
                    (set_passwordHash h u) r Hcodec Hfind' Hactive Hroles')).
    exact Hreject.
Qed.

(** X16: the token of [forgotPassword] opens [resetPassword] for
    exactly fifteen minutes.  After a request for a stored email, a
    reset with the drawn token succeeds at every time strictly before
    request time + 900000 ms; from that instant on it is refused,
    provided the drawn uuid was not already some user's token. *)
Theorem forgotPassword_then_resetPassword email w u newPwd w2 :
  find (by_email email) (users w) = Some u ->
  users w2 = users (snd (forgotPassword email w)) ->
  let dto := {| token := uuidv4 (entropy w); newPassword := newPwd |} in
  (clock w2 < clock w + 900000 ->
   fst (resetPassword this dto w2)
     = Ok {| message := "Password reset successful" |})
  /\ (clock w + 900000 <= clock w2 ->
      (forall v, In v (users w) ->
                 u_passwordResetToken v <> Some (uuidv4 (entropy w))) ->
      resetPassword this dto w2
        = (Throw (BadRequestException "Invalid or expired reset token"), w2)).
Proof.
  intros Hfind Husers dto.
  pose proof (forgotPassword_run email w) as Hrun. rewrite Hfind in Hrun.
  rewrite Hrun in Husers. cbn [snd] in Husers.
  rewrite logSecurityEvent_users in Husers. cbn [users set_users] in Husers.
  change (15 * 60 * 1000) with 900000 in Husers.
  pose proof (resetPassword_run this dto w2) as Hreset.
  split.
  - intros Hearly.
    destruct (find_exists (reset_filter (token dto) (clock w2)) (users w2)
                (set_reset (Some (uuidv4 (entropy w)))
                   (Some (clock w + 900000)) u)) as [holder Hholder].
    + rewrite Husers. apply in_update_rows. exists u. split.
      * apply find_some in Hfind as [Hin _]. exact Hin.
      * rewrite by_id_refl. reflexivity.
    + apply reset_filter_true. cbn. split; [reflexivity|]. eauto.
    + rewrite Hholder in Hreset. rewrite Hreset. reflexivity.
  - intros Hlate Hfresh.
    rewrite find_all_false in Hreset; [exact Hreset|].
    intros v Hin. rewrite Husers in Hin.
    apply in_update_rows in Hin as (v0 & Hin0 & ->).
    destruct (reset_filter (token dto) (clock w2)
                (if by_id (u_id u) v0
                 then set_reset (Some (uuidv4 (entropy w)))
                        (Some (clock w + 900000)) v0
                 else v0)) eqn:Hfilter; [|reflexivity].
    apply reset_filter_true in Hfilter as [Htok (e & He & Hlt)].
    destruct (by_id (u_id u) v0).
    + cbn in He. injection He as <-. lia.
    + destruct (Hfresh v0 Hin0 Htok).
Qed.

End Sequences.

(** The demo hasher accepts what it hashed. *)
Lemma demo_bcrypt_verifies : bcrypt_verifies (H:=demo).
Proof. intros password rounds. cbn. apply String.eqb_refl. Qed.

(** Carol registers and logs in. *)
Lemma register_then_login_witness :
  exists resp resp',
    fst (register (C:=demo) demo_service carol_registration None None
           demo_world) = Ok resp
    /\ fst (login (C:=demo) demo_service
              {| login_email := "carol@x.com"; login_password := "Secret#3" |}
              None None
              (snd (register (C:=demo) demo_service carol_registration
                      None None demo_world))) = Ok resp'
    /\ ar_user resp' = ar_user resp.
Proof.
  eexists.
  destruct (register_then_login (C:=demo) demo_service carol_registration
              None None demo_world _ None None demo_bcrypt_verifies eq_refl)
    as (resp' & Hlogin & _ & Huser).
  exists resp'. split; [reflexivity|]. split; [exact Hlogin | exact Huser].
Defined.

(** Alice resets her password with her pending token: the new password
    logs in, the old one does not. *)
Lemma resetPassword_then_login_witness :
  (exists resp,
     fst (login (C:=demo) demo_service
            {| login_email := "alice@x.com"; login_password := "NewSecret#1" |}
            None None
            (snd (resetPassword (C:=demo) demo_service alice_reset
                    demo_world))) = Ok resp)
  /\ fst (login (C:=demo) demo_service alice_login None None
            (snd (resetPassword (C:=demo) demo_service alice_reset
                    demo_world)))
     = Throw (UnauthorizedException "Invalid credentials").
Proof.
  destruct (resetPassword_then_login (C:=demo) demo_service alice_reset
              demo_world alice subordinate "Secret#1" None None
              demo_bcrypt_verifies demo_codec_accepts
              eq_refl eq_refl eq_refl eq_refl)
    as [Hnew Hold].
  split; [exact Hnew | exact (Hold eq_refl)].
Defined.

(** Alice changes her password: the new one logs in, the old one does
    not. *)
Lemma changePassword_then_login_witness :
  (exists resp,
     fst (login (C:=demo) demo_service
            {| login_email := "alice@x.com"; login_password := "Better#1" |}
            None None
            (snd (changePassword (C:=demo) demo_service "u-alice"
                    alice_change demo_world))) = Ok resp)
  /\ fst (login (C:=demo) demo_service alice_login None None
            (snd (changePassword (C:=demo) demo_service "u-alice"
                    alice_change demo_world)))
     = Throw (UnauthorizedException "Invalid credentials").
Proof.
  destruct (changePassword_then_login (C:=demo) demo_service "u-alice"
              alice_change demo_world alice subordinate "Secret#1" None None
              demo_bcrypt_verifies demo_codec_accepts
              eq_refl eq_refl eq_refl eq_refl eq_refl)
    as [Hnew Hold].
  split; [exact Hnew | exact (Hold eq_refl)].
Defined.

(** Bob asks for a reset at 1000000: his token works at 1899999 and is
    refused at 1900000. *)
Lemma forgotPassword_then_resetPassword_witness :
  fst (resetPassword (C:=demo) demo_service
         {| token := "uuid-0"; newPassword := "Fresh#2" |}
         (at_time 1899999 (snd (forgotPassword (C:=demo) "bob@x.com"
                                  demo_world))))
    = Ok {| message := "Password reset successful" |}
  /\ fst (resetPassword (C:=demo) demo_service
            {| token := "uuid-0"; newPassword := "Fresh#2" |}
            (at_time 1900000 (snd (forgotPassword (C:=demo) "bob@x.com"
                                     demo_world))))
     = Throw (BadRequestException "Invalid or expired reset token").
Proof.
  split.
  - apply (proj1 (forgotPassword_then_resetPassword (C:=demo) demo_service
                    "bob@x.com" demo_world bob "Fresh#2"
                    (at_time 1899999 (snd (forgotPassword (C:=demo)
                                             "bob@x.com" demo_world)))
                    eq_refl eq_refl)).
    reflexivity.
  - assert (Hlate : clock demo_world + 900000
                    <= clock (at_time 1900000
                                (snd (forgotPassword (C:=demo) "bob@x.com"
                                        demo_world))))
      by (vm_compute; discriminate).
    assert (Hfresh : forall v, In v (users demo_world) ->
              u_passwordResetToken v
                <> Some (uuidv4 (Collaborators:=demo) (entropy demo_world))).
    { intros v [<- | [<- | []]]; discriminate. }
    exact (f_equal fst
             (proj2 (forgotPassword_then_resetPassword (C:=demo) demo_service
                       "bob@x.com" demo_world bob "Fresh#2"
                       (at_time 1900000 (snd (forgotPassword (C:=demo)
                                                "bob@x.com" demo_world)))
                       eq_refl eq_refl) Hlate Hfresh)).
Defined.

(** ** Failed registrations in the security log *)

Section RegisterFailure.

Context {C : Collaborators}.
Variable this : AuthService.

(** X17: a registration that fails hands the caller the error as it
    was raised and, when the security log can be written, leaves as
    its last row a REGISTER_FAILED event without user id, with the
    email of the attempt and the message of that error; the row is
    flagged unsuccessful unless the message is empty. *)
Theorem register_failure_is_logged dto ip ua w e :
  fst (register this dto ip ua w) = Throw e ->
  securityLogDown w = false ->
  exists row,
    last (securityLogs (snd (register this dto ip ua w))) = Some row
    /\ sl_event row = "REGISTER_FAILED"
    /\ sl_userId row = None
    /\ sl_email row = Some (reg_email dto)
    /\ sl_errorMessage row = Some (message_of e)
    /\ sl_success row = String.eqb (message_of e) "".
Proof.
  intros Hfail Hup.
  destruct (register_failure_world this dto ip ua w e Hfail)
    as (w0 & Hbody & ->).
  destruct Hbody as (_ & _ & Hflag & _).
  unfold logSecurityEvent. rewrite Hflag, Hup.
  cbn [securityLogs set_securityLogs]. rewrite last_snoc.
  eexists. split; [reflexivity|]. cbn. rewrite negb_involutive.
  repeat split; reflexivity.
Qed.

End RegisterFailure.

(** Registering Alice's email again leaves a REGISTER_FAILED row with
    the conflict message. *)
Lemma register_failure_is_logged_witness :
  exists row,
    last (securityLogs
            (snd (register (C:=demo) demo_service
                    {| reg_email := "alice@x.com"; reg_password := "pw";
                       reg_name := "Alice again"; reg_roleId := None |}
                    None None demo_world))) = Some row
    /\ sl_event row = "REGISTER_FAILED"
    /\ sl_errorMessage row = Some "User with this email already exists"
    /\ sl_success row = false.
Proof.
  destruct (register_failure_is_logged (C:=demo) demo_service
              {| reg_email := "alice@x.com"; reg_password := "pw";
                 reg_name := "Alice again"; reg_roleId := None |}
              None None demo_world
              (ConflictException "User with this email already exists")
              eq_refl eq_refl)
    as (row & Hlast & Hevent & _ & _ & Hmsg & Hflag).
  exists row. auto.
Defined.

(** * The web client *)

(** ** The retry policy *)

(** X18: a failed query is tried again exactly when it has failed
    fewer than three times and the error is not a client error: a
    status from 400 to 499 other than 408 and 429 is never retried,
    whatever the count, and nothing is retried from the third failure
    on. *)
Theorem retry_policy failureCount status :
  Client.retry failureCount status = true
  <-> failureCount < 3
      /\ (forall s, status = Some s ->
                    s < 400 \/ 500 <= s \/ s = 408 \/ s = 429).
Proof.
  unfold Client.retry, Client.status_ge, Client.status_lt,
    Client.includes_status.
  destruct status as [s|]; cbn [andb existsb].
  - destruct (400 <=? s) eqn:Hge; cbn [andb].
    + destruct (s <? 500) eqn:Hlt; cbn [andb].
      * destruct (s =? 408) eqn:H408; cbn [orb negb].
        -- rewrite Z.ltb_lt. apply Z.eqb_eq in H408. split.
           ++ intros Hcount. split; [exact Hcount|].
              intros s' [= <-]. lia.
           ++ intros [Hcount _]. exact Hcount.
        -- destruct (s =? 429) eqn:H429; cbn [orb negb].
           ++ rewrite Z.ltb_lt. apply Z.eqb_eq in H429. split.
              ** intros Hcount. split; [exact Hcount|].
                 intros s' [= <-]. lia.
              ** intros [Hcount _]. exact Hcount.
           ++ apply Z.leb_le in Hge. apply Z.ltb_lt in Hlt.
              apply Z.eqb_neq in H408, H429. split; [discriminate|].
              intros [_ Hstatus]. destruct (Hstatus s eq_refl); lia.
      * rewrite Z.ltb_lt. apply Z.ltb_ge in Hlt. split.
        -- intros Hcount. split; [exact Hcount|]. intros s' [= <-]. lia.
        -- intros [Hcount _]. exact Hcount.
    + rewrite Z.ltb_lt. apply Z.leb_gt in Hge. split.
      * intros Hcount. split; [exact Hcount|]. intros s' [= <-]. lia.
      * intros [Hcount _]. exact Hcount.
  - rewrite Z.ltb_lt. split.
    + intros Hcount. split; [exact Hcount|]. discriminate.
    + intros [Hcount _]. exact Hcount.
Qed.

(** ** The interceptors *)

Section Interceptors.

Variable refreshCall : string -> Client.Call Client.TokenPair.
Variable resend : Client.Request -> Client.Call Client.Response.

(** X19: an error that is not a 401, or that belongs to a request
    already marked as retried, is handed on as it is; a first 401 that
    arrives when no refresh token is stored is handed on with its
    request marked as retried.  In all three cases the browser state is
    untouched (no token removed, no redirect), and neither a refresh nor
    a second send is attempted, whatever those calls would do. *)
Theorem handler_passes_error_on error b :
  (Client.is_401 error = false
   \/ (exists s m config, error = Client.AxiosError s m config
                          /\ Client._retry config = true) ->
   Client.responseErrorHandler refreshCall resend error b
     = (Client.Rejected error, b))
  /\ (forall s m config,
        error = Client.AxiosError s m config ->
        Client.is_401 error = true ->
        Client._retry config = false ->
        truthy (Client.getItem "refreshToken" b) = false ->
        Client.responseErrorHandler refreshCall resend error b
          = (Client.Rejected
               (Client.AxiosError s m (Client.mark_retry config)), b)).
Proof.
  unfold Client.responseErrorHandler. split.
  - intros [Hstatus | (s & m & config & -> & Hretry)].
    + destruct error as [s m config|msg]; [|reflexivity].
      rewrite Hstatus. reflexivity.
    + rewrite Hretry, andb_false_r. reflexivity.
  - intros s m config -> H401 Hretry Hstored.
    rewrite H401, Hretry, Hstored. reflexivity.
Qed.

(** X20: when a first 401 meets a stored refresh token and the refresh
    call is rejected, the handler ends the session: both tokens are
    removed from the storage the refresh call left, the window is sent
    to /auth/login, and the caller gets the error of the refresh, not
    the 401; the request is not sent again. *)
Theorem handler_ends_session_on_refresh_failure s m config b rt
    refreshError b1 :
  Client.is_401 (Client.AxiosError s m config) = true ->
  Client._retry config = false ->
  Client.getItem "refreshToken" b = Some rt ->
  rt <> "" ->
  refreshCall rt b = (Client.Rejected refreshError, b1) ->
  let b' := snd (Client.responseErrorHandler refreshCall resend
                   (Client.AxiosError s m config) b) in
  fst (Client.responseErrorHandler refreshCall resend
         (Client.AxiosError s m config) b)
    = Client.Rejected refreshError
  /\ Client.getItem "accessToken" b' = None
  /\ Client.getItem "refreshToken" b' = None
  /\ Client.href b' = "/auth/login"
  /\ (forall k, k <> "accessToken" -> k <> "refreshToken" ->
                Client.getItem k b' = Client.getItem k b1).
Proof.
  intros H401 Hretry Hstored Hrt Hrefresh.
  unfold Client.responseErrorHandler.
  rewrite H401, Hretry, Hstored.
  cbn [negb andb truthy default from_option id].
  apply String.eqb_neq in Hrt. rewrite Hrt. cbn [negb].
  rewrite Hrefresh. cbn [fst snd].
  unfold Client.getItem, Client.removeItem, Client.set_href.
  cbn [Client.localStorage Client.with_storage Client.href].
  split; [reflexivity|]. split.
  { rewrite lookup_delete_ne by discriminate. apply lookup_delete_eq. }
  split; [apply lookup_delete_eq|]. split; [reflexivity|].
  intros k Ha Hr. rewrite !lookup_delete_ne by congruence. reflexivity.
Qed.

(** X21: when the refresh call resolves, the handler stores the new
    pair under the two keys and sends the original request once more,
    marked as retried and with the new access token as its bearer; what
    the caller gets is whatever that second send gives, and a 401 on it
    is not handled again. *)
Theorem handler_retries_once_with_new_token s m config b rt tokens b1 :
  Client.is_401 (Client.AxiosError s m config) = true ->
  Client._retry config = false ->
  Client.getItem "refreshToken" b = Some rt ->
  rt <> "" ->
  refreshCall rt b = (Client.Resolved tokens, b1) ->
  let again :=
    Client.set_authorization ("Bearer " +:+ Client.accessToken tokens)
      (Client.mark_retry config) in
  let b2 := Client.setItem "refreshToken" (Client.refreshToken tokens)
              (Client.setItem "accessToken" (Client.accessToken tokens) b1) in
  Client.responseErrorHandler refreshCall resend
    (Client.AxiosError s m config) b = resend again b2
  /\ Client.getItem "accessToken" b2 = Some (Client.accessToken tokens)
  /\ Client.getItem "refreshToken" b2 = Some (Client.refreshToken tokens)
  /\ Client.headers (Client.requestInterceptor again b2) !! "Authorization"
     = Some ("Bearer " +:+ Client.accessToken tokens)
  /\ (forall s' m' b3,
        Client.responseErrorHandler refreshCall resend
          (Client.AxiosError s' m' again) b3
          = (Client.Rejected (Client.AxiosError s' m' again), b3)).
Proof.
  intros H401 Hretry Hstored Hrt Hrefresh again b2.
  unfold Client.responseErrorHandler at 1.
  rewrite H401, Hretry, Hstored.
  cbn [negb andb truthy default from_option id].
  apply String.eqb_neq in Hrt. rewrite Hrt. cbn [negb].
  rewrite Hrefresh.
  split; [reflexivity|].
  assert (Haccess :
    Client.getItem "accessToken" b2 = Some (Client.accessToken tokens)).
  { unfold b2, Client.getItem, Client.setItem.
    cbn [Client.localStorage Client.with_storage].
    rewrite lookup_insert_ne by discriminate. apply lookup_insert_eq. }
  split; [exact Haccess|]. split.
  { unfold b2, Client.getItem, Client.setItem.
    cbn [Client.localStorage Client.with_storage]. apply lookup_insert_eq. }
  split.
  - unfold Client.requestInterceptor. rewrite Haccess.
    destruct (truthy (Some (Client.accessToken tokens))).
    + cbn [Client.headers default]. apply lookup_insert_eq.
    + unfold again, Client.set_authorization. cbn [Client.headers].
      apply lookup_insert_eq.
  - intros s' m' b3. unfold Client.responseErrorHandler, again.
    cbn [Client._retry Client.set_authorization Client.mark_retry negb].
    rewrite andb_false_r. reflexivity.
Qed.

End Interceptors.

(** A server error is passed on as it is; a 401 without a stored
    refresh token is passed on with its request marked. *)
Lemma handler_passes_error_on_witness :
  Client.responseErrorHandler refresh_granted resend_ok
    (Client.AxiosError (Some 500) None products_request) signed_in_browser
  = (Client.Rejected (Client.AxiosError (Some 500) None products_request),
     signed_in_browser)
  /\ Client.responseErrorHandler refresh_granted resend_ok expired_401
       half_signed_in_browser
     = (Client.Rejected
          (Client.AxiosError (Some 401) (Some "Unauthorized")
             (Client.mark_retry products_request)),
        half_signed_in_browser).
Proof.
  split.
  - apply (proj1 (handler_passes_error_on refresh_granted resend_ok
                    (Client.AxiosError (Some 500) None products_request)
                    signed_in_browser)).
    left. reflexivity.
  - exact (proj2 (handler_passes_error_on refresh_granted resend_ok
                    expired_401 half_signed_in_browser)
             (Some 401) (Some "Unauthorized") products_request
             eq_refl eq_refl eq_refl eq_refl).
Defined.

(** The refresh fails: both tokens go, the theme stays. *)
Lemma handler_ends_session_on_refresh_failure_witness :
  let b' := snd (Client.responseErrorHandler refresh_refused resend_ok
                   expired_401 signed_in_browser) in
  Client.getItem "accessToken" b' = None
  /\ Client.getItem "refreshToken" b' = None
  /\ Client.href b' = "/auth/login"
  /\ Client.getItem "theme" b' = Some "dark".
Proof.
  assert (Hrt : "old-refresh" <> "") by discriminate.
  destruct (handler_ends_session_on_refresh_failure refresh_refused resend_ok
              (Some 401) (Some "Unauthorized") products_request
              signed_in_browser "old-refresh"
              (Client.PlainError "Network Error") signed_in_browser
              eq_refl eq_refl eq_refl Hrt eq_refl)
    as (_ & Haccess & Hrefresh & Hhref & Hother).
  cbv zeta. split; [exact Haccess|]. split; [exact Hrefresh|].
  split; [exact Hhref|].
  assert (Ha : "theme" <> "accessToken") by discriminate.
  assert (Hr : "theme" <> "refreshToken") by discriminate.
  exact (eq_trans (Hother "theme" Ha Hr) eq_refl).
Defined.

(** The refresh succeeds: the request goes out again and resolves. *)
Lemma handler_retries_once_with_new_token_witness :
  fst (Client.responseErrorHandler refresh_granted resend_ok expired_401
         signed_in_browser)
  = Client.Resolved {| Client.resp_status := 200; Client.resp_body := "[]" |}.
Proof.
  assert (Hrt : "old-refresh" <> "") by discriminate.
  destruct (handler_retries_once_with_new_token refresh_granted resend_ok
              (Some 401) (Some "Unauthorized") products_request
              signed_in_browser "old-refresh"
              {| Client.accessToken := "new-access";
                 Client.refreshToken := "new-refresh" |}
              signed_in_browser eq_refl eq_refl eq_refl Hrt eq_refl)
    as (Hrun & _).
  unfold expired_401. rewrite Hrun. reflexivity.
Defined.

(** ** The session logic of the context *)

Section AuthContext.

(** X22: [logout] of the context cannot fail and always ends the
    session: whether the API call resolves or rejects, the user is
    null, both tokens are removed, the router is at /auth/login, and
    every other key of the storage is as the API call left it. *)
Theorem client_logout_always_clears (api : Client.Call unit) b :
  let b' := snd (Client.logout api b) in
  fst (Client.logout api b) = Client.Resolved tt
  /\ Client.authUser b' = None
  /\ Client.getItem "accessToken" b' = None
  /\ Client.getItem "refreshToken" b' = None
  /\ Client.route b' = "/auth/login"
  /\ (forall k, k <> "accessToken" -> k <> "refreshToken" ->
                Client.getItem k b' = Client.getItem k (snd (api b))).
Proof.
  unfold Client.logout. cbn [fst snd].
  destruct (api b) as [[[]|e] b1]; cbn [snd];
    unfold Client.getItem, Client.removeItem, Client.router_push,
      Client.toast, Client.setUser, Client.console_error;
    cbn [Client.localStorage Client.with_storage Client.authUser
         Client.route];
    (split; [reflexivity|]); (split; [reflexivity|]);
    (split; [rewrite lookup_delete_ne by discriminate;
             apply lookup_delete_eq|]);
    (split; [apply lookup_delete_eq|]); (split; [reflexivity|]);
    intros k Ha Hr; rewrite !lookup_delete_ne by congruence; reflexivity.
Qed.

(** X23: [login] and [register] of the context (one shape, two sets of
    texts).  Loading is off when the call is over, whatever happened.
    A rejected API call is rethrown after a toast with the server's
    message, or the fallback text when there is none or it is empty;
    nothing is stored.  A response with a user that has a role and with
    tokens makes that user current, stores both tokens and pushes
    /dashboard, for every role.  A response that lacks the user or the
    tokens resolves silently: nothing stored, no toast, no
    navigation. *)
Theorem client_submit_outcomes greeting fallback
    (api : Client.Call Client.AuthResponse) b :
  Client.loading (snd (Client.submit greeting fallback api b)) = false
  /\ (forall e b1,
        api (Client.setLoading true b) = (Client.Rejected e, b1) ->
        Client.submit greeting fallback api b
          = (Client.Rejected e,
             Client.setLoading false
               (Client.toast
                  (Client.toast_error
                     (match Client.error_serverMessage e with
                      | Some m => if String.eqb m "" then fallback else m
                      | None => fallback
                      end)) b1)))
  /\ (forall u t r b1,
        api (Client.setLoading true b)
          = (Client.Resolved {| Client.user := Some u;
                                Client.tokens := Some t |}, b1) ->
        u !! "role" = Some (JRole r) ->
        let b' := snd (Client.submit greeting fallback api b) in
        fst (Client.submit greeting fallback api b) = Client.Resolved tt
        /\ Client.authUser b' = Some u
        /\ Client.getItem "accessToken" b' = Some (Client.accessToken t)
        /\ Client.getItem "refreshToken" b' = Some (Client.refreshToken t)
        /\ Client.route b' = "/dashboard"
        /\ Client.toasts b'
           = Client.toasts b1 ++ [Client.toast_success greeting])
  /\ (forall resp b1,
        api (Client.setLoading true b) = (Client.Resolved resp, b1) ->
        Client.user resp = None \/ Client.tokens resp = None ->
        Client.submit greeting fallback api b
          = (Client.Resolved tt, Client.setLoading false b1)).
Proof.
  split; [|split; [|split]].
  - unfold Client.submit.
    destruct (api (Client.setLoading true b)) as [[resp|e] b1];
      [|reflexivity].
    destruct (Client.accept_response greeting resp b1) as [[[]|e] b2];
      reflexivity.
  - intros e b1 Hapi. unfold Client.submit. rewrite Hapi.
    unfold Client.message_or.
    destruct (Client.error_serverMessage e) as [m|]; cbn [truthy default];
      [|reflexivity].
    destruct (String.eqb m ""); reflexivity.
  - intros u t r b1 Hapi Hrole. unfold Client.submit. rewrite Hapi.
    unfold Client.accept_response, Client.role_name_of.
    cbn [Client.user Client.tokens]. rewrite Hrole.
    assert (Hpath : Client.getRedirectPath (r_name r) = "/dashboard").
    { unfold Client.getRedirectPath.
      repeat match goal with |- context [if ?c then _ else _] =>
        destruct c end; reflexivity. }
    rewrite Hpath. cbn [fst snd].
    unfold Client.getItem, Client.setItem, Client.router_push, Client.toast,
      Client.setUser, Client.setLoading.
    cbn [Client.localStorage Client.with_storage Client.authUser
         Client.route Client.toasts].
    split; [reflexivity|]. split; [reflexivity|]. split.
    { rewrite lookup_insert_ne by discriminate. apply lookup_insert_eq. }
    split; [apply lookup_insert_eq|]. split; reflexivity.
  - intros resp b1 Hapi Hmissing. unfold Client.submit. rewrite Hapi.
    unfold Client.accept_response.
    destruct Hmissing as [-> | ->]; [reflexivity|].
    destruct (Client.user resp); reflexivity.
Qed.

(** X24: [refreshToken] of the context cannot fail, and it leaves one
    of two states.  If both the refresh call and the call for the
    current user resolve, the new tokens have been stored before the
    second call and the user it returned is current.  In every other
    case, and without any call when no refresh token is stored, the
    session is ended as by [logout]: user null, both tokens removed,
    router at /auth/login. *)
Theorem client_refresh_renews_or_ends
    (api_refresh : string -> Client.Call Client.TokenPair)
    (api_me : Client.Call (gmap string JsValue))
    (api_logout : Client.Call unit) b :
  let b' := snd (Client.refreshSession api_refresh api_me api_logout b) in
  fst (Client.refreshSession api_refresh api_me api_logout b)
    = Client.Resolved tt
  /\ ((exists rt t b1 userInfo b3,
         Client.getItem "refreshToken" b = Some rt
         /\ api_refresh rt b = (Client.Resolved t, b1)
         /\ api_me (Client.setItem "refreshToken" (Client.refreshToken t)
                      (Client.setItem "accessToken" (Client.accessToken t)
                         b1))
            = (Client.Resolved userInfo, b3)
         /\ b' = Client.setUser (Some userInfo) b3)
      \/ (Client.authUser b' = None
          /\ Client.getItem "accessToken" b' = None
          /\ Client.getItem "refreshToken" b' = None
          /\ Client.route b' = "/auth/login"))
  /\ (truthy (Client.getItem "refreshToken" b) = false ->
      Client.refreshSession api_refresh api_me api_logout b
        = Client.logout api_logout
            (Client.console_error "Token refresh failed:" b)).
Proof.
  assert (Hended : forall b0,
    fst (Client.logout api_logout b0) = Client.Resolved tt
    /\ Client.authUser (snd (Client.logout api_logout b0)) = None
    /\ Client.getItem "accessToken" (snd (Client.logout api_logout b0))
       = None
    /\ Client.getItem "refreshToken" (snd (Client.logout api_logout b0))
       = None
    /\ Client.route (snd (Client.logout api_logout b0)) = "/auth/login").
  { intros b0. unfold Client.logout. cbn [fst snd].
    split; [reflexivity|].
    destruct (api_logout b0) as [[[]|e] b1];
      unfold Client.getItem, Client.removeItem, Client.router_push,
        Client.toast, Client.setUser, Client.console_error;
      cbn [Client.localStorage Client.with_storage Client.authUser
           Client.route];
      (split; [reflexivity|]);
      (split; [rewrite lookup_delete_ne by discriminate;
               apply lookup_delete_eq|]);
      (split; [apply lookup_delete_eq | reflexivity]). }
  cbv zeta. unfold Client.refreshSession.
  destruct (Client.getItem "refreshToken" b) as [rt|] eqn:Hstored;
    cbn [truthy default from_option id].
  - destruct (String.eqb rt "") eqn:Hempty; cbn [negb].
    + destruct (Hended (Client.console_error "Token refresh failed:" b))
        as [Hres Hstate].
      split; [exact Hres|]. split; [right; exact Hstate | reflexivity].
    + destruct (api_refresh rt b) as [[t|e] b1] eqn:Hrefresh.
      * destruct (api_me _) as [[userInfo|e] b3] eqn:Hme.
        -- cbn [fst snd]. split; [reflexivity|]. split; [|discriminate].
           left. exists rt, t, b1, userInfo, b3. auto.
        -- destruct (Hended (Client.console_error "Token refresh failed:" b3))
             as [Hres Hstate].
           split; [exact Hres|]. split; [right; exact Hstate | discriminate].
      * destruct (Hended (Client.console_error "Token refresh failed:" b1))
          as [Hres Hstate].
        split; [exact Hres|]. split; [right; exact Hstate | discriminate].
  - destruct (Hended (Client.console_error "Token refresh failed:" b))
      as [Hres Hstate].
    split; [exact Hres|]. split; [right; exact Hstate | reflexivity].
Qed.

End AuthContext.

(** A login that the API rejects with a message, and one it accepts. *)
Lemma client_submit_outcomes_witness :
  Client.toasts (snd (Client.login api_down signed_in_browser))
    = [Client.toast_error "Login failed"]
  /\ Client.route (snd (Client.login api_login_ok signed_in_browser))
     = "/dashboard"
  /\ Client.getItem "accessToken"
       (snd (Client.login api_login_ok signed_in_browser))
     = Some "new-access".
Proof.
  destruct (client_submit_outcomes "Login successful" "Login failed"
              api_down signed_in_browser) as (_ & Hrejected & _).
  destruct (client_submit_outcomes "Login successful" "Login failed"
              api_login_ok signed_in_browser) as (_ & _ & Haccepted & _).
  split.
  - unfold Client.login.
    rewrite (Hrejected (Client.PlainError "Network Error")
               (Client.setLoading true signed_in_browser) eq_refl).
    reflexivity.
  - destruct (Haccepted manager_object
                {| Client.accessToken := "new-access";
                   Client.refreshToken := "new-refresh" |}
                manager (Client.setLoading true signed_in_browser)
                eq_refl eq_refl)
      as (_ & _ & Haccess & _ & Hroute & _).
    split; [exact Hroute | exact Haccess].
Defined.

(** With the API down, a refresh of the session ends it. *)
Lemma client_refresh_renews_or_ends_witness :
  Client.getItem "refreshToken"
    (snd (Client.refreshSession refresh_refused api_down api_down
            signed_in_browser)) = None
  /\ Client.route
       (snd (Client.refreshSession refresh_refused api_down api_down
               signed_in_browser)) = "/auth/login".
Proof.
  destruct (client_refresh_renews_or_ends refresh_refused api_down api_down
              signed_in_browser)
    as (_ & [(rt & t & b1 & u & b3 & Hrt & Hcall & _)
            | (_ & _ & Hr & Hroute)] & _).
  - injection Hrt as <-. discriminate Hcall.
  - split; [exact Hr | exact Hroute].
Defined.

Section Startup.

Variable api_me : Client.Call (gmap string JsValue).

(** X25: the start-up check of the provider cannot fail and always
    ends with loading off.  Unless both tokens are stored it makes no
    call and changes nothing else.  With both stored, a resolved call
    for the current user makes that user current; every rejection, a
    401 as much as a server error or a dead network, removes both
    tokens and leaves everything else as the call left it.  On a 401 no
    refresh is attempted: inside the effect [refreshToken] names the
    stored string, so calling it raises a TypeError that the handler
    around it swallows. *)
Theorem client_startup_outcomes b :
  let b' := snd (Client.initializeAuth api_me b) in
  fst (Client.initializeAuth api_me b) = Client.Resolved tt
  /\ Client.loading b' = false
  /\ (truthy (Client.getItem "accessToken" b) = false
      \/ truthy (Client.getItem "refreshToken" b) = false ->
      b' = Client.setLoading false b)
  /\ (truthy (Client.getItem "accessToken" b) = true ->
      truthy (Client.getItem "refreshToken" b) = true ->
      (forall userInfo b1,
         api_me b = (Client.Resolved userInfo, b1) ->
         b' = Client.setLoading false (Client.setUser (Some userInfo) b1))
      /\ (forall e b1,
            api_me b = (Client.Rejected e, b1) ->
            b' = Client.setLoading false
                   (Client.removeItem "refreshToken"
                      (Client.removeItem "accessToken" b1))
            /\ Client.getItem "accessToken" b' = None
            /\ Client.getItem "refreshToken" b' = None
            /\ Client.authUser b' = Client.authUser b1
            /\ Client.route b' = Client.route b1
            /\ Client.href b' = Client.href b1)).
Proof.
  cbv zeta. unfold Client.initializeAuth. cbn [fst snd].
  split; [reflexivity|]. split; [reflexivity|]. split.
  - intros [Ha | Hr]; [rewrite Ha | rewrite Hr, andb_false_r]; reflexivity.
  - intros Ha Hr. rewrite Ha, Hr. cbn [andb]. split.
    + intros userInfo b1 Hme. rewrite Hme. reflexivity.
    + intros e b1 Hme. rewrite Hme.
      destruct (Client.is_401 e);
        (split; [reflexivity|]);
        unfold Client.getItem, Client.removeItem, Client.setLoading;
        cbn [Client.localStorage Client.with_storage Client.authUser
             Client.route Client.href];
        (split; [rewrite lookup_delete_ne by discriminate;
                 apply lookup_delete_eq|]);
        (split; [apply lookup_delete_eq|]); repeat split.
Qed.

End Startup.

(** Both tokens are stored and the API answers 401: the tokens are gone
    after start-up, and the page stays where it was. *)
Lemma client_startup_outcomes_witness :
  Client.getItem "accessToken"
    (snd (Client.initializeAuth api_unauthorized signed_in_browser)) = None
  /\ Client.getItem "refreshToken"
       (snd (Client.initializeAuth api_unauthorized signed_in_browser)) = None
  /\ Client.route
       (snd (Client.initializeAuth api_unauthorized signed_in_browser))
     = "/products".
Proof.
  destruct (client_startup_outcomes api_unauthorized signed_in_browser)
    as (_ & _ & _ & Hboth).
  destruct (proj2 (Hboth eq_refl eq_refl) expired_401 signed_in_browser
              eq_refl) as (_ & Ha & Hr & _ & Hroute & _).
  split; [exact Ha|]. split; [exact Hr | exact Hroute].
Defined.

(** ** Route protection *)

(** X26: the component returned by [withAuth].  What it renders depends
    on the loading flag and on whether there is a user, never on the
    required role or permissions: the wrapped component is rendered
    exactly when loading is over and a user is present.  Its effect
    sends a visitor without a user to the login page once loading is
    over, and leaves a user where they are exactly when the required
    role, if one is given and not empty, is the user's role and every
    required permission is among the user's permissions. *)
Theorem guard_decisions requiredPermissions requiredRole loading user :
  (Client.guard_render loading user = Client.Wrapped
   <-> loading = false /\ user <> None)
  /\ (user = None ->
      Client.guard_effect requiredPermissions requiredRole loading user
        = if loading then Client.Stay else Client.GoToLogin)
  /\ (user <> None ->
      (Client.guard_effect requiredPermissions requiredRole loading user
         = Client.Stay
       <-> (forall role, requiredRole = Some role -> role <> "" ->
                         Client.hasRole user role = true)
           /\ (forall ps p, requiredPermissions = Some ps -> In p ps ->
                            Client.hasPermission user p = true))).
Proof.
  split; [|split].
  - unfold Client.guard_render.
    destruct loading; [split; [discriminate | intros [H _]; discriminate]|].
    destruct user; split.
    + intros _. split; [reflexivity | discriminate].
    + intros _. reflexivity.
    + discriminate.
    + intros [_ H]. congruence.
  - intros ->. unfold Client.guard_effect. destruct loading; reflexivity.
  - intros Huser. destruct user as [u|]; [clear Huser | congruence].
    unfold Client.guard_effect.
    destruct requiredRole as [role|]; cbn [truthy default from_option id].
    + destruct (String.eqb role "") eqn:Hempty; cbn [negb andb].
      * apply String.eqb_eq in Hempty. subst role.
        destruct requiredPermissions as [ps|].
        -- destruct (forallb (Client.hasPermission (Some u)) ps) eqn:Hall;
             cbn [negb].
           ++ split; [|reflexivity]. intros _. split.
              ** intros role [= <-] Hne. congruence.
              ** intros ps' p [= <-]. apply forallb_forall, Hall.
           ++ split; [discriminate|]. intros [_ Hps].
              assert (forallb (Client.hasPermission (Some u)) ps = true)
                by (apply forallb_forall; intros p Hp; eapply Hps; eauto).
              congruence.
        -- split; [|reflexivity]. intros _. split.
           ++ intros role [= <-] Hne. congruence.
           ++ discriminate.
      * destruct (Client.hasRole (Some u) role) eqn:Hrole; cbn [negb].
        -- destruct requiredPermissions as [ps|].
           ++ destruct (forallb (Client.hasPermission (Some u)) ps) eqn:Hall;
                cbn [negb].
              ** split; [|reflexivity]. intros _. split.
                 --- intros role' [= <-] _. exact Hrole.
                 --- intros ps' p [= <-]. apply forallb_forall, Hall.
              ** split; [discriminate|]. intros [_ Hps].
                 assert (forallb (Client.hasPermission (Some u)) ps = true)
                   by (apply forallb_forall; intros p Hp; eapply Hps; eauto).
                 congruence.
           ++ split; [|reflexivity]. intros _. split.
              ** intros role' [= <-] _. exact Hrole.
              ** discriminate.
        -- split; [discriminate|]. intros [Hr _].
           apply String.eqb_neq in Hempty.
           rewrite (Hr role eq_refl Hempty) in Hrole. discriminate.
    + destruct requiredPermissions as [ps|].
      * destruct (forallb (Client.hasPermission (Some u)) ps) eqn:Hall;
          cbn [negb].
        -- split; [|reflexivity]. intros _. split; [discriminate|].
           intros ps' p [= <-]. apply forallb_forall, Hall.
        -- split; [discriminate|]. intros [_ Hps].
           assert (forallb (Client.hasPermission (Some u)) ps = true)
             by (apply forallb_forall; intros p Hp; eapply Hps; eauto).
           congruence.
      * split; [|reflexivity]. intros _. split; discriminate.
Qed.

(** A Manager passes a guard that asks for the Manager role and for
    products:write, and is shown the page. *)
Lemma guard_decisions_witness :
  Client.guard_effect (Some ["products:write"]) (Some "Manager") false
    (Some manager_object) = Client.Stay
  /\ Client.guard_render false (Some manager_object) = Client.Wrapped.
Proof.
  assert (Huser : Some manager_object <> None) by discriminate.
  destruct (guard_decisions (Some ["products:write"]) (Some "Manager") false
              (Some manager_object)) as (Hrender & _ & Heffect).
  split.
  - apply (proj2 (Heffect Huser)). split.
    + intros role [= <-] _. reflexivity.
    + intros ps p [= <-] [<- | []]. reflexivity.
  - apply (proj2 Hrender). split; [reflexivity | exact Huser].
Defined.

(** ** The client's checks on the server's response *)

Section ClientOnServerResponse.

Context {C : Collaborators}.
Variable this : AuthService.

Lemma login_Ok_inv dto ip ua w resp :
  fst (login this dto ip ua w) = Ok resp ->
  exists u r,
    find (by_email (login_email dto)) (users w) = Some u
    /\ u_status u = ACTIVE
    /\ bcrypt_compare (login_password dto) (u_passwordHash u) = true
    /\ find (role_by_id (u_roleId u)) (roles w) = Some r
    /\ codec_accepts this.
Proof.
  intros Hok.
  destruct (find (by_email (login_email dto)) (users w)) as [u|] eqn:Hfind.
  2:{ rewrite (login_not_found_run this dto ip ua w Hfind) in Hok.
      discriminate. }
  destruct (UserStatus_eqb (u_status u) ACTIVE) eqn:Hstatus.
  2:{ apply UserStatus_eqb_neq in Hstatus.
      rewrite (login_inactive_run this dto ip ua w u Hfind Hstatus) in Hok.
      discriminate. }
  apply UserStatus_eqb_eq in Hstatus.
  destruct (bcrypt_compare (login_password dto) (u_passwordHash u)) eqn:Hcmp.
  2:{ rewrite (login_wrong_password_run this dto ip ua w u Hfind Hstatus Hcmp)
        in Hok.
      discriminate. }
  destruct (find (role_by_id (u_roleId u)) (roles w)) as [r|] eqn:Hrole.
  - exists u, r. repeat (split; [first [assumption | reflexivity]|]).
    revert Hok.
    unfold login, try_catch, bind, user_findUnique_email_include, gets.
    simpl. rewrite Hfind. simpl. rewrite Hstatus, Hcmp. simpl.
    unfold user_update. rewrite (found_exists_by_id _ _ _ Hfind).
    unfold modify. simpl.
    match goal with
    | |- context [generateTokenPair this ?x ?w0] =>
        destruct (generateTokenPair this x w0) as [[pair|e] w'] eqn:Hgen
    end; simpl;
      [|destruct (instanceof_Unauthorized e); simpl; discriminate].
    intros _. apply (f_equal fst) in Hgen.
    apply generateTokenPair_Ok_inv in Hgen as [Hcodec _]. exact Hcodec.
  - exfalso. revert Hok.
    unfold login, try_catch, bind, user_findUnique_email_include, gets.
    simpl. rewrite Hfind. simpl. rewrite Hstatus, Hcmp. simpl.
    unfold user_update. rewrite (found_exists_by_id _ _ _ Hfind).
    unfold modify, generateTokenPair, include_role. simpl. rewrite Hrole.
    simpl. discriminate.
Qed.

Lemma existsb_eqb_In (p : string) (l : list string) :
  existsb (String.eqb p) l = true <-> In p l.
Proof.
  rewrite existsb_exists. split.
  - intros (x & Hin & Heq). apply String.eqb_eq in Heq. subst x. exact Hin.
  - intros Hin. exists p. split; [exact Hin | apply String.eqb_refl].
Qed.

(** What the client reads off a user object shaped by
    [formatUserResponse]. *)
Lemma client_reads_formatted u r :
  (forall p,
     Client.hasPermission
       (Some (formatUserResponse {| row := u; role := Some r |})) p = true
     <-> In p (permission_keys r))
  /\ (forall name,
        Client.hasRole
          (Some (formatUserResponse {| row := u; role := Some r |})) name
          = true
        <-> name = r_name r).
Proof.
  assert (Hperms :
    formatUserResponse {| row := u; role := Some r |} !! "permissions"
      = Some (JStrings (permission_keys r))).
  { unfold formatUserResponse. apply lookup_insert_eq. }
  assert (Hrole :
    formatUserResponse {| row := u; role := Some r |} !! "role"
      = Some (JRole r)).
  { unfold formatUserResponse, toObject.
    rewrite lookup_insert_ne by discriminate.
    rewrite !lookup_delete_ne by discriminate.
    rewrite !lookup_insert_ne by discriminate.
    apply lookup_insert_eq. }
  split.
  - intros p. unfold Client.hasPermission. rewrite Hperms.
    apply existsb_eqb_In.
  - intros name. unfold Client.hasRole. rewrite Hrole.
    rewrite String.eqb_eq. split; congruence.
Qed.

(** X27: the client's checks agree with the token.  On the user object
    of a successful [login] or [register] response, [hasPermission]
    answers true exactly for the permission keys carried by the access
    token issued in the same response, and [hasRole] exactly for the
    role name carried by that token. *)
Theorem client_checks_match_token_claims :
  let agrees (resp : AuthResponse) :=
    exists sub email roleName permissions options registered,
      accessToken (ar_tokens resp)
        = Signed (AccessPayload sub email roleName permissions) options
                 registered
      /\ (forall p, Client.hasPermission (Some (ar_user resp)) p = true
                    <-> In p permissions)
      /\ (forall name, Client.hasRole (Some (ar_user resp)) name = true
                       <-> name = roleName) in
  (forall dto ip ua w resp,
     fst (login this dto ip ua w) = Ok resp -> agrees resp)
  /\ (forall dto ip ua w resp,
        fst (register this dto ip ua w) = Ok resp -> agrees resp).
Proof.
  intros agrees. unfold agrees. split.
  - intros dto ip ua w resp Hok.
    destruct (login_Ok_inv dto ip ua w resp Hok)
      as (u & r & Hfind & Hactive & Hcmp & Hrole & Hcodec).
    rewrite (login_success_run this dto ip ua w u r Hcodec Hfind Hactive Hcmp
               Hrole) in Hok.
    cbn [fst] in Hok. injection Hok as <-. cbn [ar_tokens ar_user accessToken].
    destruct (client_reads_formatted u r) as [Hp Hr].
    eexists _, _, _, _, _, _. split; [reflexivity|]. split; assumption.
  - intros dto ip ua w resp Hok.
    destruct (register_Ok_inv this dto ip ua w resp Hok)
      as (rid & r & Hfind & Hrole & Hid & Hr & Haudit & Hcodec).
    pose proof (register_success this dto ip ua w rid r Hcodec Hfind Hrole Hid
                  Hr Haudit) as Hrun.
    cbv zeta in Hrun. rewrite Hrun in Hok.
    cbn [fst] in Hok. injection Hok as <-. cbn [ar_tokens ar_user accessToken].
    destruct (client_reads_formatted
                (new_user (reg_email dto) (reg_name dto)
                   (bcrypt_hash (reg_password dto)
                      (default 12 (BCRYPT_ROUNDS (configService this))))
                   rid w) r) as [Hp Hr'].
    eexists _, _, _, _, _, _. split; [reflexivity|]. split; assumption.
Qed.

End ClientOnServerResponse.

(** On Alice's login response the client finds products:read and the
    Subordinate role, as her token says. *)
Lemma client_checks_match_token_claims_witness :
  exists resp,
    fst (login (C:=demo) demo_service alice_login None None demo_world)
      = Ok resp
    /\ Client.hasPermission (Some (ar_user resp)) "products:read" = true
    /\ Client.hasPermission (Some (ar_user resp)) "products:write" = false
    /\ Client.hasRole (Some (ar_user resp)) "Subordinate" = true.
Proof.
  eexists. split; [reflexivity|].
  destruct (proj1 (client_checks_match_token_claims (C:=demo) demo_service)
              alice_login None None demo_world _ eq_refl)
    as (sub & email & roleName & permissions & options & registered
        & Htoken & Hperm & Hrole).
  injection Htoken as <- <- <- <- <- <-.
  split; [apply Hperm; left; reflexivity|].
  split; [reflexivity|]. apply Hrole. reflexivity.
Defined.

(** ** Reset tokens and the login snapshot *)

Section MoreInvariants.

Context {C : Collaborators}.
Variable this : AuthService.

Lemma refreshToken_users tok w :
  users (snd (refreshToken this tok w)) = users w.
Proof.
  pose proof (jwt_verify_world tok (jwtRefreshSecret this) w) as Hworld.
  unfold refreshToken, try_catch, bind, user_findUnique_id_include, gets.
  destruct (jwt_verify tok (jwtRefreshSecret this) w) as [[p|e] w1];
    cbn [snd] in Hworld; subst w1; cbn [fst snd]; [|reflexivity].
  destruct (find (by_id (payload_sub p)) (users w)) as [u|];
    cbn [fmap option_fmap option_map]; [|reflexivity].
  destruct (negb (UserStatus_eqb _ _)); [reflexivity|].
  pose proof (generateTokenPair_world this (include_role w u) w) as Hgen.
  destruct (generateTokenPair this (include_role w u) w) as [[pair|e] w1];
    cbn [snd] in Hgen; subst w1; reflexivity.
Qed.

Lemma validateUser_users email password w :
  users (snd (validateUser email password w)) = users w.
Proof.
  unfold validateUser, bind, user_findUnique_email_include, gets.
  cbn [fst snd].
  destruct (find (by_email email) (users w)) as [u|];
    cbn [fmap option_fmap option_map]; [|reflexivity].
  destruct (UserStatus_eqb _ _); [|reflexivity].
  destruct (bcrypt_compare _ _); reflexivity.
Qed.

Lemma logout_users userId ip ua w :
  users (snd (logout userId ip ua w)) = users w.
Proof.
  rewrite logout_run. cbn [snd].
  destruct (find (by_id userId) (users w));
    [apply logSecurityEvent_users | reflexivity].
Qed.

(** X28: no two users ever come to hold the same reset token.  If
    reset tokens are unique in the user table, they are unique after
    any of the eight public operations, for [forgotPassword] on the
    condition that the uuid it draws is not a token some user already
    holds. *)
Theorem reset_tokens_stay_unique w :
  reset_tokens_unique (users w) ->
  (forall dto ip ua,
     reset_tokens_unique (users (snd (register this dto ip ua w))))
  /\ (forall dto ip ua,
        reset_tokens_unique (users (snd (login this dto ip ua w))))
  /\ (forall tok, reset_tokens_unique (users (snd (refreshToken this tok w))))
  /\ (forall userId ip ua,
        reset_tokens_unique (users (snd (logout userId ip ua w))))
  /\ (forall userId dto,
        reset_tokens_unique
          (users (snd (changePassword this userId dto w))))
  /\ (forall email,
        (forall v, In v (users w) ->
                   u_passwordResetToken v <> Some (uuidv4 (entropy w))) ->
        reset_tokens_unique (users (snd (forgotPassword email w))))
  /\ (forall dto, reset_tokens_unique (users (snd (resetPassword this dto w))))
  /\ (forall email password,
        reset_tokens_unique (users (snd (validateUser email password w)))).
Proof.
  intros Huniq. repeat apply conj; intros.
  - apply register_keeps_unique, Huniq.
  - apply login_keeps_unique, Huniq.
  - rewrite refreshToken_users. exact Huniq.
  - rewrite logout_users. exact Huniq.
  - apply changePassword_keeps_unique, Huniq.
  - apply forgotPassword_keeps_unique; assumption.
  - apply resetPassword_keeps_unique, Huniq.
  - rewrite validateUser_users. exact Huniq.
Qed.

(** X29: the user object in a login response is the record as it was
    loaded, before this login was written to it: its [lastLoginAt] is
    the time of the previous login (null at the first one), while the
    stored record already carries the time of this one; id, email and
    status are those of the record (the codec reading both configured
    lifetimes). *)
Theorem login_response_is_the_loaded_record dto ip ua w u r :
  codec_accepts this ->
  find (by_email (login_email dto)) (users w) = Some u ->
  u_status u = ACTIVE ->
  bcrypt_compare (login_password dto) (u_passwordHash u) = true ->
  find (role_by_id (u_roleId u)) (roles w) = Some r ->
  exists resp,
    fst (login this dto ip ua w) = Ok resp
    /\ ar_user resp !! "lastLoginAt" = Some (of_opt_date (u_lastLoginAt u))
    /\ ar_user resp !! "id" = Some (JString (u_id u))
    /\ ar_user resp !! "email" = Some (JString (u_email u))
    /\ ar_user resp !! "status" = Some (JString "ACTIVE")
    /\ (exists v, find (by_email (login_email dto))
                    (users (snd (login this dto ip ua w))) = Some v
                  /\ u_lastLoginAt v = Some (clock w)).
Proof.
  intros Hcodec Hfind Hactive Hcmp Hrole.
  rewrite (login_success_run this dto ip ua w u r Hcodec Hfind Hactive Hcmp
             Hrole).
  eexists. split; [reflexivity|]. cbn [ar_user snd].
  unfold formatUserResponse, toObject. cbn [row role].
  split.
  { rewrite lookup_insert_ne by discriminate.
    rewrite !lookup_delete_ne by discriminate.
    rewrite !lookup_insert_ne by discriminate. apply lookup_insert_eq. }
  split.
  { rewrite lookup_insert_ne by discriminate.
    rewrite !lookup_delete_ne by discriminate. apply lookup_insert_eq. }
  split.
  { rewrite lookup_insert_ne by discriminate.
    rewrite !lookup_delete_ne by discriminate.
    rewrite !lookup_insert_ne by discriminate. apply lookup_insert_eq. }
  split.
  { rewrite lookup_insert_ne by discriminate.
    rewrite !lookup_delete_ne by discriminate.
    rewrite !lookup_insert_ne by discriminate. rewrite Hactive.
    apply lookup_insert_eq. }
  exists (set_lastLoginAt (clock w) u). split; [|reflexivity].
  rewrite logSecurityEvent_users. cbn [users set_users].
  apply (find_by_email_updated _ _ _ _ u); [reflexivity | exact Hfind
                                            | reflexivity].
Qed.

End MoreInvariants.

(** In the demo store only Alice holds a token, and registering Carol
    keeps it so. *)
Lemma reset_tokens_stay_unique_witness :
  reset_tokens_unique
    (users (snd (register (C:=demo) demo_service carol_registration
                   None None demo_world))).
Proof.
  assert (Hdemo : reset_tokens_unique (users demo_world)).
  { intros tok a b [<- | [<- | []]] [<- | [<- | []]]; cbn;
      intros; (reflexivity || discriminate). }
  exact (proj1 (reset_tokens_stay_unique (C:=demo) demo_service demo_world
                  Hdemo) carol_registration None None).
Defined.

(** Alice's first login: the response says she never logged in, the
    store says she did just now. *)
Lemma login_response_is_the_loaded_record_witness :
  exists resp,
    fst (login (C:=demo) demo_service alice_login None None demo_world)
      = Ok resp
    /\ ar_user resp !! "lastLoginAt" = Some JNull
    /\ (exists v, find (by_email "alice@x.com")
                    (users (snd (login (C:=demo) demo_service alice_login
                                   None None demo_world))) = Some v
                  /\ u_lastLoginAt v = Some 1000000).
Proof.
  destruct (login_response_is_the_loaded_record (C:=demo) demo_service
              alice_login None None demo_world alice subordinate
              demo_codec_accepts eq_refl eq_refl eq_refl eq_refl)
    as (resp & Hok & Hlast & _ & _ & _ & Hstored).
  exists resp. split; [exact Hok|]. split; [exact Hlast | exact Hstored].
Defined.
